(** * api-testing-demo: endpoint registry, schema validator, Slack notifier
      and k6 setup phases, embedded from the JavaScript sources.

    The values are the JavaScript values the code handles: numbers are
    IEEE-754 binary64 ([float]), strings are byte strings (UTF-8 for the
    non-ASCII literals of the sources), objects are association lists in
    insertion order (the order [Object.entries] and [JSON.stringify]
    follow), [process.env] and the [options] argument are finite maps. *)

From Stdlib Require Import ZArith List String Ascii Floats Bool Lia DecimalString.
From stdpp Require Import base gmap strings.
Import ListNotations.

Local Open Scope string_scope.
Local Open Scope Z_scope.

(** ** Numbers and their conversion to strings *)

Module JsNumber.

(** Decimal digits of a non-negative integer ("0" for 0). *)
Definition Z_to_string (n : Z) : string :=
  NilZero.string_of_uint (N.to_uint (Z.to_N n)).

Fixpoint zeros (n : nat) : string :=
  match n with
  | O => ""
  | S n' => String "0"%char (zeros n')
  end.

Definition take (n : nat) (s : string) : string := String.substring 0 n s.
Definition drop (n : nat) (s : string) : string :=
  String.substring n (String.length s - n) s.

(** [Number.prototype.toFixed], steps 8-9, on the integer [n] with
    [n / 10^f] closest to the number: pad to [f + 1] digits, then put the
    point before the last [f] digits. *)
Definition fixed_digits (n : Z) (f : nat) : string :=
  let m := Z_to_string n in
  match f with
  | O => m
  | _ =>
      let k := String.length m in
      let m' := if (k <=? f)%nat then zeros (f + 1 - k) ++ m else m in
      let k' := String.length m' in
      take (k' - f) m' ++ "." ++ drop (k' - f) m'
  end.

(** The integer [n] for which [n / 10^f - m * 2^e] is closest to zero, the
    larger one on a tie: [floor (m * 2^e * 10^f + 1/2)], computed exactly. *)
Definition nearest_scaled (m : positive) (e : Z) (f : nat) : Z :=
  let num := Z.pos m * 10 ^ Z.of_nat f in
  if 0 <=? e then num * 2 ^ e
  else let den := 2 ^ (- e) in (2 * num + den) / (2 * den).

(** The decimal exponent [n] with [10^(n-1) <= num/den < 10^n], searched
    upwards from below the smallest binary64 magnitude. *)
Fixpoint decimal_exponent_from (fuel : nat) (n : Z) (num den : Z) : Z :=
  match fuel with
  | O => n
  | S fuel' =>
      let below :=
        if 0 <=? n then num <? den * 10 ^ n else num * 10 ^ (- n) <? den in
      if below then n else decimal_exponent_from fuel' (n + 1) num den
  end.

Definition decimal_exponent (num den : Z) : Z :=
  decimal_exponent_from 700 (-330) num den.

(** Comparison of [s * 10^t] with [a * 2^b / 4] (all exact). *)
Definition cmp_dec_bin (s t a b : Z) : comparison :=
  let lhs := s * 10 ^ (Z.max t 0) * 2 ^ (Z.max (- b) 0) in
  let rhs := a * 2 ^ (Z.max b 0) * 10 ^ (Z.max (- t) 0) in
  lhs ?= rhs.

(** Does the real number [s * 10^t] round to the binary64 value
    [m * 2^e] (round to nearest, ties to even)? The rounding interval
    ends at the midpoints to the neighbouring values and is closed
    when [m] is even. All quantities are scaled by 4: [b = e - 2]. *)
Definition rounds_to (m : positive) (e : Z) (s t : Z) : bool :=
  let b := e - 2 in
  let hi := 4 * Z.pos m + 2 in
  let lo :=
    if (Z.pos m =? 2 ^ 52) && (-1074 <? e) then 4 * Z.pos m - 1
    else 4 * Z.pos m - 2 in
  let closed := Z.even (Z.pos m) in
  let above_lo :=
    match cmp_dec_bin s t lo b with Gt => true | Eq => closed | Lt => false end in
  let below_hi :=
    match cmp_dec_bin s t hi b with Lt => true | Eq => closed | Gt => false end in
  above_lo && below_hi.

(** Distance of [s * 10^t] to [m * 2^e], as a numerator over the common
    denominator of [cmp_dec_bin]. *)
Definition dist (m : positive) (e : Z) (s t : Z) : Z :=
  let b := e - 2 in
  let lhs := s * 10 ^ (Z.max t 0) * 2 ^ (Z.max (- b) 0) in
  let rhs := 4 * Z.pos m * 2 ^ (Z.max b 0) * 10 ^ (Z.max (- t) 0) in
  Z.abs (lhs - rhs).

(** The digits [s], their count [k] and the exponent [n] of
    [Number::toString]: the least [k] such that some [k]-digit [s] has
    [s * 10^(n-k)] rounding to the number; among several [s] the closest
    one, the even one on a tie. *)
Fixpoint shortest_from (fuel : nat) (k : Z) (m : positive) (e n0 : Z)
  : Z * Z * Z :=
  let t := n0 - k in
  let num := Z.pos m * 2 ^ (Z.max e 0) * 10 ^ (Z.max (- t) 0) in
  let den := 2 ^ (Z.max (- e) 0) * 10 ^ (Z.max t 0) in
  let s1 := num / den in
  let s2 := s1 + 1 in
  let ok1 := rounds_to m e s1 t in
  let ok2 := rounds_to m e s2 t in
  let pick (s : Z) := if s =? 10 ^ k then (10 ^ (k - 1), k, n0 + 1) else (s, k, n0) in
  match fuel with
  | O => (s1, k, n0)
  | S fuel' =>
      if ok1 && ok2 then
        let d1 := dist m e s1 t in
        let d2 := dist m e s2 t in
        if d1 <? d2 then pick s1
        else if d2 <? d1 then pick s2
        else if Z.even s1 then pick s1 else pick s2
      else if ok1 then pick s1
      else if ok2 then pick s2
      else shortest_from fuel' (k + 1) m e n0
  end.

Definition shortest (m : positive) (e : Z) : Z * Z * Z :=
  let num := Z.pos m * 2 ^ (Z.max e 0) in
  let den := 2 ^ (Z.max (- e) 0) in
  shortest_from 20 1 m e (decimal_exponent num den).

(** The layout of [Number::toString] for digits [s] ([k] of them) and
    exponent [n]. *)
Definition layout (s k n : Z) : string :=
  let ds := Z_to_string s in
  if (k <=? n) && (n <=? 21) then ds ++ zeros (Z.to_nat (n - k))
  else if (0 <? n) && (n <=? 21) then
    take (Z.to_nat n) ds ++ "." ++ drop (Z.to_nat n) ds
  else if (-6 <? n) && (n <=? 0) then "0." ++ zeros (Z.to_nat (- n)) ++ ds
  else
    let ex := (if 0 <=? n - 1 then "+" else "-") ++ Z_to_string (Z.abs (n - 1)) in
    if k =? 1 then ds ++ "e" ++ ex
    else take 1 ds ++ "." ++ drop 1 ds ++ "e" ++ ex.

(** [Number::toString(x)] in radix 10. *)
Definition toString (x : float) : string :=
  match Prim2SF x with
  | S754_nan => "NaN"
  | S754_zero _ => "0"
  | S754_infinity s => (if s then "-" else "") ++ "Infinity"
  | S754_finite s m e =>
      let '(d, k, n) := shortest m e in
      (if s then "-" else "") ++ layout d k n
  end.

(** [Number.prototype.toFixed(f)]: a non-finite number prints as
    [toString] does; the sign is split off (minus zero has none); from
    [10^21] on the magnitude prints as [toString] does. *)
Definition toFixed (x : float) (f : nat) : string :=
  match Prim2SF x with
  | S754_nan => "NaN"
  | S754_infinity s => (if s then "-" else "") ++ "Infinity"
  | S754_zero _ => fixed_digits 0 f
  | S754_finite s m e =>
      (if s then "-" else "") ++
      (if 10 ^ 21 * 2 ^ (Z.max (- e) 0) <=? Z.pos m * 2 ^ (Z.max e 0)
       then let '(d, k, n) := shortest m e in layout d k n
       else fixed_digits (nearest_scaled m e f) f)
  end.

(** [ToBoolean] on a number: [+0], [-0] and [NaN] are falsy. *)
Definition truthy (x : float) : bool :=
  negb (PrimFloat.eqb 0 x) && PrimFloat.eqb x x.

End JsNumber.

(** ** JavaScript values, exceptions and property access *)

#[local] Set Warnings "-register-all,-inexact-float".

Inductive value : Type :=
| VUndefined
| VNull
| VBool (b : bool)
| VNumber (x : float)
| VString (s : string)
| VArray (items : list value)
| VObject (fields : list (string * value)).

(** What a call can throw: a failed [expect] matcher; the plain [Error]
    of a matcher that cannot take the value it is given, whose message
    no code of the repository reads; a [TypeError] of the language; or
    an [Error] object constructed with a message. *)
Inductive exn : Type :=
| AssertionError
| MatcherError
| TypeError
| Error (message : string).

Inductive result (A : Type) : Type :=
| Ok (a : A)
| Throw (e : exn).

Arguments Ok {A} a.
Arguments Throw {A} e.

Definition bind {A B : Type} (r : result A) (k : A -> result B) : result B :=
  match r with
  | Ok a => k a
  | Throw e => Throw e
  end.

Notation "'let!' x ':=' r 'in' k" := (bind r (fun x => k))
  (at level 10, x name, r at level 100, k at level 200).
Notation "r '>>' k" := (bind r (fun _ => k))
  (at level 95, right associativity).

Definition typeof (v : value) : string :=
  match v with
  | VUndefined => "undefined"
  | VNull => "object"
  | VBool _ => "boolean"
  | VNumber _ => "number"
  | VString _ => "string"
  | VArray _ => "object"
  | VObject _ => "object"
  end.

(** [Array.isArray] *)
Definition isArray (v : value) : bool :=
  match v with
  | VArray _ => true
  | _ => false
  end.

Definition join (sep : string) (parts : list string) : string :=
  String.concat sep parts.

(** [ToString], as a template literal applies it to [${...}]. *)
Fixpoint ToString (v : value) : string :=
  match v with
  | VUndefined => "undefined"
  | VNull => "null"
  | VBool b => if b then "true" else "false"
  | VNumber x => JsNumber.toString x
  | VString s => s
  | VArray items =>
      join "," (map (fun x => match x with
                              | VUndefined | VNull => ""
                              | _ => ToString x
                              end) items)
  | VObject _ => "[object Object]"
  end.

Fixpoint assoc (key : string) (fields : list (string * value)) : option value :=
  match fields with
  | [] => None
  | (k, v) :: rest => if String.eqb k key then Some v else assoc key rest
  end.

Definition number_of_nat (n : nat) : float :=
  PrimFloat.of_uint63 (Uint63.of_Z (Z.of_nat n)).

(** The array index a property key denotes, if it is the canonical
    decimal form of an index below [len]. *)
Definition index_of_key (key : string) (len : nat) : option nat :=
  List.find (fun i => String.eqb (JsNumber.Z_to_string (Z.of_nat i)) key) (seq 0 len).

(** ** Strings as the language has them

    A string of the language is a sequence of 16-bit code units. A
    [string] here holds its text in UTF-8; a code unit that is half of a
    surrogate pair, standing alone, is held as the three bytes that
    extend UTF-8 to it. [code_units] cuts a string into its code units:
    one for a character of one, two or three bytes, two for a character
    of four bytes. A byte that is not part of a well-formed character
    counts as a unit of its own. *)

Definition is_continuation (c : ascii) : bool :=
  let n := nat_of_ascii c in (128 <=? n)%nat && (n <? 192)%nat.

(** The three bytes of the code unit [u], a surrogate. *)
Definition surrogate (u : Z) : string :=
  String (ascii_of_nat (Z.to_nat (224 + u / 4096)))
    (String (ascii_of_nat (Z.to_nat (128 + (u / 64) mod 64)))
       (String (ascii_of_nat (Z.to_nat (128 + u mod 64))) "")).

Fixpoint code_units (s : string) : list string :=
  match s with
  | EmptyString => []
  | String a s1 =>
      let alone := String a "" :: code_units s1 in
      let n := nat_of_ascii a in
      if (n <? 192)%nat || (248 <=? n)%nat then alone
      else
        match s1 with
        | String b s2 =>
            if negb (is_continuation b) then alone
            else if (n <? 224)%nat then String a (String b "") :: code_units s2
            else
              match s2 with
              | String c s3 =>
                  if negb (is_continuation c) then alone
                  else if (n <? 240)%nat
                  then String a (String b (String c "")) :: code_units s3
                  else
                    match s3 with
                    | String d s4 =>
                        if negb (is_continuation d) then alone
                        else
                          let byte (x : ascii) := Z.of_nat (nat_of_ascii x) in
                          let point :=
                            (byte a - 240) * 262144 + (byte b - 128) * 4096
                            + (byte c - 128) * 64 + (byte d - 128) in
                          surrogate (55296 + (point - 65536) / 1024)
                            :: surrogate (56320 + (point - 65536) mod 1024)
                            :: code_units s4
                    | EmptyString => alone
                    end
              | EmptyString => alone
              end
        | EmptyString => alone
        end
  end.

(** The own property [key] of a value: the fields of an object, the
    indices and [length] of an array or of a string (a string by its
    code units). *)
Definition own_field (v : value) (key : string) : option value :=
  match v with
  | VObject fields => assoc key fields
  | VArray items =>
      if String.eqb key "length" then Some (VNumber (number_of_nat (List.length items)))
      else match index_of_key key (List.length items) with
           | Some i => nth_error items i
           | None => None
           end
  | VString s =>
      let units := code_units s in
      if String.eqb key "length" then Some (VNumber (number_of_nat (List.length units)))
      else match index_of_key key (List.length units) with
           | Some i => option_map VString (nth_error units i)
           | None => None
           end
  | _ => None
  end.

(** [data[key]] for a name that no built-in prototype defines (the
    scripts read [startTime], [length], [title] and [id] of JSON data):
    a [TypeError] on [null] and [undefined], otherwise the own property
    or [undefined]. [read] below follows the prototype chain. *)
Definition get (data : value) (key : string) : result value :=
  match data with
  | VUndefined | VNull => Throw TypeError
  | _ => Ok (match own_field data key with Some v => v | None => VUndefined end)
  end.

(** ** Property access along the prototype chain

    [object[key]] and [key in object] look at the own properties of the
    object and then along its prototype chain. What the built-in
    prototypes carry differs between engines and their versions, so the
    model takes it from an [engine]: what a JSON value inherits under a
    name, and how the built-in objects that such a read can give (a
    prototype, one of its functions) answer in turn. Reading an inherited
    member of a JSON value does not throw. *)

Inductive jsval (builtin : Type) : Type :=
| Data (v : value)
| Builtin (b : builtin).

Arguments Data {builtin} v.
Arguments Builtin {builtin} b.

Record engine (builtin : Type) : Type := {
  (** the property that a value without an own property of this name
      finds on its prototype chain (a string, number or boolean through
      its wrapper object), if there is one *)
  inherited : value -> string -> option (jsval builtin);
  (** [typeof b] and [Array.isArray(b)] *)
  builtin_typeof : builtin -> string;
  builtin_isArray : builtin -> bool;
  (** [b[key]] and [key in b] *)
  builtin_get : builtin -> string -> result (jsval builtin);
  builtin_has : builtin -> string -> bool;
}.

Arguments inherited {builtin} e v key.
Arguments builtin_typeof {builtin} e b.
Arguments builtin_isArray {builtin} e b.
Arguments builtin_get {builtin} e b key.
Arguments builtin_has {builtin} e b key.

(** An engine stripped of its built-in members: nothing is inherited.
    The examples use it with names that no built-in prototype defines. *)
Definition bare : engine Empty_set :=
  {| inherited := fun _ _ => None;
     builtin_typeof := fun b : Empty_set => match b with end;
     builtin_isArray := fun b : Empty_set => match b with end;
     builtin_get := fun (b : Empty_set) _ => match b with end;
     builtin_has := fun (b : Empty_set) _ => match b with end |}.

Definition nullish (v : value) : bool :=
  match v with
  | VUndefined | VNull => true
  | _ => false
  end.

Section Access.

Context {builtin : Type} (E : engine builtin).

Definition typeof_js (x : jsval builtin) : string :=
  match x with
  | Data v => typeof v
  | Builtin b => builtin_typeof E b
  end.

Definition isArray_js (x : jsval builtin) : bool :=
  match x with
  | Data v => isArray v
  | Builtin b => builtin_isArray E b
  end.

Definition nullish_js (x : jsval builtin) : bool :=
  match x with
  | Data v => nullish v
  | Builtin _ => false
  end.

(** [x === undefined] *)
Definition is_undefined (x : jsval builtin) : bool :=
  match x with
  | Data VUndefined => true
  | _ => false
  end.

(** Neither an object nor a function. *)
Definition isPrimitive (x : jsval builtin) : bool :=
  match x with
  | Data (VObject _) | Data (VArray _) => false
  | Data _ => true
  | Builtin _ => false
  end.

(** [object[key]] *)
Definition read (object : jsval builtin) (key : string) : result (jsval builtin) :=
  match object with
  | Data v =>
      if nullish v then Throw TypeError
      else
        Ok (match own_field v key with
            | Some x => Data x
            | None =>
                match inherited E v key with
                | Some x => x
                | None => Data VUndefined
                end
            end)
  | Builtin b => builtin_get E b key
  end.

(** [key in object], for an object *)
Definition has_property (object : jsval builtin) (key : string) : bool :=
  match object with
  | Data v =>
      match own_field v key with
      | Some _ => true
      | None =>
          match inherited E v key with
          | Some _ => true
          | None => false
          end
      end
  | Builtin b => builtin_has E b key
  end.

End Access.

(** ** The matchers of the test framework that the validator uses

    [expect] is the test framework's; its matchers throw on failure: an
    assertion failure when the received value does not match, a plain
    [Error] when the matcher cannot take the received value at all.
    [toHaveProperty] reads its argument as a path. [toBe] compares with
    [Object.is]; the validator only applies it to a fresh string or
    boolean. *)

(** A dot or a bracket. *)
Definition is_path_mark (c : ascii) : bool :=
  let n := nat_of_ascii c in ((n =? 46) || (n =? 91) || (n =? 93))%nat.

Definition is_dot (c : ascii) : bool := (nat_of_ascii c =? 46)%nat.

(** The matches of the pattern of [pathAsArray] in what is left of the
    path: every longest run of characters that are neither dots nor
    brackets, and the empty text before a dot that another dot or the
    end of the path follows. [run] is the run being read. *)
Fixpoint path_matches (run : string) (s : string) : list string :=
  match s with
  | EmptyString =>
      match run with
      | EmptyString => []
      | _ => [run]
      end
  | String c rest =>
      if is_path_mark c then
        (match run with
         | EmptyString => []
         | _ => [run]
         end
         ++ (if is_dot c && match rest with
                            | EmptyString => true
                            | String d _ => is_dot d
                            end
             then [""] else [])
         ++ path_matches "" rest)%list
      else path_matches (run ++ String c "") rest
  end.

Definition pathAsArray (propertyPath : string) : list string :=
  match propertyPath with
  | EmptyString => [""]
  | String c _ =>
      ((if is_dot c then [""] else []) ++ path_matches "" propertyPath)%list
  end.

Section Matchers.

Context {builtin : Type} (E : engine builtin).

(** [getPath(object, path).hasEndProp] as a boolean: whether the path
    leads to a property. *)
Fixpoint hasEndProp (object : jsval builtin) (path : list string) : result bool :=
  match path with
  | [] => Ok false
  | prop :: rest =>
      let! newObject := read E object prop in
      match rest with
      | [] =>
          Ok (negb (is_undefined newObject)
              || (negb (isPrimitive object) && has_property E object prop))
      | _ :: _ =>
          if nullish_js newObject then Ok false else hasEndProp newObject rest
      end
  end.

Definition expect_toHaveProperty (received : jsval builtin) (key : string) : result unit :=
  if nullish_js received then Throw MatcherError
  else
    let! found := hasEndProp received (pathAsArray key) in
    if found then Ok tt else Throw AssertionError.

End Matchers.

Definition expect_string_toBe (received : string) (expected : value) : result unit :=
  match expected with
  | VString s => if String.eqb received s then Ok tt else Throw AssertionError
  | _ => Throw AssertionError
  end.

Definition expect_bool_toBe (received expected : bool) : result unit :=
  if Bool.eqb received expected then Ok tt else Throw AssertionError.

(** ** [Object.entries]

    The own properties of an object come in the order of the language:
    first those whose name is an array index, by ascending index, then
    the others in the order in which they were added. The list of a
    [VObject] gives its fields in the order in which they were added. *)

Definition decimal_digit (c : ascii) : bool :=
  let n := nat_of_ascii c in (48 <=? n)%nat && (n <=? 57)%nat.

Fixpoint decimal_value (acc : Z) (s : string) : Z :=
  match s with
  | EmptyString => acc
  | String c rest => decimal_value (10 * acc + (Z.of_nat (nat_of_ascii c) - 48)) rest
  end.

(** The index that [key] names, if it is an array index: the decimal
    form, without sign or leading zero, of an integer up to 2^32 - 2. *)
Definition array_index (key : string) : option Z :=
  let n := decimal_value 0 key in
  if forallb decimal_digit (list_ascii_of_string key)
     && String.eqb (JsNumber.Z_to_string n) key
     && (n <=? 4294967294)
  then Some n else None.

Fixpoint insert_entry (n : Z) (entry : string * value)
    (sorted : list (Z * (string * value))) : list (Z * (string * value)) :=
  match sorted with
  | [] => [(n, entry)]
  | (m, e) :: rest =>
      if n <=? m then (n, entry) :: sorted else (m, e) :: insert_entry n entry rest
  end.

(** The fields named by an array index, by ascending index. *)
Fixpoint indexed_entries (fields : list (string * value)) : list (Z * (string * value)) :=
  match fields with
  | [] => []
  | (key, v) :: rest =>
      match array_index key with
      | Some n => insert_entry n (key, v) (indexed_entries rest)
      | None => indexed_entries rest
      end
  end.

(** The other fields, as they come. *)
Fixpoint named_entries (fields : list (string * value)) : list (string * value) :=
  match fields with
  | [] => []
  | (key, v) :: rest =>
      match array_index key with
      | Some _ => named_entries rest
      | None => (key, v) :: named_entries rest
      end
  end.

Definition own_entries (fields : list (string * value)) : list (string * value) :=
  (map snd (indexed_entries fields) ++ named_entries fields)%list.

(** [Object.entries] of a string: its indices with its code units. *)
Fixpoint string_entries (i : nat) (units : list string) : list (string * value) :=
  match units with
  | [] => []
  | unit :: rest =>
      (JsNumber.Z_to_string (Z.of_nat i), VString unit) :: string_entries (S i) rest
  end.

(** The schema with the fields of every object in it, at every depth,
    listed as [Object.entries] lists them. *)
Fixpoint in_entries_order (schema : value) : value :=
  match schema with
  | VObject fields =>
      VObject
        (own_entries
           ((fix each (entries : list (string * value)) : list (string * value) :=
               match entries with
               | [] => []
               | (key, expectedType) :: rest =>
                   (key, in_entries_order expectedType) :: each rest
               end) fields))
  | VArray items =>
      VArray
        ((fix each (items : list value) : list value :=
            match items with
            | [] => []
            | expectedType :: rest => in_entries_order expectedType :: each rest
            end) items)
  | _ => schema
  end.

(** An entry with what it declares put in the order of [Object.entries]. *)
Local Abbreviation listed_entry :=
  (fun entry : string * value => (fst entry, in_entries_order (snd entry))).

(** ** The schema validation tests: [validateSchema] *)

(** [expectedType === 'array'] *)
Definition is_array_keyword (expectedType : value) : bool :=
  match expectedType with
  | VString s => String.eqb s "array"
  | _ => false
  end.

Section ValidateSchema.

Context {builtin : Type} (E : engine builtin).

(** The body of the loop for one entry [[key, expectedType]];
    [nested d] is the recursive call [validateSchema(d, expectedType)]. *)
Definition check_entry (data : jsval builtin) (key : string) (expectedType : value)
    (nested : jsval builtin -> result unit) : result unit :=
  if String.eqb (typeof expectedType) "object" && negb (isArray expectedType) then
    expect_toHaveProperty E data key >>
    let! v := read E data key in
    expect_string_toBe (typeof_js E v) (VString "object") >>
    nested v
  else if is_array_keyword expectedType then
    let! v := read E data key in
    expect_bool_toBe (isArray_js E v) true
  else
    expect_toHaveProperty E data key >>
    let! v := read E data key in
    expect_string_toBe (typeof_js E v) expectedType.

(** [validateSchema] on a schema whose objects list their fields as
    [Object.entries] does: the loop takes the entries as they come. *)
Fixpoint validateSchema_listed (data : jsval builtin) (schema : value) {struct schema}
  : result unit :=
  match schema with
  | VUndefined | VNull => Throw TypeError
  | VBool _ | VNumber _ => Ok tt
  | VString s =>
      (fix loop (entries : list (string * value)) : result unit :=
         match entries with
         | [] => Ok tt
         | (key, expectedType) :: rest =>
             check_entry data key expectedType (fun _ => Ok tt) >> loop rest
         end) (string_entries 0 (code_units s))
  | VArray items =>
      (fix loop (i : nat) (items : list value) : result unit :=
         match items with
         | [] => Ok tt
         | expectedType :: rest =>
             check_entry data (JsNumber.Z_to_string (Z.of_nat i)) expectedType
               (fun d => validateSchema_listed d expectedType) >>
             loop (S i) rest
         end) O items
  | VObject fields =>
      (fix loop (entries : list (string * value)) : result unit :=
         match entries with
         | [] => Ok tt
         | (key, expectedType) :: rest =>
             check_entry data key expectedType
               (fun d => validateSchema_listed d expectedType) >>
             loop rest
         end) fields
  end.

Definition validateSchema (data : jsval builtin) (schema : value) : result unit :=
  validateSchema_listed data (in_entries_order schema).

(** The condition the specification gives for success, field by field.
    A field is present when it is in the data or reading it gives
    something; a field declared with a type name is present with that
    [typeof]; a field declared ["array"] holds an array; a field declared
    with a nested schema is present and holds a value whose [typeof] is
    ["object"] and which satisfies the nested schema. *)
Definition present (data : jsval builtin) (key : string) : bool :=
  match read E data key with
  | Ok x =>
      negb (is_undefined x) || (negb (isPrimitive data) && has_property E data key)
  | Throw _ => false
  end.

Definition field_satisfies (data : jsval builtin) (key : string) (declared : value)
    (nested : jsval builtin -> bool) : bool :=
  match read E data key with
  | Ok x =>
      match declared with
      | VString t =>
          if String.eqb t "array" then isArray_js E x
          else present data key && String.eqb (typeof_js E x) t
      | VObject _ =>
          present data key && String.eqb (typeof_js E x) "object" && nested x
      | _ => false
      end
  | Throw _ => false
  end.

Fixpoint satisfies (data : jsval builtin) (schema : value) {struct schema} : bool :=
  match schema with
  | VObject fields =>
      (fix all (entries : list (string * value)) : bool :=
         match entries with
         | [] => true
         | (key, declared) :: rest =>
             field_satisfies data key declared (fun v => satisfies v declared)
             && all rest
         end) fields
  | _ => false
  end.

(** [data] is neither [null] nor [undefined], reading a declared field
    of it does not throw, and the same holds of the value of every field
    declared with a nested schema whose [typeof] is ["object"]: none of
    them is [null], at any depth. *)
Fixpoint null_free (data : jsval builtin) (schema : value) {struct schema} : bool :=
  negb (nullish_js data) &&
  match schema with
  | VObject fields =>
      (fix all (entries : list (string * value)) : bool :=
         match entries with
         | [] => true
         | (key, declared) :: rest =>
             match read E data key with
             | Ok x =>
                 match declared with
                 | VObject _ =>
                     if String.eqb (typeof_js E x) "object"
                     then null_free x declared else true
                 | _ => true
                 end
             | Throw _ => false
             end && all rest
         end) fields
  | _ => true
  end.

End ValidateSchema.

(** A schema as the specification takes it: an object whose fields are
    strings or, recursively, such objects. *)
Fixpoint well_formed (schema : value) : bool :=
  match schema with
  | VObject fields =>
      (fix all (entries : list (string * value)) : bool :=
         match entries with
         | [] => true
         | (_, declared) :: rest =>
             match declared with
             | VString _ => true
             | VObject _ => well_formed declared
             | _ => false
             end && all rest
         end) fields
  | _ => false
  end.

(** A field name that the matcher reads as one name: it has no dot and
    no bracket. *)
Definition plain_key (key : string) : bool :=
  forallb (fun c => negb (is_path_mark c)) (list_ascii_of_string key).

(** Every field name of the schema, at every depth, is such a name. *)
Fixpoint plain_keys (schema : value) : bool :=
  match schema with
  | VObject fields =>
      (fix all (entries : list (string * value)) : bool :=
         match entries with
         | [] => true
         | (key, declared) :: rest => plain_key key && plain_keys declared && all rest
         end) fields
  | _ => true
  end.

(** A call that returns or fails with an assertion failure. *)
Definition assertion_or_ok (r : result unit) : Prop :=
  r = Ok tt \/ r = Throw AssertionError.

(** The schema of a user in the schema tests, and a user it accepts. *)
Definition userSchema : value :=
  VObject
    [("id", VString "number");
     ("name", VString "string");
     ("username", VString "string");
     ("email", VString "string");
     ("phone", VString "string");
     ("website", VString "string");
     ("address",
      VObject
        [("street", VString "string");
         ("suite", VString "string");
         ("city", VString "string");
         ("zipcode", VString "string");
         ("geo", VObject [("lat", VString "string"); ("lng", VString "string")])]);
     ("company",
      VObject
        [("name", VString "string");
         ("catchPhrase", VString "string");
         ("bs", VString "string")])].

Definition sample_user : value :=
  VObject
    [("id", VNumber 1%float);
     ("name", VString "Leanne Graham");
     ("username", VString "Bret");
     ("email", VString "Sincere@april.biz");
     ("address",
      VObject
        [("street", VString "Kulas Light");
         ("suite", VString "Apt. 556");
         ("city", VString "Gwenborough");
         ("zipcode", VString "92998-3874");
         ("geo", VObject [("lat", VString "-37.3159"); ("lng", VString "81.1496")])]);
     ("phone", VString "1-770-736-8031 x56442");
     ("website", VString "hildegard.org");
     ("company",
      VObject
        [("name", VString "Romaguera-Crona");
         ("catchPhrase", VString "Multi-layered client-server neural-net");
         ("bs", VString "harness real-time e-markets")])].

(** The same user without its [email]. *)
Definition sample_user_no_email : value :=
  match sample_user with
  | VObject fields =>
      VObject (List.filter (fun entry => negb (String.eqb (fst entry) "email")) fields)
  | v => v
  end.

(** ** api/endpoints.js: the endpoint registry *)

Module API.

Module jsonplaceholder.
Definition baseURL : string := "https://jsonplaceholder.typicode.com".
Definition posts : string := "/posts".
Definition post (id : value) : string := "/posts/" ++ ToString id.
Definition users : string := "/users".
Definition user (id : value) : string := "/users/" ++ ToString id.
Definition comments : string := "/comments".
Definition postComments (postId : value) : string :=
  "/posts/" ++ ToString postId ++ "/comments".
End jsonplaceholder.

Module reqres.
Definition baseURL : string := "https://reqres.in/api".
Definition users : string := "/users".
Definition user (id : value) : string := "/users/" ++ ToString id.
Definition register : string := "/register".
Definition login : string := "/login".
End reqres.

Module petstore.
Definition baseURL : string := "https://petstore.swagger.io/v2".
Definition pet : string := "/pet".
Definition petById (id : value) : string := "/pet/" ++ ToString id.
Definition petByStatus : string := "/pet/findByStatus".
Definition store : string := "/store/inventory".
Definition order : string := "/store/order".
Definition orderById (id : value) : string := "/store/order/" ++ ToString id.
Definition user : string := "/user".
Definition userByUsername (username : value) : string :=
  "/user/" ++ ToString username.
Definition userLogin : string := "/user/login".
End petstore.

End API.

(** How often [needle] occurs in [hay]: the number of positions of [hay]
    at which [needle] starts. *)
Fixpoint occurrences (needle hay : string) : nat :=
  ((if String.prefix needle hay then 1 else 0) +
   match hay with
   | EmptyString => 0
   | String _ rest => occurrences needle rest
   end)%nat.

Definition occurs_in (c : ascii) (s : string) : bool :=
  existsb (Ascii.eqb c) (list_ascii_of_string s).

(** How often [c] is in [s]. *)
Definition count_char (c : ascii) (s : string) : nat :=
  count_occ ascii_dec (list_ascii_of_string s) c.

(** The path templates of the registry that take an identifier: the
    literal text before and after the placeholder, and the function of
    the registry. *)
Module PathTemplate.

Record template : Type := {
  before : string;
  after : string;
  path : value -> string;
}.

Definition templates : list template :=
  [{| before := "/posts/"; after := ""; path := API.jsonplaceholder.post |};
   {| before := "/users/"; after := ""; path := API.jsonplaceholder.user |};
   {| before := "/posts/"; after := "/comments";
      path := API.jsonplaceholder.postComments |};
   {| before := "/users/"; after := ""; path := API.reqres.user |};
   {| before := "/pet/"; after := ""; path := API.petstore.petById |};
   {| before := "/store/order/"; after := ""; path := API.petstore.orderById |};
   {| before := "/user/"; after := ""; path := API.petstore.userByUsername |}].

(** The literal text of a template. *)
Definition literal (t : template) : string := before t ++ after t.

(** [s] starts with a character that is not in [text]. *)
Definition starts_outside (s text : string) : bool :=
  match s with
  | String c _ => negb (occurs_in c text)
  | EmptyString => false
  end.

End PathTemplate.

(** [s] stands in [path] at [position]. *)
Definition located_at (s : string) (position : nat) (path : string) : Prop :=
  String.substring position (String.length s) path = s.

(** ** Effects: console output, network calls, the clock, exceptions

    The scripts talk to the outside through [console], [fetch] (Node),
    [http.get] (the k6 runtime) and [Date.now]. A computation reads the
    outside world, appends the calls it makes to a trace, and returns or
    throws. *)

Module Effect.

(** The response fields the notifier reads. *)
Record response : Type := {
  ok : bool;
  status : float;
  statusText : string;
}.

(** An awaited [fetch]: a response, or a rejection whose reason is an
    error object, of which the code reads the [message]. *)
Inductive fetch_outcome : Type :=
| Resolves (r : response)
| Rejects (message : string).

Record world : Type := {
  fetch_reply : string -> value -> fetch_outcome;
  http_get_status : string -> float;
  now : float;
}.

Inductive event : Type :=
| ConsoleLog (args : list value)
| ConsoleError (args : list value)
| Fetch (url : string) (init : value)
| HttpGet (url : string).

Definition io (A : Type) : Type := world -> result A * list event.

Definition ret {A : Type} (a : A) : io A := fun _ => (Ok a, []).

Definition throw {A : Type} (e : exn) : io A := fun _ => (Throw e, []).

Definition seq {A B : Type} (m : io A) (k : A -> io B) : io B :=
  fun w =>
    match m w with
    | (Ok a, t1) => let (r, t2) := k a w in (r, (t1 ++ t2)%list)
    | (Throw e, t1) => (Throw e, t1)
    end.

(** [try { body } catch (error) { handler }] *)
Definition try_catch {A : Type} (body : io A) (handler : exn -> io A) : io A :=
  fun w =>
    match body w with
    | (Ok a, t1) => (Ok a, t1)
    | (Throw e, t1) => let (r, t2) := handler e w in (r, (t1 ++ t2)%list)
    end.

Definition console_log (args : list value) : io unit :=
  fun _ => (Ok tt, [ConsoleLog args]).

Definition console_error (args : list value) : io unit :=
  fun _ => (Ok tt, [ConsoleError args]).

(** [await fetch(url, init)] *)
Definition fetch (url : string) (init : value) : io response :=
  fun w =>
    match fetch_reply w url init with
    | Resolves r => (Ok r, [Fetch url init])
    | Rejects message => (Throw (Error message), [Fetch url init])
    end.

(** [http.get(url).status] of k6; the call itself does not throw. *)
Definition http_get (url : string) : io float :=
  fun w => (Ok (http_get_status w url), [HttpGet url]).

(** [Date.now()] *)
Definition date_now : io float := fun w => (Ok (now w), []).

(** [error.message] *)
Definition message_of (e : exn) : string :=
  match e with
  | Error message => message
  | _ => ""
  end.

Definition is_network_call (e : event) : bool :=
  match e with
  | Fetch _ _ | HttpGet _ => true
  | _ => false
  end.

Definition network_calls (t : list event) : list event :=
  List.filter is_network_call t.

(** Something was written with [console.error]. *)
Definition logs_error (t : list event) : Prop :=
  exists args, In (ConsoleError args) t.

End Effect.

Notation "'do!' x ':=' m 'in' k" := (Effect.seq m (fun x => k))
  (at level 10, x name, m at level 100, k at level 200).
Notation "m '>>>' k" := (Effect.seq m (fun _ => k))
  (at level 95, right associativity).

(** ** [JSON.stringify] on a tree of values *)

Definition hex_digit (n : nat) : ascii :=
  nth n (list_ascii_of_string "0123456789abcdef") "0"%char.

Definition dquote : ascii := ascii_of_nat 34.
Definition backslash : ascii := ascii_of_nat 92.

(** The quoted form of one character of a string. *)
Definition quote_char (c : ascii) : string :=
  let n := nat_of_ascii c in
  let escaped (s : string) := String backslash s in
  if (n =? 34)%nat then escaped (String dquote "")
  else if (n =? 92)%nat then escaped (String backslash "")
  else if (n =? 8)%nat then escaped "b"
  else if (n =? 9)%nat then escaped "t"
  else if (n =? 10)%nat then escaped "n"
  else if (n =? 12)%nat then escaped "f"
  else if (n =? 13)%nat then escaped "r"
  else if (n <? 32)%nat then
    escaped ("u00" ++ String (hex_digit (n / 16)) (String (hex_digit (n mod 16)) ""))
  else String c "".

Definition quote (s : string) : string :=
  String dquote
    (String.concat "" (map quote_char (list_ascii_of_string s)) ++ String dquote "").

Definition is_finite (x : float) : bool :=
  match Prim2SF x with
  | S754_zero _ | S754_finite _ _ _ => true
  | _ => false
  end.

(** [None] stands for the [undefined] that [JSON.stringify(undefined)]
    returns; an [undefined] field is left out, an [undefined] item
    prints as [null]. *)
Fixpoint JSON_stringify (v : value) : option string :=
  match v with
  | VUndefined => None
  | VNull => Some "null"
  | VBool b => Some (if b then "true" else "false")
  | VNumber x => Some (if is_finite x then JsNumber.toString x else "null")
  | VString s => Some (quote s)
  | VArray items =>
      Some ("[" ++ join "," (map (fun x => match JSON_stringify x with
                                           | Some j => j
                                           | None => "null"
                                           end) items) ++ "]")
  | VObject fields =>
      Some ("{" ++ join ","
              ((fix members (entries : list (string * value)) : list string :=
                  match entries with
                  | [] => []
                  | (k, x) :: rest =>
                      match JSON_stringify x with
                      | Some j => (quote k ++ ":" ++ j) :: members rest
                      | None => members rest
                      end
                  end) fields) ++ "}")
  end.

(** ** utils/slack-notify.js *)

Module SlackNotify.
Import Effect.

(** The test-run summary: four numbers. *)
Record results : Type := {
  passed : float;
  failed : float;
  skipped : float;
  duration : float;
}.

Definition nl : string := String (ascii_of_nat 10) "".

(** [ToBoolean] of a string or [undefined]. *)
Definition truthy (o : option string) : bool :=
  match o with
  | Some s => negb (String.eqb s "")
  | None => false
  end.

(** [a || b] *)
Definition or_else (a b : option string) : option string :=
  if truthy a then a else b.

(** A string or [undefined] inside a template literal. *)
Definition text (o : option string) : string :=
  match o with
  | Some s => s
  | None => "undefined"
  end.

Definition status_of (r : results) : string :=
  if (0 <? failed r)%float then "failure" else "success".

Definition emoji_of (r : results) : string :=
  if (0 <? failed r)%float then ":x:" else ":white_check_mark:".

Definition color_of (r : results) : string :=
  if (0 <? failed r)%float then "#dc3545" else "#28a745".

Definition total_of (r : results) : float :=
  (passed r + failed r + skipped r)%float.

(** [total > 0 ? ((passed / total) * 100).toFixed(1) : 0] inside the
    template literal, together with the divisions evaluated on the way,
    each as (dividend, divisor). *)
Definition pass_rate (r : results) : string * list (float * float) :=
  let total := total_of r in
  if (0 <? total)%float
  then (JsNumber.toFixed (passed r / total * 100)%float 1, [(passed r, total)])
  else (JsNumber.toString 0%float, []).

(** [options.runUrl || process.env.GITHUB_SERVER_URL ? `...` : null]:
    [||] binds tighter than [?:], so the disjunction is the condition and
    the URL is the template over the environment. *)
Definition run_url (env options : gmap string string) : option string :=
  if truthy (or_else (options !! "runUrl") (env !! "GITHUB_SERVER_URL"))
  then Some (text (env !! "GITHUB_SERVER_URL") ++ "/"
             ++ text (env !! "GITHUB_REPOSITORY") ++ "/actions/runs/"
             ++ text (env !! "GITHUB_RUN_ID"))
  else None.

Definition mrkdwn (s : string) : value :=
  VObject [("type", VString "mrkdwn"); ("text", VString s)].

Definition actions_block (runUrl : string) : value :=
  VObject
    [("type", VString "actions");
     ("elements",
      VArray
        [VObject
           [("type", VString "button");
            ("text",
             VObject [("type", VString "plain_text");
                      ("text", VString "查看詳細報告");
                      ("emoji", VBool true)]);
            ("url", VString runUrl);
            ("style", VString "primary")]])].

(** [createSlackMessage(results, options = {})], with the divisions it
    evaluates. *)
Definition createSlackMessage_traced (env : gmap string string)
    (r : results) (options : gmap string string)
  : value * list (float * float) :=
  let total := total_of r in
  let status := status_of r in
  let emoji := emoji_of r in
  let color := color_of r in
  let projectName := text (or_else (options !! "projectName") (Some "API Testing Demo")) in
  let branch :=
    text (or_else (or_else (options !! "branch") (env !! "GITHUB_REF_NAME")) (Some "main")) in
  let runUrl := run_url env options in
  let (rate, divisions) := pass_rate r in
  let blocks :=
    [VObject
       [("type", VString "header");
        ("text",
         VObject [("type", VString "plain_text");
                  ("text", VString (emoji ++ " " ++ projectName ++ " - 測試結果"));
                  ("emoji", VBool true)])];
     VObject
       [("type", VString "section");
        ("fields",
         VArray
           [mrkdwn ("*狀態:*" ++ nl ++
                    (if String.eqb status "success" then "通過 :tada:" else "失敗 :warning:"));
            mrkdwn ("*分支:*" ++ nl ++ "`" ++ branch ++ "`");
            mrkdwn ("*通過:*" ++ nl ++ JsNumber.toString (passed r) ++ " 個測試");
            mrkdwn ("*失敗:*" ++ nl ++ JsNumber.toString (failed r) ++ " 個測試");
            mrkdwn ("*跳過:*" ++ nl ++ JsNumber.toString (skipped r) ++ " 個測試");
            mrkdwn ("*執行時間:*" ++ nl ++ JsNumber.toFixed (duration r) 1 ++ " 秒")])];
     VObject
       [("type", VString "context");
        ("elements",
         VArray
           [mrkdwn ("總測試數: " ++ JsNumber.toString total ++ " | 通過率: " ++ rate ++ "%")])]]
  in
  let blocks' :=
    if truthy runUrl then (blocks ++ [actions_block (text runUrl)])%list else blocks in
  (VObject
     [("attachments",
       VArray [VObject [("color", VString color); ("blocks", VArray blocks')]])],
   divisions).

Definition createSlackMessage (env : gmap string string)
    (r : results) (options : gmap string string) : value :=
  fst (createSlackMessage_traced env r options).

(** Reading the payload: [v.a.b...] along own properties. *)
Fixpoint at_path (v : value) (path : list string) : option value :=
  match path with
  | [] => Some v
  | key :: rest =>
      match own_field v key with
      | Some v' => at_path v' rest
      | None => None
      end
  end.

Definition blocks_of (message : value) : list value :=
  match at_path message ["attachments"; "0"; "blocks"] with
  | Some (VArray blocks) => blocks
  | _ => []
  end.

Definition color_field (message : value) : option value :=
  at_path message ["attachments"; "0"; "color"].

Definition header_text (message : value) : option value :=
  at_path message ["attachments"; "0"; "blocks"; "0"; "text"; "text"].

Definition status_field (message : value) : option value :=
  at_path message ["attachments"; "0"; "blocks"; "1"; "fields"; "0"; "text"].

Definition context_line (message : value) : option value :=
  at_path message ["attachments"; "0"; "blocks"; "2"; "elements"; "0"; "text"].

Definition is_actions_block (block : value) : bool :=
  match own_field block "type" with
  | Some (VString t) => String.eqb t "actions"
  | _ => false
  end.

Definition button_urls (message : value) : list value :=
  flat_map (fun block =>
              match at_path block ["elements"; "0"; "url"] with
              | Some u => if is_actions_block block then [u] else []
              | None => []
              end) (blocks_of message).

(** [needle] occurs somewhere in [hay]. *)
Definition contains (needle hay : string) : bool :=
  (0 <? occurrences needle hay)%nat.

(** The second argument of [fetch]: a POST with the message as JSON. *)
Definition post_request (message : value) : value :=
  VObject
    [("method", VString "POST");
     ("headers", VObject [("Content-Type", VString "application/json")]);
     ("body", match JSON_stringify message with
              | Some body => VString body
              | None => VUndefined
              end)].

(** [sendSlackNotification(message)], with the module constant
    [SLACK_WEBHOOK_URL] read from the environment. *)
Definition sendSlackNotification (env : gmap string string) (message : value)
  : io bool :=
  let SLACK_WEBHOOK_URL := env !! "SLACK_WEBHOOK_URL" in
  if negb (truthy SLACK_WEBHOOK_URL) then
    console_error [VString "錯誤: SLACK_WEBHOOK_URL 環境變數未設定"] >>>
    console_log [VString ("請設定: export SLACK_WEBHOOK_URL="
                          ++ String dquote ("your-webhook-url" ++ String dquote ""))] >>>
    ret false
  else
    try_catch
      (do! response := fetch (text SLACK_WEBHOOK_URL) (post_request message) in
       if ok response then
         console_log [VString "Slack 通知發送成功!"] >>> ret true
       else
         console_error [VString "Slack 通知發送失敗:";
                        VNumber (status response);
                        VString (statusText response)] >>>
         ret false)
      (fun error =>
         console_error [VString "發送 Slack 通知時發生錯誤:";
                        VString (message_of error)] >>>
         ret false).

(** The parsed JSON test report [{stats: {expected, unexpected, skipped,
    duration}}]: each field a number or missing, [stats] itself present
    or missing. *)
Module Report.

Record stats_record : Type := {
  expected : option float;
  unexpected : option float;
  skipped : option float;
  duration : option float;
}.

Record report : Type := { stats : option stats_record }.

End Report.

(** [data.stats?.field] *)
Definition stats_field (data : Report.report)
    (field : Report.stats_record -> option float) : option float :=
  match Report.stats data with
  | Some s => field s
  | None => None
  end.

(** [x || 0] on a number or [undefined] *)
Definition or_zero (x : option float) : float :=
  match x with
  | Some n => if JsNumber.truthy n then n else 0%float
  | None => 0%float
  end.

(** [main], the branch that reads a report file: the summary built from
    the parsed report [data]; [None] is the [null] that
    [parseTestResults] returns for an unreadable file, which leaves
    [results] undefined. *)
Definition results_from_report (data : option Report.report) : option results :=
  match data with
  | Some data =>
      Some {| passed := or_zero (stats_field data Report.expected);
              failed := or_zero (stats_field data Report.unexpected);
              skipped := or_zero (stats_field data Report.skipped);
              duration := (or_zero (stats_field data Report.duration) / 1000)%float |}
  | None => None
  end.

(** "Missing fields are 0", as the specification puts it. *)
Definition field_or_zero (x : option float) : float :=
  match x with
  | Some n => n
  | None => 0%float
  end.

(** The same number: the same value, or equal as [===] has it (which
    does not tell [+0] from [-0]). *)
Definition same_number (a b : float) : Prop :=
  a = b \/ PrimFloat.eqb a b = true.

(** No field of the report is [NaN], which JSON cannot write. *)
Definition no_nan (x : option float) : Prop :=
  forall n, x = Some n -> PrimFloat.eqb n n = true.

(** The summary of the specification's example. *)
Definition example_results : results :=
  {| passed := 5; failed := 1; skipped := 0; duration := 12.3 |}.

Definition example_report : Report.report :=
  {| Report.stats :=
       Some {| Report.expected := Some 239%float;
               Report.unexpected := None;
               Report.skipped := Some 0%float;
               Report.duration := Some 24400%float |} |}.

(** A world in which the webhook answers with the given response. *)
Definition answering (r : response) : world :=
  {| fetch_reply := fun _ _ => Resolves r;
     http_get_status := fun _ => 200%float;
     now := 0%float |}.

End SlackNotify.

(** ** k6/load-test.js, k6/spike-test.js, k6/stress-test.js: [setup] *)

Module K6.
Import Effect.

Definition BASE_URL : string := "https://jsonplaceholder.typicode.com".

Definition log (line : string) : io unit := console_log [VString line].

Definition start_time : io value :=
  do! t := date_now in ret (VObject [("startTime", VNumber t)]).

Module load_test.
Definition endpoints_posts : string := BASE_URL ++ "/posts".

Definition setup : io value :=
  log "=== Load Test 開始 ===" >>>
  log ("目標 API: " ++ BASE_URL) >>>
  do! status := http_get endpoints_posts in
  if negb (PrimFloat.eqb status 200)
  then throw (Error ("API 不可用: " ++ JsNumber.toString status))
  else start_time.
End load_test.

Module spike_test.
Definition setup : io value :=
  log "=== Spike Test 開始 ===" >>>
  log "" >>>
  log "測試階段:" >>>
  log "  [0:00-0:30]  正常流量: 10 VUs" >>>
  log "  [0:30-0:40]  第一波突波: 10 → 200 VUs" >>>
  log "  [0:40-1:10]  維持突波: 200 VUs" >>>
  log "  [1:10-1:20]  回落: 200 → 10 VUs" >>>
  log "  [1:20-1:50]  恢復觀察: 10 VUs" >>>
  log "  [1:50-2:00]  第二波突波: 10 → 500 VUs" >>>
  log "  [2:00-2:30]  維持突波: 500 VUs" >>>
  log "  [2:30-2:40]  回落: 500 → 10 VUs" >>>
  log "  [2:40-3:40]  最終恢復: 10 VUs" >>>
  log "" >>>
  do! status := http_get (BASE_URL ++ "/posts") in
  if negb (PrimFloat.eqb status 200)
  then throw (Error "API 不可用")
  else start_time.
End spike_test.

Module stress_test.
Definition setup : io value :=
  log "=== Stress Test 開始 ===" >>>
  log "階段說明:" >>>
  log "  1. 暖機: 0 → 50 VUs" >>>
  log "  2. 正常: 維持 50 VUs" >>>
  log "  3. 施壓: 50 → 100 → 200 → 300 VUs" >>>
  log "  4. 恢復: 300 → 0 VUs" >>>
  log "" >>>
  start_time.
End stress_test.

(** The load profile scripts of the repository. *)
Inductive script : Type := LoadTest | SpikeTest | StressTest.

Definition setup_of (s : script) : io value :=
  match s with
  | LoadTest => load_test.setup
  | SpikeTest => spike_test.setup
  | StressTest => stress_test.setup
  end.

Definition throws {A : Type} (r : result A) : bool :=
  match r with
  | Throw _ => true
  | Ok _ => false
  end.

(** A world whose target answers every request with [status]; k6
    reports status 0 when it cannot reach the target. *)
Definition target_answering (status : float) : world :=
  {| fetch_reply := fun _ _ => Rejects "fetch failed";
     http_get_status := fun _ => status;
     now := 1700000000000%float |}.

End K6.

(** ** Sample inputs for the properties of the validator *)

(** [sample_user] with a field no schema declares. *)
Definition sample_user_with_extra : value :=
  match sample_user with
  | VObject fields => VObject (fields ++ [("nickname", VString "Lea")])%list
  | v => v
  end.

(** A declaration that is neither a type name nor a nested schema. *)
Definition is_type_or_schema (declared : value) : bool :=
  match declared with
  | VString _ | VObject _ => true
  | _ => false
  end.

(** ** More readers of the Slack payload *)

Definition branch_field (message : value) : option value :=
  SlackNotify.at_path message ["attachments"; "0"; "blocks"; "1"; "fields"; "1"; "text"].

(** The [type] of every block of the message, in order. *)
Definition block_types (message : value) : list (option value) :=
  map (fun block => own_field block "type") (SlackNotify.blocks_of message).

(** The first truthy one of [a || b || c]. *)
Definition first_truthy (a b : option string) (c : string) : string :=
  if SlackNotify.truthy a then SlackNotify.text a
  else if SlackNotify.truthy b then SlackNotify.text b
  else c.

(** ** The timeout and retry tests: [requestWithRetry] *)

Module Retry.

(** What one awaited [request.get] comes to: a response, of which the
    helper reads the status, or a rejection with an error message. *)
Inductive get_outcome : Type :=
| Responds (status : float)
| Rejects (message : string).

Inductive event : Type :=
| Get (url : string) (options : value)
| Log (line : string)
| Wait (milliseconds : float).

(** The result: [{ response, attempts }] returned, or [lastError] thrown,
    which is [undefined] ([None]) when no attempt was made. *)
Inductive outcome : Type :=
| Returns (status : float) (attempts : nat)
| Throws (lastError : option exn).

(** [Math.pow(2, k)] for a count [k]. *)
Fixpoint pow2 (k : nat) : float :=
  match k with
  | O => 1%float
  | S k' => (2 * pow2 k')%float
  end.

(** The error an attempt ends in, if it does: the rejection of the
    request, or the [Error] the helper throws on a status from 500. *)
Definition attempt_error (o : get_outcome) : option exn :=
  match o with
  | Responds status =>
      if PrimFloat.leb 500 status
      then Some (Error ("Server error: " ++ JsNumber.toString status))
      else None
  | Rejects message => Some (Error message)
  end.

Definition count_text (n : nat) : string := JsNumber.Z_to_string (Z.of_nat n).

Section Loop.

(** [reply k] is the outcome of the [k]-th call of [request.get]. *)
Context (reply : nat -> get_outcome) (url : string) (options : value)
        (maxRetries : nat) (delay : float).

(** The [catch] block of attempt [attempt]. *)
Definition caught (attempt : nat) (error : exn) : list event :=
  Log ("嘗試 " ++ count_text attempt ++ " 失敗: " ++ Effect.message_of error)
  :: (if (attempt <? maxRetries)%nat then
        let waitTime := (delay * pow2 (attempt - 1))%float in
        [Log ("等待 " ++ JsNumber.toString waitTime ++ "ms 後重試...");
         Wait waitTime]
      else []).

(** The [for] loop from [attempt] on, with [remaining] iterations to go
    ([remaining = maxRetries - attempt + 1]). *)
Fixpoint loop (remaining attempt : nat) (lastError : option exn)
  : outcome * list event :=
  match remaining with
  | O => (Throws lastError, [])
  | S remaining' =>
      match reply attempt with
      | Responds status =>
          match attempt_error (Responds status) with
          | None => (Returns status attempt, [Get url options])
          | Some error =>
              let (o, t) := loop remaining' (S attempt) (Some error) in
              (o, (Get url options :: caught attempt error ++ t)%list)
          end
      | Rejects message =>
          let error := Error message in
          let (o, t) := loop remaining' (S attempt) (Some error) in
          (o, (Get url options :: caught attempt error ++ t)%list)
      end
  end.

Definition requestWithRetry : outcome * list event := loop maxRetries 1 None.

End Loop.

(** The defaults of the parameters: [options = {}], [maxRetries = 3],
    [delay = 1000]. *)
Definition requestWithRetry_default (reply : nat -> get_outcome) (url : string)
  : outcome * list event :=
  requestWithRetry reply url (VObject []) 3 1000.

Definition gets (t : list event) : nat :=
  List.length (List.filter (fun e => match e with Get _ _ => true | _ => false end) t).

Definition waits (t : list event) : list float :=
  flat_map (fun e => match e with Wait ms => [ms] | _ => [] end) t.

(** The waits of an exponential backoff after the attempts [from],
    [from + 1], ... ([count] of them). *)
Fixpoint backoff (delay : float) (from count : nat) : list float :=
  match count with
  | O => []
  | S count' => (delay * pow2 (from - 1))%float :: backoff delay (S from) count'
  end.

(** A server that fails [failures] times with status 503 and then
    answers 200. *)
Definition flaky (failures : nat) (k : nat) : get_outcome :=
  if (k <=? failures)%nat then Responds 503 else Responds 200.

End Retry.

(** ** [parseInt], [parseFloat] and [ToNumber] *)

Module JsParse.

Definition is_digit (c : ascii) : bool :=
  let n := nat_of_ascii c in (48 <=? n)%nat && (n <=? 57)%nat.

Definition digit_value (c : ascii) : Z := Z.of_nat (nat_of_ascii c) - 48.

(** The longest prefix of decimal digits, and what follows it. *)
Fixpoint span_digits (s : string) : string * string :=
  match s with
  | String c rest =>
      if is_digit c
      then let (ds, after) := span_digits rest in (String c ds, after)
      else (EmptyString, s)
  | EmptyString => (EmptyString, EmptyString)
  end.

(** The number a string of decimal digits writes. *)
Fixpoint digits_value_from (acc : Z) (ds : string) : Z :=
  match ds with
  | String c rest => digits_value_from (10 * acc + digit_value c) rest
  | EmptyString => acc
  end.

Definition digits_value (ds : string) : Z := digits_value_from 0 ds.

(** The white space and line terminators of the language that take three
    bytes in UTF-8: U+1680, U+2000 to U+200A, U+2028, U+2029, U+202F,
    U+205F, U+3000, U+FEFF. *)
Definition three_byte_space (a b c : nat) : bool :=
  ((a =? 225) && (b =? 154) && (c =? 128))%nat
  || ((a =? 226) && (b =? 128)
      && (((128 <=? c) && (c <=? 138)) || (c =? 168) || (c =? 169) || (c =? 175)))%nat
  || ((a =? 226) && (b =? 129) && (c =? 159))%nat
  || ((a =? 227) && (b =? 128) && (c =? 128))%nat
  || ((a =? 239) && (b =? 187) && (c =? 191))%nat.

Definition one_byte_space (a : nat) : bool :=
  ((a =? 9) || (a =? 10) || (a =? 11) || (a =? 12) || (a =? 13) || (a =? 32))%nat.

(** [TrimString(s, start)] on the UTF-8 text. *)
Fixpoint trim_start (s : string) : string :=
  match s with
  | String a s1 =>
      if one_byte_space (nat_of_ascii a) then trim_start s1
      else
        match s1 with
        | String b s2 =>
            if ((nat_of_ascii a =? 194) && (nat_of_ascii b =? 160))%nat
            then trim_start s2
            else
              match s2 with
              | String c s3 =>
                  if three_byte_space (nat_of_ascii a) (nat_of_ascii b) (nat_of_ascii c)
                  then trim_start s3
                  else s
              | EmptyString => s
              end
        | EmptyString => s
        end
  | EmptyString => s
  end.

(** An optional sign: whether it is a minus, and what follows. *)
Definition split_sign (s : string) : bool * string :=
  match s with
  | String c rest =>
      if (nat_of_ascii c =? 45)%nat then (true, rest)
      else if (nat_of_ascii c =? 43)%nat then (false, rest)
      else (false, s)
  | EmptyString => (false, s)
  end.

Definition signed_zero (negative : bool) : float :=
  if negative then (-0)%float else 0%float.

Definition signed_infinity (negative : bool) : float :=
  if negative then neg_infinity else infinity.

(** The binary64 number nearest to [num / den] ([num > 0], [den > 0]),
    ties to even: the quotient is taken with more than 64 bits and one
    sticky bit for the remainder, and rounded once. *)
Definition nearest (negative : bool) (num den : Z) : float :=
  let k := Z.max 0 (66 + Z.log2 den - Z.log2 num) in
  let scaled := num * 2 ^ k in
  let q := scaled / den in
  let sticky := if scaled mod den =? 0 then 0 else 1 in
  let m := 2 * q + sticky in
  SF2Prim (binary_normalize prec emax (if negative then - m else m) (- k - 1) negative).

(** The number value of [coef * 10^exp10] ([coef >= 0]). *)
Definition decimal (negative : bool) (coef exp10 : Z) : float :=
  if coef =? 0 then signed_zero negative
  else
    let digits := Z.of_nat (String.length (JsNumber.Z_to_string coef)) in
    if 400 <? digits + exp10 then signed_infinity negative
    else if digits + exp10 <? - 400 then signed_zero negative
    else if 0 <=? exp10 then nearest negative (coef * 10 ^ exp10) 1
    else nearest negative coef (10 ^ (- exp10)).

(** [parseInt(s, 10)] *)
Definition parseInt (s : string) : float :=
  let (negative, body) := split_sign (trim_start s) in
  let (ds, _) := span_digits body in
  match ds with
  | EmptyString => nan
  | _ => decimal negative (digits_value ds) 0
  end.

(** An exponent part [e], [e+] or [e-] with at least one digit: its value
    and what follows; without digits there is no exponent part. *)
Definition exponent_part (s : string) : Z * string :=
  match s with
  | String c rest =>
      if ((nat_of_ascii c =? 101) || (nat_of_ascii c =? 69))%nat then
        let (negative, body) := split_sign rest in
        let (ds, after) := span_digits body in
        match ds with
        | EmptyString => (0, s)
        | _ => (if negative then - digits_value ds else digits_value ds, after)
        end
      else (0, s)
  | EmptyString => (0, s)
  end.

(** The longest prefix that is a [StrDecimalLiteral]: its value and what
    follows it, if there is such a prefix. *)
Definition decimal_literal (s : string) : option (float * string) :=
  let (negative, body) := split_sign s in
  if String.prefix "Infinity" body
  then Some (signed_infinity negative, String.substring 8 (String.length body - 8) body)
  else
    let (int_part, after_int) := span_digits body in
    let '(frac, after_frac, dotted) :=
      match after_int with
      | String c rest =>
          if (nat_of_ascii c =? 46)%nat
          then let (fs, after) := span_digits rest in (fs, after, true)
          else (EmptyString, after_int, false)
      | EmptyString => (EmptyString, after_int, false)
      end in
    match int_part, frac with
    | EmptyString, EmptyString => None
    | _, _ =>
        let (exp, after) := exponent_part after_frac in
        Some (decimal negative (digits_value (int_part ++ frac))
                (exp - Z.of_nat (String.length frac)),
              after)
    end.

(** [parseFloat(s)] *)
Definition parseFloat (s : string) : float :=
  match decimal_literal (trim_start s) with
  | Some (x, _) => x
  | None => nan
  end.

End JsParse.

(** ** [ToNumber] *)

Module JsToNumber.
Import JsParse.

Definition only_whitespace (s : string) : bool := String.eqb (trim_start s) "".

(** The value of a digit in a radix up to 16, if it is one. *)
Definition radix_digit (radix : Z) (c : ascii) : option Z :=
  let n := Z.of_nat (nat_of_ascii c) in
  let v := if (48 <=? n) && (n <=? 57) then n - 48
           else if (97 <=? n) && (n <=? 102) then n - 87
           else if (65 <=? n) && (n <=? 70) then n - 55
           else 16 in
  if v <? radix then Some v else None.

(** The digits of [s] in [radix] up to trailing white space: their
    value, if [s] is nothing but at least one digit and white space. *)
Fixpoint radix_value (radix : Z) (acc : Z) (seen : bool) (s : string) : option Z :=
  match s with
  | String c rest =>
      match radix_digit radix c with
      | Some v => radix_value radix (radix * acc + v) true rest
      | None => if seen && only_whitespace s then Some acc else None
      end
  | EmptyString => if seen then Some acc else None
  end.

Definition integer_number (n : option Z) : float :=
  match n with
  | Some v => decimal false v 0
  | None => nan
  end.

(** [StringToNumber]: white space around a decimal literal, or around a
    hexadecimal, octal or binary integer; the empty text is 0. *)
Definition StringToNumber (s : string) : float :=
  let t := trim_start s in
  match t with
  | EmptyString => 0%float
  | String a (String b rest) =>
      let prefixed := (nat_of_ascii a =? 48)%nat in
      let kind := nat_of_ascii b in
      if prefixed && ((kind =? 120) || (kind =? 88))%nat
      then integer_number (radix_value 16 0 false rest)
      else if prefixed && ((kind =? 111) || (kind =? 79))%nat
      then integer_number (radix_value 8 0 false rest)
      else if prefixed && ((kind =? 98) || (kind =? 66))%nat
      then integer_number (radix_value 2 0 false rest)
      else match decimal_literal t with
           | Some (x, after) => if only_whitespace after then x else nan
           | None => nan
           end
  | _ =>
      match decimal_literal t with
      | Some (x, after) => if only_whitespace after then x else nan
      | None => nan
      end
  end.

Definition ToNumber (v : value) : float :=
  match v with
  | VUndefined => nan
  | VNull => 0%float
  | VBool b => if b then 1%float else 0%float
  | VNumber x => x
  | VString s => StringToNumber s
  | VArray _ => StringToNumber (ToString v)
  | VObject _ => nan
  end.

End JsToNumber.

(** ** The teardown phase of the load scripts *)

Module K6Teardown.
Import Effect.

(** [(Date.now() - data.startTime) / 1000]; reading [startTime] of
    [null] or [undefined] throws. *)
Definition elapsed_seconds (data : value) : io float :=
  do! t := date_now in
  match get data "startTime" with
  | Ok startTime => ret ((t - JsToNumber.ToNumber startTime) / 1000)%float
  | Throw e => throw e
  end.

Module load_test.
Definition teardown (data : value) : io unit :=
  do! duration := elapsed_seconds data in
  K6.log "=== Load Test 結束 ===" >>>
  K6.log ("總執行時間: " ++ JsNumber.toFixed duration 1 ++ " 秒").
End load_test.

Module stress_test.
Definition teardown (data : value) : io unit :=
  do! duration := elapsed_seconds data in
  K6.log "" >>>
  K6.log "=== Stress Test 結束 ===" >>>
  K6.log ("總執行時間: " ++ JsNumber.toFixed (duration / 60)%float 1 ++ " 分鐘") >>>
  K6.log "" >>>
  K6.log "分析建議:" >>>
  K6.log "  - 檢查錯誤率開始上升的 VU 數量" >>>
  K6.log "  - 觀察回應時間在哪個階段開始惡化" >>>
  K6.log "  - 該點即為系統瓶頸".
End stress_test.

Module spike_test.
Definition teardown (data : value) : io unit :=
  do! duration := elapsed_seconds data in
  K6.log "" >>>
  K6.log "=== Spike Test 結束 ===" >>>
  K6.log ("總執行時間: " ++ JsNumber.toFixed (duration / 60)%float 1 ++ " 分鐘") >>>
  K6.log "" >>>
  K6.log "分析建議:" >>>
  K6.log "  1. 觀察突波期間的錯誤率變化" >>>
  K6.log "  2. 檢查回應時間是否在突波後恢復" >>>
  K6.log "  3. 系統是否出現連鎖失敗 (cascading failures)" >>>
  K6.log "  4. 比較第一波 vs 第二波的系統表現".
End spike_test.

Definition teardown_of (s : K6.script) : value -> io unit :=
  match s with
  | K6.LoadTest => load_test.teardown
  | K6.SpikeTest => spike_test.teardown
  | K6.StressTest => stress_test.teardown
  end.

(** The line of the teardown that reports the elapsed time [seconds]. *)
Definition elapsed_line (s : K6.script) (seconds : float) : string :=
  match s with
  | K6.LoadTest => "總執行時間: " ++ JsNumber.toFixed seconds 1 ++ " 秒"
  | _ => "總執行時間: " ++ JsNumber.toFixed (seconds / 60)%float 1 ++ " 分鐘"
  end.

(** The world somewhat later: the same, with the clock at [t]. *)
Definition at_time (t : float) (w : world) : world :=
  {| fetch_reply := fetch_reply w;
     http_get_status := http_get_status w;
     now := t |}.

End K6Teardown.

(** ** utils/slack-notify.js: [parseTestResults] and [main] *)

Module Main.
Import Effect SlackNotify.

(** What [JSON.parse] made of a file: a falsy value ([null], [0],
    [false], [""]), or a report (any other value, read through
    [data.stats?.field]). *)
Inductive parsed : Type :=
| Falsy
| Report (data : Report.report).

(** A path of the file system: nothing there; something there that
    [readFileSync] or [JSON.parse] throws on, with the message of the
    error; or a file that holds JSON. *)
Inductive file : Type :=
| Missing
| Unreadable (message : string)
| Holds (data : parsed).

(** [fs.existsSync] *)
Definition existsSync (files : string -> file) (path : string) : bool :=
  match files path with
  | Missing => false
  | _ => true
  end.

(** [JSON.parse(fs.readFileSync(path, 'utf-8'))] *)
Definition read_json (files : string -> file) (path : string) : io parsed :=
  match files path with
  | Holds data => ret data
  | Unreadable message => throw (Error message)
  | Missing => throw (Error ("ENOENT: no such file or directory, open '" ++ path ++ "'"))
  end.

(** [parseTestResults(resultFile)]; the result [None] is [null]. Inside,
    [Some x] is the [try] block returning [x], and [None] is control
    reaching the [return null] after it. *)
Definition parseTestResults (files : string -> file) (resultFile : string)
  : io (option parsed) :=
  do! found :=
    try_catch
      (if existsSync files resultFile
       then do! data := read_json files resultFile in ret (Some (Some data))
       else ret None)
      (fun error =>
         console_error [VString "無法解析測試結果檔案:"; VString (message_of error)] >>>
         ret None) in
  match found with
  | Some returned => ret returned
  | None => ret None
  end.

(** [results] as [console.log] is given it. *)
Definition results_value (r : option results) : value :=
  match r with
  | Some r =>
      VObject [("passed", VNumber (passed r)); ("failed", VNumber (failed r));
               ("skipped", VNumber (skipped r)); ("duration", VNumber (duration r))]
  | None => VUndefined
  end.

(** [process.env.NAME || '0'] *)
Definition env_or_zero (env : gmap string string) (name : string) : string :=
  text (or_else (env !! name) (Some "0")).

Definition results_from_env (env : gmap string string) : results :=
  {| passed := JsParse.parseInt (env_or_zero env "TEST_PASSED");
     failed := JsParse.parseInt (env_or_zero env "TEST_FAILED");
     skipped := JsParse.parseInt (env_or_zero env "TEST_SKIPPED");
     duration := JsParse.parseFloat (env_or_zero env "TEST_DURATION") |}.

Definition default_results : results :=
  {| passed := 239; failed := 0; skipped := 0; duration := 24.4 |}.

(** The first part of [main], which sets [results]: from the file named
    by the first argument if it is there, else from the environment if
    [TEST_PASSED] is defined, else the default. [results] stays
    [undefined] ([None]) when the file gives no data. *)
Definition choose_results (args : list string) (env : gmap string string)
    (files : string -> file) : io (option results) :=
  if match args with
     | path :: _ => existsSync files path
     | [] => false
     end
  then
    do! data := parseTestResults files (hd "" args) in
    match data with
    | Some (Report report) => ret (results_from_report (Some report))
    | _ => ret None
    end
  else
    match env !! "TEST_PASSED" with
    | Some _ => ret (Some (results_from_env env))
    | None =>
        console_log [VString "使用預設測試結果（可透過環境變數或檔案傳入實際結果）"] >>>
        ret (Some default_results)
    end.

(** [main()], given [process.argv.slice(2)]; [createSlackMessage]
    destructures [results] and throws a [TypeError] on [undefined]. *)
Definition main (args : list string) (env : gmap string string)
    (files : string -> file) : io unit :=
  do! results := choose_results args env files in
  console_log [VString "測試結果:"; results_value results] >>>
  match results with
  | Some r =>
      do! delivered := sendSlackNotification env (createSlackMessage env r ∅) in
      ret tt
  | None => throw TypeError
  end.

(** A file system with one path. *)
Definition one_file (path : string) (f : file) (p : string) : file :=
  if String.eqb p path then f else Missing.

(** The first argument names something that is there and gives no
    data: it cannot be read or parsed, or it holds a falsy value. *)
Definition no_data (args : list string) (files : string -> file) : bool :=
  match args with
  | path :: _ =>
      match files path with
      | Unreadable _ | Holds Falsy => true
      | _ => false
      end
  | [] => false
  end.

End Main.

(** ** utils/slack-notify.js: [parseFromOutput] *)

(** The regular expressions of [parseFromOutput] and [String.prototype.match]
    on them: one-character atoms, the greedy quantifiers on an atom,
    sequence, and the capture group. The text is UTF-8 and every atom is an
    ASCII character, so a match of bytes is a match of code units. *)
Module JsRegExp.
Import JsParse.

Inductive atom : Type :=
| Char (c : ascii)
| Digit.

Inductive regex : Type :=
| Eps
| One (a : atom)
| Plus (a : atom)
| Star (a : atom)
| Opt (a : atom)
| Cat (r1 r2 : regex)
| Group (r : regex).

(** A run of literal characters. *)
Fixpoint literal (s : string) : regex :=
  match s with
  | String c rest => Cat (One (Char c)) (literal rest)
  | EmptyString => Eps
  end.

Definition atom_matches (a : atom) (c : ascii) : bool :=
  match a with
  | Char d => Ascii.eqb c d
  | Digit => is_digit c
  end.

(** What was consumed between the input [s] and its suffix [s']. *)
Definition taken (s s' : string) : string :=
  String.substring 0 (String.length s - String.length s') s.

Section Matcher.
Context {A : Type}.

(** [a*] in front of the continuation [k]: as many characters as
    possible first, one fewer each time [k] fails. *)
Fixpoint star (a : atom) (s : string) (k : string -> option A) : option A :=
  match s with
  | String c rest =>
      if atom_matches a c
      then match star a rest k with
           | Some found => Some found
           | None => k s
           end
      else k s
  | EmptyString => k s
  end.

(** The backtracking matcher: [run r s capture k] matches [r] at the
    start of [s] and passes what is left of the input and the text of the
    capture group to [k]; when [k] fails, the next alternative of [r] is
    tried. *)
Fixpoint run (r : regex) (s : string) (capture : option string)
    (k : string -> option string -> option A) : option A :=
  match r with
  | Eps => k s capture
  | One a =>
      match s with
      | String c rest => if atom_matches a c then k rest capture else None
      | EmptyString => None
      end
  | Plus a =>
      match s with
      | String c rest =>
          if atom_matches a c then star a rest (fun s' => k s' capture) else None
      | EmptyString => None
      end
  | Star a => star a s (fun s' => k s' capture)
  | Opt a =>
      match s with
      | String c rest =>
          if atom_matches a c
          then match k rest capture with
               | Some found => Some found
               | None => k s capture
               end
          else k s capture
      | EmptyString => k s capture
      end
  | Cat r1 r2 => run r1 s capture (fun s' capture' => run r2 s' capture' k)
  | Group r1 => run r1 s capture (fun s' _ => k s' (Some (taken s s')))
  end.

End Matcher.

(** A match of [r] that starts at the first character of [s]: the text
    of the capture group, if the group took part. *)
Definition match_here (r : regex) (s : string) : option (option string) :=
  run r s None (fun _ capture => Some capture).

(** [s.match(r)] for [r] without the [g] flag: the match at the first
    position that has one, [None] for [null]. *)
Fixpoint exec (r : regex) (s : string) : option (option string) :=
  match match_here r s with
  | Some found => Some found
  | None =>
      match s with
      | String _ rest => exec r rest
      | EmptyString => None
      end
  end.

(** [m[1]] as an argument of [parseInt] or [parseFloat]. *)
Definition group1 (m : option string) : string :=
  match m with
  | Some s => s
  | None => "undefined"
  end.

End JsRegExp.

Module ParseFromOutput.
Import JsRegExp SlackNotify.

(** [/(\d+) passed/], [/(\d+) failed/], [/(\d+) skipped/] *)
Definition passed_pattern : regex := Cat (Group (Plus Digit)) (literal " passed").
Definition failed_pattern : regex := Cat (Group (Plus Digit)) (literal " failed").
Definition skipped_pattern : regex := Cat (Group (Plus Digit)) (literal " skipped").

(** The pattern of [timeMatch]: an opening parenthesis; in the group, one
    or more digits, an optional dot and any number of digits; then [s] and
    a closing parenthesis. *)
Definition time_pattern : regex :=
  Cat (One (Char "("))
      (Cat (Group (Cat (Plus Digit) (Cat (Opt (Char ".")) (Star Digit))))
           (literal "s)")).

Definition parseFromOutput (output : string) : results :=
  let passedMatch := exec passed_pattern output in
  let failedMatch := exec failed_pattern output in
  let skippedMatch := exec skipped_pattern output in
  let timeMatch := exec time_pattern output in
  {| passed := match passedMatch with
               | Some m => JsParse.parseInt (group1 m)
               | None => 0
               end;
     failed := match failedMatch with
               | Some m => JsParse.parseInt (group1 m)
               | None => 0
               end;
     skipped := match skippedMatch with
                | Some m => JsParse.parseInt (group1 m)
                | None => 0
                end;
     duration := match timeMatch with
                 | Some m => JsParse.parseFloat (group1 m)
                 | None => 0
                 end |}.

(** No character of [s] is a decimal digit. *)
Definition no_digit (s : string) : bool :=
  forallb (fun c => negb (JsParse.is_digit c)) (list_ascii_of_string s).

Definition all_digits (s : string) : bool :=
  forallb JsParse.is_digit (list_ascii_of_string s).

(** The last character of [s] is a decimal digit. *)
Fixpoint ends_with_digit (s : string) : bool :=
  match s with
  | String c EmptyString => JsParse.is_digit c
  | String _ rest => ends_with_digit rest
  | EmptyString => false
  end.

(** The last lines of a run as the list reporter prints them. *)
Definition example_output : string :=
  "Running 243 tests using 4 workers" ++ nl ++
  "  2 failed" ++ nl ++
  "  2 skipped" ++ nl ++
  "  239 passed (24.4s)" ++ nl.

End ParseFromOutput.

(** ** k6/load-test.js, k6/stress-test.js, k6/spike-test.js: the [default] function *)

Module JsMath.

(** [Math.floor] *)
Definition floor (x : float) : float :=
  match Prim2SF x with
  | S754_finite negative m e =>
      if 0 <=? e then x
      else
        let whole := Z.pos m / 2 ^ (- e) in
        let exact := Z.pos m mod 2 ^ (- e) =? 0 in
        if negative
        then SF2Prim (binary_normalize prec emax
                        (- (if exact then whole else whole + 1)) 0 true)
        else SF2Prim (binary_normalize prec emax whole 0 false)
  | _ => x
  end.

End JsMath.

(** One iteration of a virtual user. The world gives the numbers
    [Math.random] returns, in the order of the calls, the response to
    each request, and the clock; an iteration counts the numbers it has
    drawn and appends what it does to a trace. Every request of the
    scripts carries the same [Content-Type] header, which the trace
    leaves out. *)
Module K6Default.

(** What [JSON.parse(res.body)] gives: a value, or a [SyntaxError] with
    its message. *)
Inductive body : Type :=
| Json (v : value)
| NotJson (message : string).

(** [res.status], [res.timings.duration] and [res.body] *)
Record http_response : Type := {
  res_status : float;
  res_duration : float;
  res_body : body;
}.

Inductive request : Type :=
| Get (url : string)
| Post (url body : string)
| Put (url body : string).

(** The metrics are named as the scripts name them. *)
Inductive event : Type :=
| Http (r : request)
| TrendAdd (metric : string) (x : float)
| CounterAdd (metric : string) (x : float)
| RateAdd (metric : string) (x : float)
| Sleep (seconds : float).

Record world : Type := {
  random : nat -> float;
  respond : request -> http_response;
  now : float;
}.

Definition vu (A : Type) : Type := world -> nat -> result A * nat * list event.

Definition ret {A : Type} (a : A) : vu A := fun _ n => (Ok a, n, []).

Definition throw {A : Type} (e : exn) : vu A := fun _ n => (Throw e, n, []).

Definition seq {A B : Type} (m : vu A) (k : A -> vu B) : vu B :=
  fun w n =>
    match m w n with
    | (Ok a, n1, t1) => let '(r, n2, t2) := k a w n1 in (r, n2, (t1 ++ t2)%list)
    | (Throw e, n1, t1) => (Throw e, n1, t1)
    end.

Notation "'vu!' x ':=' m 'in' k" := (seq m (fun x => k))
  (at level 10, x name, m at level 100, k at level 200).
Notation "m '>>>>' k" := (seq m (fun _ => k))
  (at level 95, right associativity).

(** [Math.random()] *)
Definition math_random : vu float := fun w n => (Ok (random w n), S n, []).

(** [Date.now()] *)
Definition date_now : vu float := fun w n => (Ok (now w), n, []).

(** [http.get], [http.post], [http.put] *)
Definition http (r : request) : vu http_response :=
  fun w n => (Ok (respond w r), n, [Http r]).

Definition trend_add (metric : string) (x : float) : vu unit :=
  fun _ n => (Ok tt, n, [TrendAdd metric x]).
Definition counter_add (metric : string) (x : float) : vu unit :=
  fun _ n => (Ok tt, n, [CounterAdd metric x]).
Definition rate_add (metric : string) (x : float) : vu unit :=
  fun _ n => (Ok tt, n, [RateAdd metric x]).
Definition sleep (seconds : float) : vu unit := fun _ n => (Ok tt, n, [Sleep seconds]).

(** The checks of [check(res, {...})] in their order: whether all of
    them hold; what a check throws leaves [check] at once. *)
Fixpoint run_checks (res : http_response) (checks : list (http_response -> result bool))
  : result bool :=
  match checks with
  | [] => Ok true
  | holds :: rest =>
      let! first := holds res in
      let! others := run_checks res rest in
      Ok (first && others)
  end.

Definition check (res : http_response) (checks : list (http_response -> result bool))
  : vu bool :=
  fun _ n => (run_checks res checks, n, []).

(** [JSON.parse(r.body)] *)
Definition JSON_parse (r : http_response) : result value :=
  match res_body r with
  | Json v => Ok v
  | NotJson message => Throw (Error message)
  end.

(** [Math.floor(Math.random() * n) + 1] *)
Definition random_id (n : float) : vu float :=
  vu! r := math_random in ret (JsMath.floor (r * n) + 1)%float.

(** [JSON.stringify] of an object literal. *)
Definition stringify (fields : list (string * value)) : string :=
  match JSON_stringify (VObject fields) with
  | Some s => s
  | None => "undefined"
  end.

(** [items[index]] for a number [index]. *)
Definition item {A : Type} (items : list A) (index : float) : option A :=
  match index_of_key (JsNumber.toString index) (List.length items) with
  | Some i => nth_error items i
  | None => None
  end.

Module load_test.

Definition endpoints_posts : string := K6.BASE_URL ++ "/posts".
Definition endpoints_users : string := K6.BASE_URL ++ "/users".
Definition endpoints_comments : string := K6.BASE_URL ++ "/comments".

(** [x !== undefined] *)
Definition defined (x : value) : bool :=
  match x with
  | VUndefined => false
  | _ => true
  end.

(** [x === 10] *)
Definition is_ten (x : value) : bool :=
  match x with
  | VNumber n => (n =? 10)%float
  | _ => false
  end.

Definition default : vu unit :=
  vu! postsRes := http (Get endpoints_posts) in
  trend_add "posts_duration" (res_duration postsRes) >>>>
  vu! passed :=
    check postsRes
      [fun r => Ok (res_status r =? 200)%float;
       fun r => Ok (res_duration r <? 500)%float;
       fun r => let! parsed := JSON_parse r in
                let! length := get parsed "length" in
                Ok (0 <? JsToNumber.ToNumber length)%float] in
  (if passed then ret tt else rate_add "errors" 1) >>>>
  sleep 1 >>>>
  vu! usersRes := http (Get endpoints_users) in
  trend_add "users_duration" (res_duration usersRes) >>>>
  vu! passed :=
    check usersRes
      [fun r => Ok (res_status r =? 200)%float;
       fun r => Ok (res_duration r <? 500)%float;
       fun r => let! parsed := JSON_parse r in
                let! length := get parsed "length" in
                Ok (is_ten length)] in
  (if passed then ret tt else rate_add "errors" 1) >>>>
  sleep 1 >>>>
  vu! postId := random_id 100 in
  vu! postRes := http (Get (endpoints_posts ++ "/" ++ JsNumber.toString postId)) in
  vu! passed :=
    check postRes
      [fun r => Ok (res_status r =? 200)%float;
       fun r => let! parsed := JSON_parse r in
                let! title := get parsed "title" in
                Ok (defined title)] in
  (if passed then ret tt else rate_add "errors" 1) >>>>
  sleep 1 >>>>
  vu! t := date_now in
  let newPost :=
    stringify [("title", VString ("Load Test Post " ++ JsNumber.toString t));
               ("body", VString "This is a load test post");
               ("userId", VNumber 1)] in
  vu! createRes := http (Post endpoints_posts newPost) in
  vu! passed :=
    check createRes
      [fun r => Ok (res_status r =? 201)%float;
       fun r => let! parsed := JSON_parse r in
                let! id := get parsed "id" in
                Ok (defined id)] in
  (if passed then ret tt else rate_add "errors" 1) >>>>
  sleep 1 >>>>
  vu! commentsRes :=
    http (Get (endpoints_comments ++ "?postId=" ++ JsNumber.toString postId)) in
  vu! passed :=
    check commentsRes
      [fun r => Ok (res_status r =? 200)%float;
       fun r => let! parsed := JSON_parse r in
                Ok (isArray parsed)] in
  (if passed then ret tt else rate_add "errors" 1) >>>>
  vu! r := math_random in
  sleep (r * 2)%float.

End load_test.

Module stress_test.

Definition default : vu unit :=
  vu! first := math_random in
  (if (first <? 0.6)%float then
     vu! postId := random_id 100 in
     vu! userId := random_id 10 in
     let endpoints :=
       ["/posts"; "/users"; "/comments";
        "/posts/" ++ JsNumber.toString postId;
        "/users/" ++ JsNumber.toString userId] in
     vu! r := math_random in
     let endpoint :=
       item endpoints (JsMath.floor (r * number_of_nat (List.length endpoints))) in
     vu! res := http (Get (K6.BASE_URL ++ match endpoint with
                                          | Some e => e
                                          | None => "undefined"
                                          end)) in
     trend_add "request_duration" (res_duration res) >>>>
     counter_add "request_count" 1 >>>>
     vu! success :=
       check res [fun r => Ok (res_status r =? 200)%float;
                  fun r => Ok (res_duration r <? 1000)%float] in
     if negb success then rate_add "errors" 1 else ret tt
   else
     vu! second := math_random in
     if (second <? 0.9)%float then
       vu! t := date_now in
       vu! userId := random_id 10 in
       let payload :=
         stringify [("title", VString ("Stress Test " ++ JsNumber.toString t));
                    ("body", VString "Stress testing the API");
                    ("userId", VNumber userId)] in
       vu! res := http (Post (K6.BASE_URL ++ "/posts") payload) in
       trend_add "request_duration" (res_duration res) >>>>
       counter_add "request_count" 1 >>>>
       vu! success :=
         check res [fun r => Ok (res_status r =? 201)%float;
                    fun r => Ok (res_duration r <? 1000)%float] in
       if negb success then rate_add "errors" 1 else ret tt
     else
       vu! postId := random_id 100 in
       vu! t := date_now in
       let payload :=
         stringify [("id", VNumber postId);
                    ("title", VString ("Updated " ++ JsNumber.toString t));
                    ("body", VString "Updated during stress test");
                    ("userId", VNumber 1)] in
       vu! res := http (Put (K6.BASE_URL ++ "/posts/" ++ JsNumber.toString postId) payload) in
       trend_add "request_duration" (res_duration res) >>>>
       counter_add "request_count" 1 >>>>
       vu! success :=
         check res [fun r => Ok (res_status r =? 200)%float;
                    fun r => Ok (res_duration r <? 1000)%float] in
       if negb success then rate_add "errors" 1 else ret tt) >>>>
  vu! r := math_random in
  sleep (r * 0.5)%float.

End stress_test.

Module spike_test.

Definition actions : list (vu bool) :=
  [ (vu! res := http (Get (K6.BASE_URL ++ "/posts")) in
     trend_add "response_times" (res_duration res) >>>>
     check res [fun r => Ok (res_status r =? 200)%float]);
    (vu! postId := random_id 100 in
     vu! res := http (Get (K6.BASE_URL ++ "/posts/" ++ JsNumber.toString postId)) in
     trend_add "response_times" (res_duration res) >>>>
     check res [fun r => Ok (res_status r =? 200)%float]);
    (vu! postId := random_id 100 in
     vu! res := http (Get (K6.BASE_URL ++ "/posts/" ++ JsNumber.toString postId
                             ++ "/comments")) in
     trend_add "response_times" (res_duration res) >>>>
     check res [fun r => Ok (res_status r =? 200)%float]);
    (vu! userId := random_id 10 in
     vu! res := http (Get (K6.BASE_URL ++ "/users/" ++ JsNumber.toString userId)) in
     trend_add "response_times" (res_duration res) >>>>
     check res [fun r => Ok (res_status r =? 200)%float]);
    (vu! postId := random_id 100 in
     vu! t := date_now in
     let payload :=
       stringify [("postId", VNumber postId);
                  ("name", VString "Spike Test User");
                  ("email", VString "spike@test.com");
                  ("body", VString ("Comment during spike test at "
                                      ++ JsNumber.toString t))] in
     vu! res := http (Post (K6.BASE_URL ++ "/comments") payload) in
     trend_add "response_times" (res_duration res) >>>>
     check res [fun r => Ok (res_status r =? 201)%float]) ].

(** Calling [undefined] is a [TypeError]. *)
Definition default : vu unit :=
  vu! r := math_random in
  match item actions (JsMath.floor (r * number_of_nat (List.length actions))) with
  | Some action =>
      vu! success := action in
      (if negb success then rate_add "errors" 1 else ret tt) >>>>
      vu! r := math_random in
      sleep (r * 0.3)%float
  | None => throw TypeError
  end.

End spike_test.

(** The status a request is checked against. *)
Definition expected_status (r : request) : float :=
  match r with
  | Post _ _ => 201
  | _ => 200
  end.


End K6Default.

(** What the checks of the load script need of a response: a body that
    is JSON and neither [null] nor [undefined]; a body that is JSON. *)
Module LoadChecks.
Import K6Default.



(** The identifier an iteration draws as its [n]-th number. *)
Definition post_id (w : world) (n : nat) : string :=
  JsNumber.toString (JsMath.floor (random w n * 100) + 1)%float.

Definition post_request (w : world) (n : nat) : request :=
  Get (load_test.endpoints_posts ++ "/" ++ post_id w n).



(** The parsed body, and a field of it. *)
Definition parsed (r : http_response) : value :=
  match res_body r with
  | Json v => v
  | NotJson _ => VUndefined
  end.

Definition field (r : http_response) (key : string) : value :=
  match own_field (parsed r) key with
  | Some v => v
  | None => VUndefined
  end.










End LoadChecks.

(** * Properties *)

(** ** Induction on values, through the lists they nest *)

Lemma value_nested_ind (P : value -> Prop) :
  P VUndefined -> P VNull -> (forall b, P (VBool b)) -> (forall x, P (VNumber x)) ->
  (forall s, P (VString s)) ->
  (forall items, Forall P items -> P (VArray items)) ->
  (forall fields, Forall (fun entry => P (snd entry)) fields -> P (VObject fields)) ->
  forall v, P v.
Proof.
  intros Hu Hn Hb Hx Hs Ha Ho.
  fix IH 1. intros [| | b | x | s | items | fields].
  - exact Hu.
  - exact Hn.
  - apply Hb.
  - apply Hx.
  - apply Hs.
  - apply Ha. induction items as [| v items IHitems]; constructor; [apply IH | exact IHitems].
  - apply Ho. induction fields as [| [k v] fields IHfields]; constructor;
      [apply IH | exact IHfields].
Qed.

(** ** Reading a property *)

(** Reading a property of [null] or [undefined]. *)
Section Nullish.

Context (data : value) (Hnull : nullish data = true).

Lemma own_field_nullish key : own_field data key = None.
Proof using Hnull. destruct data; try discriminate Hnull; reflexivity. Qed.

Lemma get_nullish key : get data key = Throw TypeError.
Proof using Hnull. destruct data; try discriminate Hnull; reflexivity. Qed.

End Nullish.

(** Reading a property of anything else. *)
Section NotNullish.

Context (data : value) (Hnull : nullish data = false).

Lemma get_own key :
  get data key = Ok (match own_field data key with Some v => v | None => VUndefined end).
Proof using Hnull. destruct data; try discriminate Hnull; reflexivity. Qed.

End NotNullish.

(** ** The endpoint registry: occurrences of the identifier in a path *)

Section Occurrences.

Lemma list_ascii_app (a b : string) :
  list_ascii_of_string (a ++ b) = (list_ascii_of_string a ++ list_ascii_of_string b)%list.
Proof. induction a as [| c a IH]; simpl; [reflexivity | now rewrite IH]. Qed.

Lemma occurs_in_app (c : ascii) (a b : string) :
  occurs_in c (a ++ b) = occurs_in c a || occurs_in c b.
Proof. unfold occurs_in. now rewrite list_ascii_app, existsb_app. Qed.

Lemma occurs_in_cons (c a : ascii) (t : string) :
  occurs_in c (String a t) = Ascii.eqb c a || occurs_in c t.
Proof. reflexivity. Qed.

Lemma prefix_cons (a b : ascii) (s t : string) :
  String.prefix (String a s) (String b t) = Ascii.eqb a b && String.prefix s t.
Proof.
  simpl. destruct (ascii_dec a b) as [-> | Hne].
  - now rewrite Ascii.eqb_refl.
  - apply Ascii.eqb_neq in Hne. now rewrite Hne.
Qed.

Lemma prefix_app_self (s q : string) : String.prefix s (s ++ q) = true.
Proof.
  induction s as [| c s IH]; [now destruct q |].
  change (String c s ++ q) with (String c (s ++ q)).
  now rewrite prefix_cons, Ascii.eqb_refl, IH.
Qed.

(** A needle whose first character is not in the text does not occur. *)
Lemma occurrences_absent_head (c : ascii) (s r : string) :
  occurs_in c r = false -> occurrences (String c s) r = 0%nat.
Proof.
  induction r as [| a r IH]; intros Hc; [reflexivity |].
  rewrite occurs_in_cons in Hc. apply orb_false_elim in Hc as [Hca Hr].
  cbn [occurrences]. rewrite prefix_cons, Hca, (IH Hr). reflexivity.
Qed.

(** A prefix without the needle's first character adds no occurrence. *)
Lemma occurrences_skip (c : ascii) (s p r : string) :
  occurs_in c p = false ->
  occurrences (String c s) (p ++ r) = occurrences (String c s) r.
Proof.
  induction p as [| a p IH]; intros Hc; [reflexivity |].
  rewrite occurs_in_cons in Hc. apply orb_false_elim in Hc as [Hca Hp].
  change (String a p ++ r) with (String a (p ++ r)).
  cbn [occurrences]. rewrite prefix_cons, Hca, (IH Hp). reflexivity.
Qed.

Lemma substring_at_length (p s q : string) :
  String.substring (String.length p) (String.length s) (p ++ s ++ q) = s.
Proof.
  induction p as [| a p IH]; [| exact IH].
  change ("" ++ s ++ q) with (s ++ q). cbn [String.length].
  induction s as [| c s IHs].
  - now destruct q.
  - change (String c s ++ q) with (String c (s ++ q)). cbn [String.length substring].
    now rewrite IHs.
Qed.

End Occurrences.

Lemma append_empty_r (s : string) : s ++ "" = s.
Proof.
  induction s as [| c s IH]; [reflexivity |].
  change (String c s ++ "") with (String c (s ++ "")). now rewrite IH.
Qed.

Lemma append_cons (c : ascii) (s q : string) : String c s ++ q = String c (s ++ q).
Proof. reflexivity. Qed.

Lemma append_assoc (a b c : string) : (a ++ b) ++ c = a ++ b ++ c.
Proof.
  induction a as [| x a IH]; [reflexivity |].
  rewrite !append_cons. now rewrite IH.
Qed.

(** A needle does not occur in a shorter text. *)
Lemma prefix_shorter (s h : string) :
  (String.length h < String.length s)%nat -> String.prefix s h = false.
Proof.
  revert h. induction s as [| c s IH]; intros h Hlen; [simpl in Hlen; lia |].
  destruct h as [| a h]; [reflexivity |].
  rewrite prefix_cons, IH; [apply andb_false_r | simpl in Hlen; lia].
Qed.

Lemma occurrences_shorter (s h : string) :
  (String.length h < String.length s)%nat -> occurrences s h = 0%nat.
Proof.
  induction h as [| a h IH]; intros Hlen; cbn [occurrences];
    rewrite (prefix_shorter _ _ Hlen); [reflexivity |].
  rewrite IH; [reflexivity | simpl in Hlen; lia].
Qed.

(** A text that is not empty occurs once in itself. *)
Lemma occurrences_self (s : string) : s <> "" -> occurrences s s = 1%nat.
Proof.
  destruct s as [| c s]; [contradiction |]. intros _.
  cbn [occurrences].
  rewrite <- (append_empty_r (String c s)) at 2. rewrite prefix_app_self.
  rewrite occurrences_shorter; [reflexivity | simpl; lia].
Qed.

(** *** Identifiers without a slash: the slashes of the path separate
    what can hold an occurrence *)

Lemma prefix_sep (s a b : string) :
  occurs_in "/" s = false ->
  String.prefix s (a ++ String "/" b) = String.prefix s a.
Proof.
  revert a. induction s as [| c s IH]; intros a Hs.
  - now destruct a.
  - rewrite occurs_in_cons in Hs. apply orb_false_elim in Hs as [Hc Hs].
    destruct a as [| x a].
    + change ("" ++ String "/" b) with (String "/" b).
      rewrite prefix_cons, Ascii.eqb_sym, Hc. reflexivity.
    + change (String x a ++ String "/" b) with (String x (a ++ String "/" b)).
      now rewrite !prefix_cons, (IH a Hs).
Qed.

Lemma occurrences_sep (s a b : string) :
  s <> "" -> occurs_in "/" s = false ->
  occurrences s (a ++ String "/" b) = (occurrences s a + occurrences s b)%nat.
Proof.
  intros Hne Hs. induction a as [| x a IH].
  - change ("" ++ String "/" b) with (String "/" b). cbn [occurrences].
    rewrite <- (prefix_sep s "" b Hs) at 1.
    change ("" ++ String "/" b) with (String "/" b).
    destruct s as [| c s]; [contradiction |]. cbn [String.prefix]. lia.
  - change (String x a ++ String "/" b) with (String x (a ++ String "/" b)).
    cbn [occurrences]. rewrite IH.
    change (String x (a ++ String "/" b)) with (String x a ++ String "/" b).
    rewrite (prefix_sep _ _ _ Hs). lia.
Qed.

Lemma occurrences_slash (s b : string) :
  s <> "" -> occurs_in "/" s = false ->
  occurrences s (String "/" b) = occurrences s b.
Proof.
  intros Hne Hs. change (String "/" b) with ("" ++ String "/" b).
  rewrite (occurrences_sep s "" b Hne Hs).
  destruct s as [| c s]; [contradiction |]. reflexivity.
Qed.

(** Between two slashes, or after the last one, the identifier adds one
    occurrence to those of the literal text. *)
Lemma occurrences_slot (s b a : string) :
  s <> "" -> occurs_in "/" s = false ->
  a = "" \/ (exists a', a = String "/" a') ->
  occurrences s ((b ++ "/") ++ s ++ a) = S (occurrences s ((b ++ "/") ++ a)).
Proof.
  intros Hne Hs Ha. rewrite !append_assoc.
  change ("/" ++ s ++ a) with (String "/" (s ++ a)).
  change ("/" ++ a) with (String "/" a).
  rewrite !(occurrences_sep s b _ Hne Hs).
  destruct Ha as [-> | [a' ->]].
  - rewrite append_empty_r, (occurrences_self s Hne).
    destruct s as [| c s]; [contradiction |]. cbn [occurrences String.prefix]. lia.
  - rewrite (occurrences_sep s s a' Hne Hs), (occurrences_self s Hne).
    rewrite !(occurrences_slash s _ Hne Hs). lia.
Qed.

(** *** Identifiers that start with a character the literal text does
    not have *)

Lemma count_char_cons (c a : ascii) (s : string) :
  count_char c (String a s) = ((if Ascii.eqb c a then 1 else 0) + count_char c s)%nat.
Proof.
  unfold count_char. cbn [list_ascii_of_string count_occ].
  destruct (ascii_dec a c) as [-> | Hne].
  - now rewrite Ascii.eqb_refl.
  - apply not_eq_sym, Ascii.eqb_neq in Hne. now rewrite Hne.
Qed.

Lemma count_char_app (c : ascii) (a b : string) :
  count_char c (a ++ b) = (count_char c a + count_char c b)%nat.
Proof. unfold count_char. now rewrite list_ascii_app, count_occ_app. Qed.

Lemma count_char_absent (c : ascii) (s : string) :
  occurs_in c s = false -> count_char c s = 0%nat.
Proof.
  induction s as [| a s IH]; intros Hc; [reflexivity |].
  rewrite occurs_in_cons in Hc. apply orb_false_elim in Hc as [Hca Hs].
  now rewrite count_char_cons, Hca, (IH Hs).
Qed.

(** A text has at least the characters of what starts it, and of what
    occurs in it. *)
Lemma count_char_prefix (c : ascii) (s h : string) :
  String.prefix s h = true -> (count_char c s <= count_char c h)%nat.
Proof.
  revert h. induction s as [| a s IH]; intros h Hprefix.
  - unfold count_char at 1. cbn. lia.
  - destruct h as [| b h]; [discriminate Hprefix |].
    rewrite prefix_cons in Hprefix. apply andb_prop in Hprefix as [Hab Hprefix].
    apply Ascii.eqb_eq in Hab as <-. rewrite !count_char_cons.
    specialize (IH h Hprefix). lia.
Qed.

Lemma count_char_occurrence (c : ascii) (s h : string) :
  occurrences s h <> 0%nat -> (count_char c s <= count_char c h)%nat.
Proof.
  induction h as [| a h IH]; cbn [occurrences]; intros Hocc.
  - destruct (String.prefix s "") eqn:Hprefix; [| lia].
    exact (count_char_prefix c s "" Hprefix).
  - destruct (String.prefix s (String a h)) eqn:Hprefix.
    + exact (count_char_prefix c s _ Hprefix).
    + rewrite count_char_cons. cbn [Nat.add] in Hocc. specialize (IH Hocc). lia.
Qed.

(** The identifier before a text without its first character occurs
    once: a second occurrence would start inside the identifier and hold
    that character once more than what is left does. *)
Lemma occurrences_head_once (c : ascii) (s q : string) :
  occurs_in c q = false -> occurrences (String c s) (String c s ++ q) = 1%nat.
Proof.
  intros Hq. change (String c s ++ q) with (String c (s ++ q)). cbn [occurrences].
  change (String c (s ++ q)) with (String c s ++ q). rewrite prefix_app_self.
  destruct (Nat.eq_dec (occurrences (String c s) (s ++ q)) 0%nat) as [-> | Hocc];
    [reflexivity |].
  apply (count_char_occurrence c) in Hocc.
  rewrite count_char_cons, Ascii.eqb_refl, count_char_app,
    (count_char_absent c q Hq) in Hocc. lia.
Qed.

Lemma occurrences_outside (s p q : string) :
  PathTemplate.starts_outside s (p ++ q) = true ->
  occurrences s (p ++ s ++ q) = 1%nat.
Proof.
  destruct s as [| c s]; [discriminate |]. cbn [PathTemplate.starts_outside].
  rewrite occurs_in_app. intros Hout.
  apply negb_true_iff, orb_false_elim in Hout as [Hp Hq].
  rewrite (occurrences_skip c s p _ Hp). exact (occurrences_head_once c s q Hq).
Qed.

(** C7 (amended). Every path template that takes an identifier gives its
    literal text with the stringified identifier in the place of the
    placeholder, for every identifier. An identifier that is not empty
    and has no slash occurs in the path once more than it occurs in the
    literal text of the template: exactly once unless that text holds
    it. And every identifier that starts with a character the literal
    text of the template does not have occurs exactly once. *)
Theorem path_templates_identifier_once (t : PathTemplate.template) (id : value) :
  In t PathTemplate.templates ->
  let s := ToString id in
  PathTemplate.path t id = PathTemplate.before t ++ s ++ PathTemplate.after t /\
  located_at s (String.length (PathTemplate.before t)) (PathTemplate.path t id) /\
  (s <> "" -> occurs_in "/" s = false ->
   occurrences s (PathTemplate.path t id)
   = S (occurrences s (PathTemplate.literal t))) /\
  (PathTemplate.starts_outside s (PathTemplate.literal t) = true ->
   occurrences s (PathTemplate.path t id) = 1%nat).
Proof.
  intros Hin s.
  assert (Hpath : PathTemplate.path t id
                  = PathTemplate.before t ++ s ++ PathTemplate.after t).
  { cbn [In PathTemplate.templates] in Hin.
    repeat (destruct Hin as [<- | Hin];
            [cbn [PathTemplate.path PathTemplate.before PathTemplate.after];
             first [ reflexivity
                   | rewrite append_empty_r; reflexivity ] |]).
    contradiction. }
  rewrite Hpath. unfold PathTemplate.literal.
  split; [reflexivity |]. split; [apply substring_at_length |]. split.
  - intros Hne Hslash. cbn [In PathTemplate.templates] in Hin.
    repeat (destruct Hin as [<- | Hin];
            [cbn [PathTemplate.before PathTemplate.after];
             first [ apply (occurrences_slot s "/posts" "" Hne Hslash)
                   | apply (occurrences_slot s "/users" "" Hne Hslash)
                   | apply (occurrences_slot s "/posts" "/comments" Hne Hslash)
                   | apply (occurrences_slot s "/pet" "" Hne Hslash)
                   | apply (occurrences_slot s "/store/order" "" Hne Hslash)
                   | apply (occurrences_slot s "/user" "" Hne Hslash) ];
             first [ left; reflexivity | right; eexists; reflexivity ] |]).
    contradiction.
  - apply occurrences_outside.
Qed.

Lemma path_templates_identifier_once_witness :
  occurrences "sam" (API.jsonplaceholder.postComments (VString "sam")) = 1%nat /\
  occurrences "comm" (API.jsonplaceholder.postComments (VString "comm")) = 2%nat /\
  occurrences "a/b" (API.petstore.userByUsername (VString "a/b")) = 1%nat.
Proof.
  split; [| split].
  - destruct (path_templates_identifier_once
                {| PathTemplate.before := "/posts/"; PathTemplate.after := "/comments";
                   PathTemplate.path := API.jsonplaceholder.postComments |}
                (VString "sam")) as (_ & _ & Hcount & _).
    + right. right. left. reflexivity.
    + apply Hcount; [vm_compute; discriminate | reflexivity].
  - destruct (path_templates_identifier_once
                {| PathTemplate.before := "/posts/"; PathTemplate.after := "/comments";
                   PathTemplate.path := API.jsonplaceholder.postComments |}
                (VString "comm")) as (_ & _ & Hcount & _).
    + right. right. left. reflexivity.
    + apply Hcount; [vm_compute; discriminate | reflexivity].
  - destruct (path_templates_identifier_once
                {| PathTemplate.before := "/user/"; PathTemplate.after := "";
                   PathTemplate.path := API.petstore.userByUsername |}
                (VString "a/b")) as (_ & _ & _ & Honce).
    + do 6 right. left. reflexivity.
    + apply Honce. reflexivity.
Defined.

(** C7 as stated fails: the path for the username ["user"] is
    ["/user/user"], in which the identifier occurs twice; and the empty
    identifier occurs at every position of ["/posts/"]. *)
Lemma path_template_counterexample :
  API.petstore.userByUsername (VString "user") = "/user/user" /\
  occurrences (ToString (VString "user"))
    (API.petstore.userByUsername (VString "user")) = 2%nat /\
  occurrences (ToString (VString "")) (API.jsonplaceholder.post (VString "")) = 8%nat.
Proof. repeat split. Qed.

(** ** [validateSchema] *)

(** *** Field names that the matcher reads as one name *)

Lemma is_dot_mark (c : ascii) : is_dot c = true -> is_path_mark c = true.
Proof. unfold is_dot, is_path_mark. intros ->. reflexivity. Qed.

Lemma plain_key_cons (c : ascii) (s : string) :
  plain_key (String c s) = negb (is_path_mark c) && plain_key s.
Proof. reflexivity. Qed.

Lemma path_matches_plain (s : string) :
  plain_key s = true ->
  forall run, path_matches run s = match run ++ s with
                                   | EmptyString => []
                                   | t => [t]
                                   end.
Proof.
  induction s as [| c s IH]; intros Hplain run.
  - rewrite append_empty_r. destruct run; reflexivity.
  - rewrite plain_key_cons in Hplain. apply andb_prop in Hplain as [Hc Hs].
    apply negb_true_iff in Hc. cbn [path_matches]. rewrite Hc, (IH Hs).
    now rewrite append_assoc.
Qed.

Lemma pathAsArray_plain (key : string) :
  plain_key key = true -> pathAsArray key = [key].
Proof.
  intros Hplain. destruct key as [| c key]; [reflexivity |].
  unfold pathAsArray. rewrite (path_matches_plain _ Hplain).
  rewrite plain_key_cons in Hplain. apply andb_prop in Hplain as [Hc _].
  destruct (is_dot c) eqn:Hdot; [| reflexivity].
  apply is_dot_mark in Hdot. rewrite Hdot in Hc. discriminate.
Qed.

Section ValidateSchemaProofs.

Context {builtin : Type} (E : engine builtin).

Implicit Types (data : jsval builtin) (schema declared : value) (key : string).

(** The matcher on such a name: a plain [Error] on [null] and
    [undefined], what reading the property throws, and otherwise whether
    the property is present. *)
Lemma toHaveProperty_plain data key :
  plain_key key = true ->
  expect_toHaveProperty E data key =
  if nullish_js data then Throw MatcherError
  else match read E data key with
       | Ok _ => if present E data key then Ok tt else Throw AssertionError
       | Throw e => Throw e
       end.
Proof.
  intros Hplain. unfold expect_toHaveProperty, present.
  rewrite (pathAsArray_plain key Hplain). cbn [hasEndProp].
  destruct (nullish_js data); [reflexivity |].
  destruct (read E data key) as [x | e]; reflexivity.
Qed.

Lemma read_nullish data key : nullish_js data = true -> read E data key = Throw TypeError.
Proof.
  destruct data as [v | b]; [| discriminate]. cbn [nullish_js read]. now intros ->.
Qed.

Lemma validateSchema_listed_nil data : validateSchema_listed E data (VObject []) = Ok tt.
Proof. reflexivity. Qed.

Lemma validateSchema_listed_cons data key expectedType rest :
  validateSchema_listed E data (VObject ((key, expectedType) :: rest)) =
  (check_entry E data key expectedType (fun d => validateSchema_listed E d expectedType) >>
   validateSchema_listed E data (VObject rest)).
Proof. reflexivity. Qed.

Lemma satisfies_cons data key declared rest :
  satisfies E data (VObject ((key, declared) :: rest)) =
  field_satisfies E data key declared (fun v => satisfies E v declared)
  && satisfies E data (VObject rest).
Proof. reflexivity. Qed.

Lemma well_formed_cons key declared rest :
  well_formed (VObject ((key, declared) :: rest)) =
  match declared with
  | VString _ => true
  | VObject _ => well_formed declared
  | _ => false
  end && well_formed (VObject rest).
Proof. reflexivity. Qed.

Lemma plain_keys_cons key declared rest :
  plain_keys (VObject ((key, declared) :: rest)) =
  plain_key key && plain_keys declared && plain_keys (VObject rest).
Proof. reflexivity. Qed.

Lemma null_free_cons data key declared rest :
  null_free E data (VObject ((key, declared) :: rest)) =
  match read E data key with
  | Ok x =>
      match declared with
      | VObject _ =>
          if String.eqb (typeof_js E x) "object" then null_free E x declared else true
      | _ => true
      end
  | Throw _ => false
  end && null_free E data (VObject rest).
Proof.
  cbn [null_free]. destruct (negb (nullish_js data)) eqn:Hnull; cbn [andb].
  - reflexivity.
  - apply negb_false_iff in Hnull. rewrite (read_nullish _ _ Hnull). reflexivity.
Qed.

Lemma null_free_not_nullish data schema :
  null_free E data schema = true -> nullish_js data = false.
Proof.
  destruct schema; cbn [null_free]; intros H; apply andb_prop in H as [H _];
    now apply negb_true_iff.
Qed.

Lemma typeof_string_cases (t s : string) :
  String.eqb t s = true <-> expect_string_toBe t (VString s) = Ok tt.
Proof.
  unfold expect_string_toBe. destruct (String.eqb t s); split; congruence.
Qed.

(** One entry of the loop succeeds exactly when the field satisfies its
    declaration, if the recursive call does so for the nested schema. *)
Lemma check_entry_iff data key declared (nested : jsval builtin -> result unit)
    (holds : jsval builtin -> bool) :
  plain_key key = true ->
  match declared with
  | VString _ => True
  | VObject _ => forall d, nested d = Ok tt <-> holds d = true
  | _ => False
  end ->
  check_entry E data key declared nested = Ok tt <->
  field_satisfies E data key declared holds = true.
Proof.
  intros Hplain IH.
  destruct declared as [| | b | x | s | items | fields]; try contradiction;
    unfold check_entry, field_satisfies, is_array_keyword; simpl typeof; simpl andb;
    rewrite ?(toHaveProperty_plain data key Hplain).
  - (* a type name, or "array" *)
    destruct (String.eqb s "array").
    + destruct (read E data key) as [v |]; cbn [bind]; [| split; discriminate].
      unfold expect_bool_toBe. destruct (isArray_js E v); simpl; split; congruence.
    + destruct (nullish_js data) eqn:Hnull.
      * rewrite (read_nullish _ _ Hnull). cbn [bind]. split; discriminate.
      * destruct (read E data key) as [v |]; cbn [bind]; [| split; discriminate].
        destruct (present E data key); cbn [bind andb]; [| split; discriminate].
        symmetry. apply typeof_string_cases.
  - (* a nested schema *)
    destruct (nullish_js data) eqn:Hnull.
    + rewrite (read_nullish _ _ Hnull). cbn [bind]. split; discriminate.
    + destruct (read E data key) as [v |]; cbn [bind]; [| split; discriminate].
      destruct (present E data key); cbn [bind andb]; [| split; discriminate].
      unfold expect_string_toBe.
      destruct (String.eqb (typeof_js E v) "object"); cbn [bind andb];
        [apply IH | split; discriminate].
Qed.

(** One entry of the loop returns or fails an assertion, if the
    recursive call does. *)
Lemma check_entry_kind data key declared (nested : jsval builtin -> result unit) :
  plain_key key = true ->
  nullish_js data = false ->
  match read E data key with
  | Ok x =>
      match declared with
      | VString _ => True
      | VObject _ => String.eqb (typeof_js E x) "object" = true -> assertion_or_ok (nested x)
      | _ => False
      end
  | Throw _ => False
  end ->
  assertion_or_ok (check_entry E data key declared nested).
Proof.
  intros Hplain Hnull IH. unfold assertion_or_ok in *.
  destruct (read E data key) as [x |] eqn:Hread; [| contradiction].
  destruct declared as [| | b | y | s | items | fields]; try contradiction;
    unfold check_entry, is_array_keyword; simpl typeof; simpl andb;
    rewrite ?(toHaveProperty_plain data key Hplain), Hnull, Hread.
  - unfold expect_bool_toBe, expect_string_toBe.
    destruct (String.eqb s "array"); cbn [bind].
    + destruct (isArray_js E x); simpl; auto.
    + destruct (present E data key); cbn [bind]; auto.
      destruct (String.eqb (typeof_js E x) s); auto.
  - destruct (present E data key); cbn [bind]; auto.
    unfold expect_string_toBe.
    destruct (String.eqb (typeof_js E x) "object"); cbn [bind]; auto.
Qed.

Lemma validateSchema_listed_iff schema :
  well_formed schema = true -> plain_keys schema = true ->
  forall data, validateSchema_listed E data schema = Ok tt <-> satisfies E data schema = true.
Proof.
  induction schema as [| | b | x | s | items _ | fields IH] using value_nested_ind;
    try discriminate.
  induction fields as [| [key declared] rest IHrest]; intros Hwf Hplain data.
  - split; reflexivity.
  - rewrite well_formed_cons in Hwf. apply andb_prop in Hwf as [Hdecl Hrest].
    rewrite plain_keys_cons in Hplain. apply andb_prop in Hplain as [Hplain Hprest].
    apply andb_prop in Hplain as [Hkey Hpdecl].
    inversion IH as [| ? ? IHdecl IHtail]; subst. simpl in IHdecl.
    rewrite validateSchema_listed_cons, satisfies_cons, andb_true_iff.
    rewrite <- (IHrest IHtail Hrest Hprest data).
    rewrite <- (check_entry_iff data key declared
                  (fun d => validateSchema_listed E d declared)
                  (fun v => satisfies E v declared) Hkey).
    + destruct (check_entry E data key declared _) as [[] | e]; simpl;
        [tauto | split; [discriminate | intros [H _]; discriminate H]].
    + destruct declared; try discriminate Hdecl; [exact I | apply IHdecl; assumption].
Qed.

Lemma validateSchema_listed_kind schema :
  well_formed schema = true -> plain_keys schema = true ->
  forall data, null_free E data schema = true ->
  assertion_or_ok (validateSchema_listed E data schema).
Proof.
  induction schema as [| | b | x | s | items _ | fields IH] using value_nested_ind;
    try discriminate.
  induction fields as [| [key declared] rest IHrest]; intros Hwf Hplain data Hfree.
  - left; reflexivity.
  - pose proof (null_free_not_nullish _ _ Hfree) as Hnull.
    rewrite well_formed_cons in Hwf. apply andb_prop in Hwf as [Hdecl Hrest].
    rewrite plain_keys_cons in Hplain. apply andb_prop in Hplain as [Hplain Hprest].
    apply andb_prop in Hplain as [Hkey Hpdecl].
    rewrite null_free_cons in Hfree. apply andb_prop in Hfree as [Hfield Hfree].
    inversion IH as [| ? ? IHdecl IHtail]; subst. simpl in IHdecl.
    rewrite validateSchema_listed_cons.
    assert (Hentry : assertion_or_ok
              (check_entry E data key declared
                 (fun d => validateSchema_listed E d declared))).
    { apply check_entry_kind; [exact Hkey | exact Hnull |].
      destruct (read E data key) as [x |]; [| discriminate Hfield].
      destruct declared; try discriminate Hdecl; [exact I |].
      intros Hobject. rewrite Hobject in Hfield. apply IHdecl; assumption. }
    destruct Hentry as [-> | ->]; simpl.
    + apply IHrest; assumption.
    + right; reflexivity.
Qed.

End ValidateSchemaProofs.

(** *** The order of [Object.entries] *)

Lemma insert_entry_perm (n : Z) (entry : string * value) sorted :
  Permutation (insert_entry n entry sorted) ((n, entry) :: sorted).
Proof.
  induction sorted as [| [m e] rest IH]; [reflexivity |].
  cbn [insert_entry]. destruct (n <=? m); [reflexivity |].
  rewrite IH. apply perm_swap.
Qed.

Lemma own_entries_perm (fields : list (string * value)) :
  Permutation (own_entries fields) fields.
Proof.
  unfold own_entries. induction fields as [| [key v] rest IH]; [reflexivity |].
  cbn [indexed_entries named_entries]. destruct (array_index key) as [n |].
  - rewrite insert_entry_perm. cbn [map snd app]. now rewrite IH.
  - rewrite <- Permutation_middle. now rewrite IH.
Qed.

Lemma forallb_perm {A : Type} (f : A -> bool) (l l' : list A) :
  Permutation l l' -> forallb f l = forallb f l'.
Proof.
  induction 1 as [| x l l' _ IH | x y l | l l' l'' _ IH1 _ IH2]; cbn [forallb].
  - reflexivity.
  - now rewrite IH.
  - destruct (f x), (f y); reflexivity.
  - now rewrite IH1.
Qed.

Lemma in_entries_order_object (fields : list (string * value)) :
  in_entries_order (VObject fields) = VObject (own_entries (map listed_entry fields)).
Proof.
  cbn [in_entries_order]. do 2 f_equal.
  induction fields as [| [key v] rest IH]; [reflexivity |].
  cbn [map fst snd]. now rewrite <- IH.
Qed.

Lemma forallb_listed (g : string * value -> bool) (fields : list (string * value)) :
  Forall (fun entry => g (listed_entry entry) = g entry) fields ->
  forallb g (own_entries (map listed_entry fields)) = forallb g fields.
Proof.
  intros Hsame. rewrite (forallb_perm g _ _ (own_entries_perm _)).
  induction Hsame as [| entry rest Hentry _ IH]; [reflexivity |].
  cbn [map forallb]. now rewrite Hentry, IH.
Qed.

Lemma well_formed_forallb (fields : list (string * value)) :
  well_formed (VObject fields) =
  forallb (fun entry => match snd entry with
                        | VString _ => true
                        | VObject _ => well_formed (snd entry)
                        | _ => false
                        end) fields.
Proof.
  induction fields as [| [key v] rest IH]; [reflexivity |].
  rewrite well_formed_cons, IH. reflexivity.
Qed.

Lemma plain_keys_forallb (fields : list (string * value)) :
  plain_keys (VObject fields) =
  forallb (fun entry => plain_key (fst entry) && plain_keys (snd entry)) fields.
Proof.
  induction fields as [| [key v] rest IH]; [reflexivity |].
  rewrite plain_keys_cons, IH. reflexivity.
Qed.

Lemma well_formed_listed (schema : value) :
  well_formed (in_entries_order schema) = well_formed schema.
Proof.
  induction schema as [| | b | x | s | items _ | fields IH] using value_nested_ind;
    try reflexivity.
  rewrite in_entries_order_object, !well_formed_forallb.
  apply forallb_listed.
  induction IH as [| [key v] rest Hv _ IHrest]; constructor; [| exact IHrest].
  cbn [fst snd] in *. destruct v; try reflexivity.
  rewrite in_entries_order_object in *. exact Hv.
Qed.

Lemma plain_keys_listed (schema : value) :
  plain_keys (in_entries_order schema) = plain_keys schema.
Proof.
  induction schema as [| | b | x | s | items _ | fields IH] using value_nested_ind;
    try reflexivity.
  rewrite in_entries_order_object, !plain_keys_forallb.
  apply forallb_listed.
  induction IH as [| [key v] rest Hv _ IHrest]; constructor; [| exact IHrest].
  cbn [fst snd] in *. now rewrite Hv.
Qed.

Section Listed.

Context {builtin : Type} (E : engine builtin).

Implicit Types (data : jsval builtin) (schema declared : value) (key : string).

Lemma satisfies_forallb data (fields : list (string * value)) :
  satisfies E data (VObject fields) =
  forallb (fun entry => field_satisfies E data (fst entry) (snd entry)
                          (fun v => satisfies E v (snd entry))) fields.
Proof.
  induction fields as [| [key v] rest IH]; [reflexivity |].
  rewrite satisfies_cons, IH. reflexivity.
Qed.

Lemma null_free_forallb data (fields : list (string * value)) :
  null_free E data (VObject fields) =
  negb (nullish_js data) &&
  forallb (fun entry =>
             match read E data (fst entry) with
             | Ok x =>
                 match snd entry with
                 | VObject _ =>
                     if String.eqb (typeof_js E x) "object"
                     then null_free E x (snd entry) else true
                 | _ => true
                 end
             | Throw _ => false
             end) fields.
Proof.
  induction fields as [| [key v] rest IH]; [reflexivity |].
  rewrite null_free_cons, IH. cbn [forallb fst snd].
  destruct (negb (nullish_js data)) eqn:Hnull; cbn [andb]; [reflexivity |].
  apply negb_false_iff in Hnull. rewrite (read_nullish E _ _ Hnull). reflexivity.
Qed.

Lemma satisfies_listed schema :
  forall data, satisfies E data (in_entries_order schema) = satisfies E data schema.
Proof.
  induction schema as [| | b | x | s | items _ | fields IH] using value_nested_ind;
    try reflexivity.
  intros data. rewrite in_entries_order_object, !satisfies_forallb.
  apply forallb_listed.
  induction IH as [| [key v] rest Hv _ IHrest]; constructor; [| exact IHrest].
  cbn [fst snd] in *. unfold field_satisfies.
  destruct (read E data key) as [x |]; [| reflexivity].
  destruct v; try reflexivity.
  rewrite in_entries_order_object in *. now rewrite Hv.
Qed.

Lemma null_free_listed schema :
  forall data, null_free E data (in_entries_order schema) = null_free E data schema.
Proof.
  induction schema as [| | b | x | s | items _ | fields IH] using value_nested_ind;
    try reflexivity.
  intros data. rewrite in_entries_order_object, !null_free_forallb. f_equal.
  apply forallb_listed.
  induction IH as [| [key v] rest Hv _ IHrest]; constructor; [| exact IHrest].
  cbn [fst snd] in *.
  destruct (read E data key) as [x |]; [| reflexivity].
  destruct v; try reflexivity.
  rewrite in_entries_order_object in *. now rewrite Hv.
Qed.

End Listed.

(** C1 (amended). For a schema whose fields are type names, ["array"] or
    nested schemas, under names without a dot or a bracket,
    [validateSchema(data, schema)] returns exactly when every declared
    field satisfies its declaration (a type name: present with that
    [typeof]; ["array"]: an array; a nested schema: present, [typeof]
    ["object"] and the nested schema satisfied). When it does not return
    it throws, and what it throws is an assertion failure whenever [data]
    is neither [null] nor [undefined] and no field declared with a nested
    schema holds [null]. This holds on every engine, whatever its
    built-in prototypes carry. *)
Theorem validateSchema_accepts_iff_satisfies {builtin : Type} (E : engine builtin)
    (data : jsval builtin) (schema : value) :
  well_formed schema = true -> plain_keys schema = true ->
  (validateSchema E data schema = Ok tt <-> satisfies E data schema = true) /\
  (null_free E data schema = true -> satisfies E data schema = false ->
   validateSchema E data schema = Throw AssertionError).
Proof.
  intros Hwf Hplain. unfold validateSchema.
  rewrite <- well_formed_listed in Hwf. rewrite <- plain_keys_listed in Hplain.
  rewrite <- (satisfies_listed E schema data), <- (null_free_listed E schema data).
  split.
  - apply validateSchema_listed_iff; assumption.
  - intros Hfree Hnot.
    destruct (validateSchema_listed_kind E _ Hwf Hplain data Hfree) as [Hok | Hfail];
      [| exact Hfail].
    apply (validateSchema_listed_iff E _ Hwf Hplain) in Hok. congruence.
Qed.

Lemma validateSchema_accepts_iff_satisfies_witness :
  validateSchema bare (Data sample_user) userSchema = Ok tt /\
  validateSchema bare (Data sample_user_no_email) userSchema = Throw AssertionError.
Proof.
  split.
  - apply (validateSchema_accepts_iff_satisfies bare (Data sample_user) userSchema);
      reflexivity.
  - apply (validateSchema_accepts_iff_satisfies bare (Data sample_user_no_email)
             userSchema); reflexivity.
Defined.

(** On every engine: a field declared with a nested schema that holds
    [null] passes the [typeof] check; the nested field declared ["array"]
    then reads a property of [null], a [TypeError], and one declared with
    a type name gives [null] to the matcher, which throws a plain
    [Error]. And the matcher reads the name ["a.b"] as the path to [b] in
    [a]: unless the data inherit an [a], the field ["a.b"] that is
    present with the declared [typeof] is rejected. *)
Lemma validateSchema_failures {builtin : Type} (E : engine builtin) :
  let data := Data (VObject [("a", VNull)]) in
  let dotted := VObject [("a.b", VNumber 1)] in
  validateSchema E data (VObject [("a", VObject [("b", VString "array")])])
  = Throw TypeError /\
  validateSchema E data (VObject [("a", VObject [("b", VString "string")])])
  = Throw MatcherError /\
  (inherited E dotted "a" = None ->
   satisfies E (Data dotted) (VObject [("a.b", VString "number")]) = true /\
   validateSchema E (Data dotted) (VObject [("a.b", VString "number")])
   = Throw AssertionError).
Proof.
  cbv zeta. split; [reflexivity |]. split; [reflexivity |].
  intros Hnone. split; [reflexivity |].
  unfold validateSchema.
  replace (in_entries_order (VObject [("a.b", VString "number")]))
    with (VObject [("a.b", VString "number")]) by reflexivity.
  rewrite validateSchema_listed_cons. unfold check_entry, expect_toHaveProperty.
  replace (pathAsArray "a.b") with ["a"; "b"] by reflexivity.
  cbn [typeof isArray String.eqb Ascii.eqb Bool.eqb andb negb is_array_keyword
       nullish_js nullish hasEndProp read own_field assoc bind].
  rewrite Hnone. reflexivity.
Qed.

(** C1 as stated fails. With data [{a: null}], the schema
    [{a: {b: 'array'}}] ends in a [TypeError] and [{a: {b: 'string'}}] in
    the plain [Error] of the matcher: neither is an assertion failure.
    And the field ["a.b"] of [{"a.b": 1}] is present with the [typeof]
    that [{"a.b": 'number'}] declares, yet the validator rejects it. *)
Lemma validateSchema_counterexample :
  let data := Data (VObject [("a", VNull)]) in
  let dotted := Data (VObject [("a.b", VNumber 1)]) in
  (well_formed (VObject [("a", VObject [("b", VString "array")])]) = true /\
   satisfies bare data (VObject [("a", VObject [("b", VString "array")])]) = false /\
   validateSchema bare data (VObject [("a", VObject [("b", VString "array")])])
   = Throw TypeError) /\
  (well_formed (VObject [("a", VObject [("b", VString "string")])]) = true /\
   satisfies bare data (VObject [("a", VObject [("b", VString "string")])]) = false /\
   validateSchema bare data (VObject [("a", VObject [("b", VString "string")])])
   = Throw MatcherError) /\
  (well_formed (VObject [("a.b", VString "number")]) = true /\
   satisfies bare dotted (VObject [("a.b", VString "number")]) = true /\
   validateSchema bare dotted (VObject [("a.b", VString "number")])
   = Throw AssertionError).
Proof. cbv zeta. repeat split. Qed.

(** ** Numbers that compare equal to zero *)

Lemma Prim2SF_zero_cases (x : float) (s : bool) :
  Prim2SF x = S754_zero s -> x = 0%float \/ x = (-0)%float.
Proof.
  intros E. rewrite <- (SF2Prim_Prim2SF x), E.
  destruct s; [right | left]; reflexivity.
Qed.

Lemma zero_eqb_cases (x : float) :
  PrimFloat.eqb 0 x = true -> x = 0%float \/ x = (-0)%float.
Proof.
  rewrite FloatAxioms.eqb_spec. destruct (Prim2SF x) as [s | s | | s m e] eqn:E.
  - intros _. exact (Prim2SF_zero_cases x s E).
  - destruct s; discriminate.
  - discriminate.
  - destruct s; discriminate.
Qed.

Lemma eqb_zero_cases (x : float) :
  PrimFloat.eqb x 0 = true -> x = 0%float \/ x = (-0)%float.
Proof.
  rewrite FloatAxioms.eqb_spec. destruct (Prim2SF x) as [s | s | | s m e] eqn:E.
  - intros _. exact (Prim2SF_zero_cases x s E).
  - destruct s; discriminate.
  - discriminate.
  - destruct s; discriminate.
Qed.

(** ** The Slack message *)

Import SlackNotify.

(** The message always has the three fixed blocks first. *)
Lemma createSlackMessage_fields (env : gmap string string) (r : results)
    (options : gmap string string) :
  let message := createSlackMessage env r options in
  color_field message = Some (VString (color_of r)) /\
  header_text message =
    Some (VString (emoji_of r ++ " "
                   ++ text (or_else (options !! "projectName") (Some "API Testing Demo"))
                   ++ " - 測試結果")) /\
  status_field message =
    Some (VString ("*狀態:*" ++ nl ++
                   (if String.eqb (status_of r) "success"
                    then "通過 :tada:" else "失敗 :warning:"))) /\
  context_line message =
    Some (VString ("總測試數: " ++ JsNumber.toString (total_of r) ++ " | 通過率: "
                   ++ fst (pass_rate r) ++ "%")).
Proof.
  unfold createSlackMessage, createSlackMessage_traced.
  destruct (pass_rate r) as [rate divisions].
  destruct (truthy (run_url env options)); repeat split.
Qed.

(** C2 (amended). For the summary [{passed: 5, failed: 1, skipped: 0,
    duration: 12.3}] the status field of the payload reads
    ["*狀態:*\n失敗 :warning:"], the color is the red ["#dc3545"], the
    header starts with [":x:"], and the context line reads
    ["總測試數: 6 | 通過率: 83.3%"]. *)
Theorem createSlackMessage_example (env options : gmap string string) :
  let message := createSlackMessage env example_results options in
  status_of example_results = "failure" /\
  status_field message = Some (VString ("*狀態:*" ++ nl ++ "失敗 :warning:")) /\
  color_field message = Some (VString "#dc3545") /\
  (exists title, header_text message = Some (VString (":x: " ++ title))) /\
  context_line message = Some (VString "總測試數: 6 | 通過率: 83.3%").
Proof.
  destruct (createSlackMessage_fields env example_results options)
    as (Hcolor & Hheader & Hstatus & Hcontext).
  cbv zeta. rewrite Hcolor, Hheader, Hstatus, Hcontext.
  split; [reflexivity |]. split; [reflexivity |]. split; [reflexivity |].
  split; [eexists; reflexivity |].
  vm_compute. reflexivity.
Qed.

(** C2 as stated fails: neither the status the code computes nor the
    status field of the payload reads ["failed"]. *)
Lemma createSlackMessage_status_counterexample :
  status_of example_results <> "failed" /\
  status_field (createSlackMessage ∅ example_results ∅)
  = Some (VString ("*狀態:*" ++ nl ++ "失敗 :warning:")) /\
  contains "failed" ("*狀態:*" ++ nl ++ "失敗 :warning:") = false.
Proof. split; [discriminate | split; vm_compute; reflexivity]. Qed.

Lemma createSlackMessage_divisions (env : gmap string string) (r : results)
    (options : gmap string string) :
  snd (createSlackMessage_traced env r options) = snd (pass_rate r).
Proof.
  unfold createSlackMessage_traced. destruct (pass_rate r) as [rate divisions].
  reflexivity.
Qed.

(** Every division the message evaluates has a divisor above zero. *)
Lemma createSlackMessage_divisors_positive (env : gmap string string) (r : results)
    (options : gmap string string) :
  Forall (fun division => PrimFloat.ltb 0 (snd division) = true)
         (snd (createSlackMessage_traced env r options)).
Proof.
  rewrite createSlackMessage_divisions. unfold pass_rate.
  destruct (PrimFloat.ltb 0 (total_of r)) eqn:Hpos; simpl; repeat constructor.
  exact Hpos.
Qed.

(** C3. With [passed], [failed] and [skipped] all zero the message
    evaluates no division at all, and its context line reports a pass
    rate of 0% of 0 tests, whatever the duration, the options and the
    environment. *)
Theorem createSlackMessage_zero_total (env : gmap string string) (r : results)
    (options : gmap string string) :
  PrimFloat.eqb (passed r) 0 = true ->
  PrimFloat.eqb (failed r) 0 = true ->
  PrimFloat.eqb (skipped r) 0 = true ->
  snd (createSlackMessage_traced env r options) = [] /\
  context_line (createSlackMessage env r options)
  = Some (VString "總測試數: 0 | 通過率: 0%").
Proof.
  intros Hp Hf Hs.
  destruct (createSlackMessage_fields env r options) as (_ & _ & _ & ->).
  rewrite createSlackMessage_divisions.
  unfold pass_rate, total_of.
  destruct (eqb_zero_cases _ Hp) as [-> | ->],
           (eqb_zero_cases _ Hf) as [-> | ->],
           (eqb_zero_cases _ Hs) as [-> | ->];
    split; vm_compute; reflexivity.
Qed.

Lemma createSlackMessage_zero_total_witness :
  snd (createSlackMessage_traced ∅
         {| passed := 0; failed := 0; skipped := 0; duration := 12.3 |} ∅) = [] /\
  context_line (createSlackMessage ∅
         {| passed := 0; failed := 0; skipped := 0; duration := 12.3 |} ∅)
  = Some (VString "總測試數: 0 | 通過率: 0%").
Proof.
  apply (createSlackMessage_zero_total ∅
           {| passed := 0; failed := 0; skipped := 0; duration := 12.3 |} ∅);
    reflexivity.
Defined.

(** C10. Status, color and emoji follow [failed > 0] alone: with
    [failed] zero the message reads success (green, [:white_check_mark:]),
    also when nothing passed; with [failed] above zero it reads failure
    (red, [:x:]); two summaries that agree on [failed > 0] get the same
    status, color and emoji. *)
Theorem status_follows_failed (env : gmap string string) (r : results)
    (options : gmap string string) :
  let message := createSlackMessage env r options in
  (PrimFloat.eqb (failed r) 0 = true ->
   status_of r = "success" /\
   color_field message = Some (VString "#28a745") /\
   (exists title, header_text message = Some (VString (":white_check_mark: " ++ title))) /\
   status_field message = Some (VString ("*狀態:*" ++ nl ++ "通過 :tada:"))) /\
  (PrimFloat.ltb 0 (failed r) = true ->
   status_of r = "failure" /\
   color_field message = Some (VString "#dc3545") /\
   (exists title, header_text message = Some (VString (":x: " ++ title))) /\
   status_field message = Some (VString ("*狀態:*" ++ nl ++ "失敗 :warning:"))) /\
  (forall r' : results,
     PrimFloat.ltb 0 (failed r') = PrimFloat.ltb 0 (failed r) ->
     status_of r' = status_of r /\ color_of r' = color_of r /\ emoji_of r' = emoji_of r).
Proof.
  destruct (createSlackMessage_fields env r options)
    as (Hcolor & Hheader & Hstatus & _).
  cbv zeta. rewrite Hcolor, Hheader, Hstatus.
  unfold status_of, color_of, emoji_of. split; [| split].
  - intros Hzero.
    assert (Hnot : PrimFloat.ltb 0 (failed r) = false)
      by (destruct (eqb_zero_cases _ Hzero) as [-> | ->]; reflexivity).
    rewrite Hnot. repeat split. eexists; reflexivity.
  - intros ->. repeat split. eexists; reflexivity.
  - intros r' ->. repeat split.
Qed.

Lemma status_follows_failed_witness :
  status_of {| passed := 0; failed := 0; skipped := 7; duration := 1.5 |} = "success" /\
  status_of example_results = "failure".
Proof.
  split.
  - apply (status_follows_failed ∅
             {| passed := 0; failed := 0; skipped := 7; duration := 1.5 |} ∅).
    reflexivity.
  - apply (status_follows_failed ∅ example_results ∅). reflexivity.
Defined.

(** ** The action button *)

Lemma truthy_or_else (a b : option string) :
  truthy (or_else a b) = truthy a || truthy b.
Proof. unfold or_else. destruct (truthy a) eqn:Ha; [exact Ha | reflexivity]. Qed.

Lemma append_slash_nonempty (a rest : string) :
  String.eqb (a ++ "/" ++ rest) "" = false.
Proof. destruct a; reflexivity. Qed.

(** The run URL, when there is one, is built from the environment. *)
Lemma run_url_cases (env options : gmap string string) :
  run_url env options =
  if truthy (options !! "runUrl") || truthy (env !! "GITHUB_SERVER_URL")
  then Some (text (env !! "GITHUB_SERVER_URL") ++ "/"
             ++ text (env !! "GITHUB_REPOSITORY") ++ "/actions/runs/"
             ++ text (env !! "GITHUB_RUN_ID"))
  else None.
Proof. unfold run_url. now rewrite truthy_or_else. Qed.

(** The payload has an actions block exactly when [options.runUrl] or
    the server URL of the environment is set, and its button then links
    to the URL built from the environment. *)
Lemma button_urls_cases (env : gmap string string) (r : results)
    (options : gmap string string) :
  button_urls (createSlackMessage env r options) =
  if truthy (options !! "runUrl") || truthy (env !! "GITHUB_SERVER_URL")
  then [VString (text (env !! "GITHUB_SERVER_URL") ++ "/"
                 ++ text (env !! "GITHUB_REPOSITORY") ++ "/actions/runs/"
                 ++ text (env !! "GITHUB_RUN_ID"))]
  else [].
Proof.
  unfold createSlackMessage, createSlackMessage_traced.
  rewrite run_url_cases. destruct (pass_rate r) as [rate divisions].
  destruct (truthy (options !! "runUrl") || truthy (env !! "GITHUB_SERVER_URL")).
  - unfold truthy at 1. rewrite append_slash_nonempty. reflexivity.
  - reflexivity.
Qed.

(** C9, at the failing input: with [options.runUrl] supplied and no
    GitHub variables in the environment, the button links to
    ["undefined/undefined/actions/runs/undefined"], not to the supplied
    URL. *)
Theorem createSlackMessage_runUrl_not_used :
  button_urls
    (createSlackMessage ∅ example_results {[ "runUrl" := "https://ci.example.com/runs/7" ]})
  = [VString "undefined/undefined/actions/runs/undefined"] /\
  ~ In (VString "https://ci.example.com/runs/7")
       (button_urls
          (createSlackMessage ∅ example_results
             {[ "runUrl" := "https://ci.example.com/runs/7" ]})).
Proof.
  rewrite button_urls_cases. vm_compute. split; [reflexivity |].
  intros [H | []]. discriminate H.
Qed.

(** ** [sendSlackNotification] *)

Import Effect.

(** C4. With [SLACK_WEBHOOK_URL] unset the call returns [false] and the
    trace of what it did holds no network call, for every message and
    every behaviour of the network. *)
Theorem sendSlackNotification_unset (env : gmap string string) (message : value)
    (w : world) :
  env !! "SLACK_WEBHOOK_URL" = None ->
  fst (sendSlackNotification env message w) = Ok false /\
  network_calls (snd (sendSlackNotification env message w)) = [].
Proof.
  intros Hunset. unfold sendSlackNotification. rewrite Hunset. split; reflexivity.
Qed.

Lemma sendSlackNotification_unset_witness :
  fst (sendSlackNotification ∅ (createSlackMessage ∅ example_results ∅)
         (answering {| ok := true; status := 200; statusText := "OK" |})) = Ok false /\
  network_calls
    (snd (sendSlackNotification ∅ (createSlackMessage ∅ example_results ∅)
            (answering {| ok := true; status := 200; statusText := "OK" |}))) = [].
Proof.
  apply (sendSlackNotification_unset ∅ (createSlackMessage ∅ example_results ∅)
           (answering {| ok := true; status := 200; statusText := "OK" |})).
  reflexivity.
Defined.

(** What the call does once the address is set, by the outcome of the
    one [fetch]. *)
Lemma sendSlackNotification_set (env : gmap string string) (message : value)
    (w : world) (url : string) :
  env !! "SLACK_WEBHOOK_URL" = Some url -> url <> "" ->
  sendSlackNotification env message w =
  match fetch_reply w url (post_request message) with
  | Resolves r =>
      if ok r
      then (Ok true,
            [Fetch url (post_request message);
             ConsoleLog [VString "Slack 通知發送成功!"]])
      else (Ok false,
            [Fetch url (post_request message);
             ConsoleError [VString "Slack 通知發送失敗:"; VNumber (status r);
                           VString (statusText r)]])
  | Rejects reason =>
      (Ok false,
       [Fetch url (post_request message);
        ConsoleError [VString "發送 Slack 通知時發生錯誤:"; VString reason]])
  end.
Proof.
  intros Hset Hne. unfold sendSlackNotification. rewrite Hset.
  assert (Htruthy : truthy (Some url) = true).
  { simpl. destruct (String.eqb_spec url ""); [contradiction | reflexivity]. }
  rewrite Htruthy. cbn [negb text].
  unfold try_catch, seq, fetch.
  destruct (fetch_reply w url (post_request message)) as [r | reason].
  - destruct (ok r); reflexivity.
  - reflexivity.
Qed.

Lemma truthy_set (o : option string) :
  truthy o = true <-> exists url, o = Some url /\ url <> "".
Proof.
  destruct o as [url |]; simpl.
  - destruct (String.eqb_spec url "") as [-> | Hne]; simpl; split.
    + discriminate.
    + intros (url & Heq & Hne). injection Heq as <-. contradiction.
    + intros _. exists url. split; [reflexivity | assumption].
    + reflexivity.
  - split; [discriminate | intros (url & Heq & _); discriminate Heq].
Qed.

(** What the call does while the address is unset or empty. *)
Lemma sendSlackNotification_not_set (env : gmap string string) (message : value)
    (w : world) :
  truthy (env !! "SLACK_WEBHOOK_URL") = false ->
  sendSlackNotification env message w =
  (Ok false,
   [ConsoleError [VString "錯誤: SLACK_WEBHOOK_URL 環境變數未設定"];
    ConsoleLog [VString ("請設定: export SLACK_WEBHOOK_URL="
                         ++ String dquote ("your-webhook-url" ++ String dquote ""))]]).
Proof. intros Hunset. unfold sendSlackNotification. rewrite Hunset. reflexivity. Qed.

(** The run is given; what is left are the properties of its trace. *)
Ltac returned b :=
  exists b; eexists; split; [reflexivity |]; simpl;
  split; [lia |]; split; [try reflexivity; try discriminate |].

Ltac error_logged := intros _; eexists; simpl; eauto.

(** C5. The call always returns a boolean and never throws. It makes at
    most one network call, exactly one when the address is set. It
    returns [true] exactly when the address is set and the one response
    is successful; when the [fetch] is rejected or the response is not
    successful it writes to the error log and returns [false]. *)
Theorem sendSlackNotification_never_throws (env : gmap string string)
    (message : value) (w : world) :
  exists (b : bool) (t : list event),
    sendSlackNotification env message w = (Ok b, t) /\
    (List.length (network_calls t) <= 1)%nat /\
    (truthy (env !! "SLACK_WEBHOOK_URL") = true ->
     List.length (network_calls t) = 1%nat) /\
    (b = true <->
     exists url r,
       env !! "SLACK_WEBHOOK_URL" = Some url /\ url <> "" /\
       fetch_reply w url (post_request message) = Resolves r /\ ok r = true) /\
    (b = false -> logs_error t).
Proof.
  destruct (truthy (env !! "SLACK_WEBHOOK_URL")) eqn:Haddress.
  - apply truthy_set in Haddress as (url & Hurl & Hne).
    rewrite (sendSlackNotification_set env message w url Hurl Hne).
    destruct (fetch_reply w url (post_request message)) as [r | reason] eqn:Hreply;
      [destruct (ok r) eqn:Hok |].
    + returned true. split; [| discriminate].
      split; [| reflexivity]. intros _. exists url, r. auto.
    + returned false. split; [| error_logged].
      split; [discriminate |]. intros (url' & r' & Heq & _ & Hr & Hok').
      rewrite Hurl in Heq. injection Heq as <-. rewrite Hreply in Hr.
      injection Hr as <-. congruence.
    + returned false. split; [| error_logged].
      split; [discriminate |]. intros (url' & r' & Heq & _ & Hr & _).
      rewrite Hurl in Heq. injection Heq as <-. rewrite Hreply in Hr. discriminate Hr.
  - rewrite (sendSlackNotification_not_set env message w Haddress).
    returned false. split; [| error_logged].
    split; [discriminate |]. intros (url & r & Hurl & Hne & _).
    assert (Hset : truthy (env !! "SLACK_WEBHOOK_URL") = true)
      by (apply truthy_set; eauto).
    congruence.
Qed.

Lemma sendSlackNotification_never_throws_witness :
  exists (b : bool) (t : list event),
    sendSlackNotification {[ "SLACK_WEBHOOK_URL" := "https://hooks.example.com/T0" ]}
      (createSlackMessage ∅ example_results ∅)
      (answering {| ok := false; status := 500; statusText := "Server Error" |})
    = (Ok b, t) /\
    (List.length (network_calls t) <= 1)%nat /\ logs_error t.
Proof.
  destruct (sendSlackNotification_never_throws
              {[ "SLACK_WEBHOOK_URL" := "https://hooks.example.com/T0" ]}
              (createSlackMessage ∅ example_results ∅)
              (answering {| ok := false; status := 500; statusText := "Server Error" |}))
    as (b & t & Hrun & Hcalls & _ & _ & Hlog).
  exists b, t. split; [exact Hrun |]. split; [exact Hcalls |].
  apply Hlog. vm_compute in Hrun. congruence.
Defined.

(** ** The summary read from a report file *)

Lemma or_zero_same (x : option float) :
  no_nan x -> same_number (or_zero x) (field_or_zero x).
Proof.
  intros Hnan. destruct x as [n |]; [| left; reflexivity].
  specialize (Hnan n eq_refl). unfold or_zero, field_or_zero, JsNumber.truthy.
  rewrite Hnan, andb_true_r.
  destruct (PrimFloat.eqb 0 n) eqn:Hzero; [right; exact Hzero | left; reflexivity].
Qed.

Lemma or_zero_div_same (x : option float) :
  no_nan x ->
  same_number (or_zero x / 1000)%float (field_or_zero x / 1000)%float.
Proof.
  intros Hnan. destruct x as [n |]; [| left; reflexivity].
  specialize (Hnan n eq_refl). unfold or_zero, field_or_zero, JsNumber.truthy.
  rewrite Hnan, andb_true_r.
  destruct (PrimFloat.eqb 0 n) eqn:Hzero; [| left; reflexivity].
  destruct (zero_eqb_cases n Hzero) as [-> | ->]; [left | right]; reflexivity.
Qed.

(** C8. From a report [{stats: {expected, unexpected, skipped,
    duration}}] whose fields are numbers or missing, the summary has
    [passed = stats.expected], [failed = stats.unexpected],
    [skipped = stats.skipped] and [duration = stats.duration / 1000],
    a missing field (or a missing [stats]) counting as 0. *)
Theorem results_from_report_fields (data : Report.report) :
  no_nan (stats_field data Report.expected) ->
  no_nan (stats_field data Report.unexpected) ->
  no_nan (stats_field data Report.skipped) ->
  no_nan (stats_field data Report.duration) ->
  exists r : results,
    results_from_report (Some data) = Some r /\
    same_number (passed r) (field_or_zero (stats_field data Report.expected)) /\
    same_number (failed r) (field_or_zero (stats_field data Report.unexpected)) /\
    same_number (skipped r) (field_or_zero (stats_field data Report.skipped)) /\
    same_number (duration r)
      (field_or_zero (stats_field data Report.duration) / 1000)%float.
Proof.
  intros He Hu Hs Hd. eexists. split; [reflexivity |]. simpl.
  repeat split; first [now apply or_zero_same | now apply or_zero_div_same].
Qed.

Lemma results_from_report_fields_witness :
  exists r : results,
    results_from_report (Some example_report) = Some r /\
    same_number (passed r) 239%float /\
    same_number (failed r) 0%float /\
    same_number (skipped r) 0%float /\
    same_number (duration r) 24.4%float.
Proof.
  apply (results_from_report_fields example_report);
    intros n Hn; vm_compute in Hn; try discriminate Hn;
    injection Hn as <-; reflexivity.
Defined.

(** ** The setup phase of the load scripts *)

(** The load test and the spike test make one request to the target and
    throw unless its status is 200. *)
Lemma load_test_setup_checks (w : world) :
  network_calls (snd (K6.load_test.setup w))
  = [HttpGet "https://jsonplaceholder.typicode.com/posts"] /\
  (PrimFloat.eqb (http_get_status w "https://jsonplaceholder.typicode.com/posts") 200
   = false ->
   K6.throws (fst (K6.load_test.setup w)) = true) /\
  (PrimFloat.eqb (http_get_status w "https://jsonplaceholder.typicode.com/posts") 200
   = true ->
   fst (K6.load_test.setup w) = Ok (VObject [("startTime", VNumber (now w))])).
Proof.
  unfold K6.load_test.setup, K6.log, K6.start_time, seq, console_log, http_get,
    throw, date_now, ret, K6.load_test.endpoints_posts, K6.BASE_URL.
  cbn [append].
  destruct (PrimFloat.eqb (http_get_status w _) 200); repeat split; discriminate.
Qed.

Lemma spike_test_setup_checks (w : world) :
  network_calls (snd (K6.spike_test.setup w))
  = [HttpGet "https://jsonplaceholder.typicode.com/posts"] /\
  (PrimFloat.eqb (http_get_status w "https://jsonplaceholder.typicode.com/posts") 200
   = false ->
   fst (K6.spike_test.setup w) = Throw (Error "API 不可用")) /\
  (PrimFloat.eqb (http_get_status w "https://jsonplaceholder.typicode.com/posts") 200
   = true ->
   fst (K6.spike_test.setup w) = Ok (VObject [("startTime", VNumber (now w))])).
Proof.
  unfold K6.spike_test.setup, K6.log, K6.start_time, seq, console_log, http_get,
    throw, date_now, ret, K6.BASE_URL.
  cbn [append].
  destruct (PrimFloat.eqb (http_get_status w _) 200); repeat split; discriminate.
Qed.

(** The stress test makes no request in its setup and always returns. *)
Lemma stress_test_setup_returns (w : world) :
  fst (K6.stress_test.setup w) = Ok (VObject [("startTime", VNumber (now w))]) /\
  network_calls (snd (K6.stress_test.setup w)) = [].
Proof. split; reflexivity. Qed.

(** C6, at the failing input: against a target that cannot be reached
    (status 0) the setup of the stress test makes no request and returns,
    where the setups of the load test and of the spike test throw. *)
Theorem stress_test_setup_no_liveness_check :
  K6.throws (fst (K6.setup_of K6.StressTest (K6.target_answering 0))) = false /\
  network_calls (snd (K6.setup_of K6.StressTest (K6.target_answering 0))) = [] /\
  K6.throws (fst (K6.setup_of K6.LoadTest (K6.target_answering 0))) = true /\
  K6.throws (fst (K6.setup_of K6.SpikeTest (K6.target_answering 0))) = true.
Proof. repeat split; vm_compute; reflexivity. Qed.

(** ** More on [validateSchema] *)

(** *** What the validator reads *)

Section ReadsDeclared.

Context {builtin : Type} (E : engine builtin).

Implicit Types (data : jsval builtin) (key : string).

Lemma check_entry_agree data data' key expectedType nested :
  plain_key key = true ->
  nullish_js data = nullish_js data' ->
  read E data key = read E data' key ->
  present E data key = present E data' key ->
  check_entry E data key expectedType nested = check_entry E data' key expectedType nested.
Proof.
  intros Hplain Hnull Hread Hpresent. unfold check_entry.
  rewrite !(toHaveProperty_plain E _ key Hplain), Hnull, Hread, Hpresent.
  reflexivity.
Qed.

Lemma validateSchema_listed_agree data data' (entries : list (string * value)) :
  nullish_js data = nullish_js data' ->
  Forall (fun entry => plain_key (fst entry) = true /\
                       read E data (fst entry) = read E data' (fst entry) /\
                       present E data (fst entry) = present E data' (fst entry))
         entries ->
  validateSchema_listed E data (VObject entries) =
  validateSchema_listed E data' (VObject entries).
Proof.
  intros Hnull Hagree.
  induction Hagree as [| [key declared] rest (Hplain & Hread & Hpresent) _ IH];
    [reflexivity |].
  rewrite !validateSchema_listed_cons, IH.
  now rewrite (check_entry_agree data data' key declared _ Hplain Hnull Hread Hpresent).
Qed.

(** A declaration that is neither a type name nor a nested schema fails
    its entry of the loop, whatever the data. *)
Lemma check_entry_not_type data key declared :
  is_type_or_schema declared = false ->
  check_entry E data key declared (fun d => validateSchema_listed E d declared) <> Ok tt.
Proof.
  intros Hbad. unfold check_entry.
  destruct declared as [| | b | x | s | items | fields]; try discriminate Hbad;
    cbn [typeof isArray String.eqb Ascii.eqb Bool.eqb andb negb is_array_keyword];
    (destruct (expect_toHaveProperty E data key) as [[] | e]; cbn [bind];
     [| discriminate]);
    (destruct (read E data key) as [v | e]; cbn [bind]; [| discriminate]);
    try discriminate.
  (* declared as null: the recursive call throws *)
  unfold expect_string_toBe.
  destruct (String.eqb (typeof_js E v) "object"); cbn [bind]; discriminate.
Qed.

Lemma validateSchema_listed_rejects data (entries : list (string * value)) key declared :
  In (key, declared) entries ->
  check_entry E data key declared (fun d => validateSchema_listed E d declared) <> Ok tt ->
  validateSchema_listed E data (VObject entries) <> Ok tt.
Proof.
  intros Hin Hentry. induction entries as [| [k d] rest IH]; [contradiction |].
  rewrite validateSchema_listed_cons. destruct Hin as [Heq | Hin].
  - injection Heq as -> ->.
    destruct (check_entry E data key declared _) as [[] | e];
      [contradiction | discriminate].
  - destruct (check_entry E data k d _) as [[] | e]; [exact (IH Hin) | discriminate].
Qed.

Lemma check_entry_nullish data key declared nested :
  nullish_js data = true ->
  check_entry E data key declared nested <> Ok tt.
Proof.
  intros Hnull. unfold check_entry, expect_toHaveProperty.
  rewrite (read_nullish E data key Hnull), Hnull.
  destruct (String.eqb (typeof declared) "object" && negb (isArray declared));
    [discriminate |].
  destruct (is_array_keyword declared); discriminate.
Qed.

End ReadsDeclared.

Lemma in_entries_order_kind (declared : value) :
  is_type_or_schema (in_entries_order declared) = is_type_or_schema declared.
Proof. destruct declared; reflexivity. Qed.

Lemma in_listed (fields : list (string * value)) key declared :
  In (key, declared) fields ->
  In (key, in_entries_order declared) (own_entries (map listed_entry fields)).
Proof.
  intros Hin. apply (Permutation_in _ (Permutation_sym (own_entries_perm _))).
  apply (in_map listed_entry) in Hin. exact Hin.
Qed.

(** X1. The validator reads the declared fields only: on every engine,
    two data values from which every declared field, under a name without
    a dot or a bracket, reads the same and is present alike (and which
    are both, or neither, [null] or [undefined]) get the same outcome, so
    a field the schema does not declare is never rejected. *)
Theorem validateSchema_reads_declared_fields {builtin : Type} (E : engine builtin)
    (data data' : jsval builtin) (fields : list (string * value)) :
  nullish_js data = nullish_js data' ->
  (forall key declared, In (key, declared) fields ->
                        plain_key key = true /\
                        read E data key = read E data' key /\
                        present E data key = present E data' key) ->
  validateSchema E data (VObject fields) = validateSchema E data' (VObject fields).
Proof.
  intros Hnull Hagree. unfold validateSchema. rewrite in_entries_order_object.
  apply validateSchema_listed_agree; [exact Hnull |].
  apply (Permutation_Forall (Permutation_sym (own_entries_perm _))).
  apply List.Forall_forall. intros entry Hin.
  apply in_map_iff in Hin as ([key declared] & <- & Hin).
  exact (Hagree key declared Hin).
Qed.

Lemma validateSchema_reads_declared_fields_witness :
  validateSchema bare (Data sample_user_with_extra) userSchema =
  validateSchema bare (Data sample_user) userSchema.
Proof.
  apply (validateSchema_reads_declared_fields bare (Data sample_user_with_extra)
           (Data sample_user)).
  - reflexivity.
  - intros key declared Hin. simpl in Hin.
    repeat (destruct Hin as [Heq | Hin];
            [injection Heq as <- <-; split; [| split]; reflexivity |]).
    contradiction.
Defined.

(** *** The order of the checks *)

Lemma indexed_entries_app (fields1 fields2 : list (string * value)) :
  Forall (fun entry => array_index (fst entry) = None) fields2 ->
  indexed_entries (fields1 ++ fields2)%list = indexed_entries fields1.
Proof.
  intros Hnamed. induction fields1 as [| [key v] rest IH].
  - induction Hnamed as [| [key v] rest Hkey _ IH]; [reflexivity |].
    cbn [app indexed_entries fst] in *. now rewrite Hkey.
  - cbn [app indexed_entries]. now rewrite IH.
Qed.

Lemma named_entries_app (fields1 fields2 : list (string * value)) :
  named_entries (fields1 ++ fields2)%list =
  (named_entries fields1 ++ named_entries fields2)%list.
Proof.
  induction fields1 as [| [key v] rest IH]; [reflexivity |].
  cbn [app named_entries]. destruct (array_index key); [exact IH |].
  cbn [app]. now rewrite IH.
Qed.

Lemma indexed_entries_named (fields : list (string * value)) :
  Forall (fun entry => array_index (fst entry) = None) fields ->
  indexed_entries fields = [].
Proof.
  intros Hnamed. exact (indexed_entries_app [] fields Hnamed).
Qed.

Lemma named_entries_named (fields : list (string * value)) :
  Forall (fun entry => array_index (fst entry) = None) fields ->
  named_entries fields = fields.
Proof.
  induction 1 as [| [key v] rest Hkey _ IH]; [reflexivity |].
  cbn [named_entries fst] in *. now rewrite Hkey, IH.
Qed.

Lemma own_entries_named (fields : list (string * value)) :
  Forall (fun entry => array_index (fst entry) = None) fields ->
  own_entries fields = fields.
Proof.
  intros Hnamed. unfold own_entries.
  now rewrite (indexed_entries_named _ Hnamed), (named_entries_named _ Hnamed).
Qed.

Lemma own_entries_app (fields1 fields2 : list (string * value)) :
  Forall (fun entry => array_index (fst entry) = None) fields2 ->
  own_entries (fields1 ++ fields2)%list = (own_entries fields1 ++ own_entries fields2)%list.
Proof.
  intros Hnamed. rewrite (own_entries_named fields2 Hnamed). unfold own_entries.
  rewrite (indexed_entries_app _ _ Hnamed), named_entries_app, <- app_assoc.
  now rewrite (named_entries_named _ Hnamed).
Qed.

Lemma validateSchema_listed_app {builtin : Type} (E : engine builtin)
    (data : jsval builtin) (entries1 entries2 : list (string * value)) :
  validateSchema_listed E data (VObject (entries1 ++ entries2)%list) =
  (validateSchema_listed E data (VObject entries1) >>
   validateSchema_listed E data (VObject entries2)).
Proof.
  induction entries1 as [| [key declared] rest IH].
  - reflexivity.
  - change (((key, declared) :: rest) ++ entries2)%list
      with ((key, declared) :: (rest ++ entries2))%list.
    rewrite !validateSchema_listed_cons, IH.
    destruct (check_entry E data key declared _) as [[] | e]; reflexivity.
Qed.

(** X2. The checks run in the order of [Object.entries], and the first
    failure in that order is the one thrown. When no field name of a
    second schema is an array index, validating against the fields of two
    schemas put together is validating against the first and then, if
    that returned, against the second. *)
Theorem validateSchema_app {builtin : Type} (E : engine builtin)
    (data : jsval builtin) (fields1 fields2 : list (string * value)) :
  (forall key declared, In (key, declared) fields2 -> array_index key = None) ->
  validateSchema E data (VObject (fields1 ++ fields2)%list) =
  (validateSchema E data (VObject fields1) >> validateSchema E data (VObject fields2)).
Proof.
  intros Hnamed. unfold validateSchema. rewrite !in_entries_order_object, map_app.
  rewrite own_entries_app.
  - apply validateSchema_listed_app.
  - apply List.Forall_forall. intros entry Hin.
    apply in_map_iff in Hin as ([key declared] & <- & Hin).
    exact (Hnamed key declared Hin).
Qed.

(** With data [{a: null}]: the nested schema of [a] throws a [TypeError]
    before a failing check of [b] is reached, but a failing check of the
    field [1], although added last, comes first. *)
Lemma validateSchema_app_witness :
  let data : jsval Empty_set := Data (VObject [("a", VNull)]) in
  let nested := VObject [("x", VString "array")] in
  validateSchema bare data (VObject [("a", nested); ("b", VString "number")])
  = Throw TypeError /\
  validateSchema bare data (VObject [("a", nested); ("1", VString "number")])
  = Throw AssertionError.
Proof.
  cbv zeta. split; [| reflexivity].
  change (validateSchema bare (Data (VObject [("a", VNull)]))
            (VObject ([("a", VObject [("x", VString "array")])] ++
                      [("b", VString "number")])%list) = Throw TypeError).
  rewrite (validateSchema_app bare (Data (VObject [("a", VNull)]))
             [("a", VObject [("x", VString "array")])] [("b", VString "number")]).
  - reflexivity.
  - intros key declared [Heq | []]. injection Heq as <- <-. reflexivity.
Defined.

(** X3. A field declared by anything but a type name or a nested schema (an
    array such as [['string']], a number, a boolean, [null]) makes the
    validator reject every data value, on every engine. *)
Theorem validateSchema_rejects_other_declarations {builtin : Type} (E : engine builtin)
    (data : jsval builtin) (fields : list (string * value)) (key : string)
    (declared : value) :
  In (key, declared) fields ->
  is_type_or_schema declared = false ->
  validateSchema E data (VObject fields) <> Ok tt.
Proof.
  intros Hin Hbad. unfold validateSchema. rewrite in_entries_order_object.
  apply (validateSchema_listed_rejects E data _ key (in_entries_order declared)).
  - apply in_listed. exact Hin.
  - apply check_entry_not_type. now rewrite in_entries_order_kind.
Qed.

Lemma validateSchema_rejects_other_declarations_witness :
  validateSchema bare (Data (VObject [("tags", VArray [VString "a"])]))
                 (VObject [("tags", VArray [VString "string"])]) <> Ok tt.
Proof.
  apply (validateSchema_rejects_other_declarations bare _ _ "tags"
           (VArray [VString "string"])).
  - left. reflexivity.
  - reflexivity.
Defined.

(** X4. On [null] or [undefined] data the validator returns only for the
    empty schema; any declared field makes it throw. *)
Theorem validateSchema_nullish_data {builtin : Type} (E : engine builtin)
    (data : jsval builtin) (fields : list (string * value)) :
  nullish_js data = true ->
  (validateSchema E data (VObject fields) = Ok tt <-> fields = []).
Proof.
  intros Hnull. destruct fields as [| [key declared] rest].
  - split; reflexivity.
  - split; [| discriminate]. unfold validateSchema. rewrite in_entries_order_object.
    pose proof (own_entries_perm (map listed_entry ((key, declared) :: rest))) as Hperm.
    destruct (own_entries _) as [| [k d] entries].
    + apply Permutation_nil in Hperm. discriminate Hperm.
    + intros Hok. apply (validateSchema_listed_rejects E data _ k d) in Hok;
        [destruct Hok | left; reflexivity |].
      apply check_entry_nullish. exact Hnull.
Qed.

Lemma validateSchema_nullish_data_witness :
  validateSchema bare (Data VNull) (VObject []) = Ok tt.
Proof.
  apply (validateSchema_nullish_data bare (Data VNull) []); reflexivity.
Defined.

(** ** More on the endpoint registry *)

Lemma append_cancel_l (p s s' : string) : p ++ s = p ++ s' -> s = s'.
Proof.
  induction p as [| c p IH]; intros H; [exact H |].
  change (String c (p ++ s) = String c (p ++ s')) in H.
  injection H as H. exact (IH H).
Qed.

Lemma length_append (a b : string) :
  String.length (a ++ b) = (String.length a + String.length b)%nat.
Proof.
  induction a as [| c a IH]; [reflexivity |].
  change (String c a ++ b) with (String c (a ++ b)). cbn [String.length].
  now rewrite IH.
Qed.

Lemma append_cancel_r (q s s' : string) : s ++ q = s' ++ q -> s = s'.
Proof.
  revert s'. induction s as [| c s IH]; intros s' H.
  - destruct s' as [| c' s']; [reflexivity |].
    apply (f_equal String.length) in H.
    change ("" ++ q) with q in H. rewrite length_append in H.
    cbn [String.length] in H. lia.
  - destruct s' as [| c' s'].
    + apply (f_equal String.length) in H.
      change ("" ++ q) with q in H. rewrite length_append in H.
      cbn [String.length] in H. lia.
    + change (String c (s ++ q) = String c' (s' ++ q)) in H.
      injection H as -> H. f_equal. exact (IH s' H).
Qed.

(** X5. Each path template is injective in the stringified identifier: two
    identifiers that give the same path have the same string form. *)
Theorem path_templates_injective (id id' : value) :
  (API.jsonplaceholder.post id = API.jsonplaceholder.post id' \/
   API.jsonplaceholder.user id = API.jsonplaceholder.user id' \/
   API.jsonplaceholder.postComments id = API.jsonplaceholder.postComments id' \/
   API.reqres.user id = API.reqres.user id' \/
   API.petstore.petById id = API.petstore.petById id' \/
   API.petstore.orderById id = API.petstore.orderById id' \/
   API.petstore.userByUsername id = API.petstore.userByUsername id') ->
  ToString id = ToString id'.
Proof.
  intros [H | [H | [H | [H | [H | [H | H]]]]]];
    try (apply (append_cancel_l _ _ _ H)).
  apply (append_cancel_r "/comments"), (append_cancel_l "/posts/"). exact H.
Qed.

Lemma path_templates_injective_witness :
  ToString (VNumber 7%float) = ToString (VString "7").
Proof.
  apply (path_templates_injective (VNumber 7%float) (VString "7")).
  left. vm_compute. reflexivity.
Defined.

(** X6. The identifier is inserted as it is, without escaping: an identifier
    that contains a slash reaches another route. The post whose id is
    [id ++ "/comments"] has the path of the comments of post [id]; the
    username ["login"] has the path of the login endpoint and the pet id
    ["findByStatus"] that of the status search. *)
Theorem path_templates_do_not_escape (id : value) :
  API.jsonplaceholder.post (VString (ToString id ++ "/comments"))
  = API.jsonplaceholder.postComments id /\
  API.petstore.userByUsername (VString "login") = API.petstore.userLogin /\
  API.petstore.petById (VString "findByStatus") = API.petstore.petByStatus.
Proof. repeat split. Qed.

(** ** More on the Slack message and its delivery *)

(** X7. The blocks of the payload are a header, a section and a context, in
    this order, followed by an actions block exactly when [options.runUrl]
    or the server URL of the environment is set. *)
Theorem createSlackMessage_block_types (env : gmap string string) (r : results)
    (options : gmap string string) :
  block_types (createSlackMessage env r options) =
  ([Some (VString "header"); Some (VString "section"); Some (VString "context")]
   ++ (if truthy (options !! "runUrl") || truthy (env !! "GITHUB_SERVER_URL")
       then [Some (VString "actions")] else []))%list.
Proof.
  unfold createSlackMessage, createSlackMessage_traced.
  rewrite run_url_cases. destruct (pass_rate r) as [rate divisions].
  destruct (truthy (options !! "runUrl") || truthy (env !! "GITHUB_SERVER_URL")).
  - unfold truthy at 1. rewrite append_slash_nonempty. reflexivity.
  - reflexivity.
Qed.

Lemma text_or_else_default (a : option string) (d : string) :
  text (or_else a (Some d)) = if truthy a then text a else d.
Proof. unfold or_else. destruct (truthy a); reflexivity. Qed.

Lemma truthy_text_nonempty (a : option string) : truthy a = true -> text a <> "".
Proof.
  destruct a as [s |]; simpl; [| discriminate].
  destruct (String.eqb_spec s ""); [discriminate | intros _; assumption].
Qed.

(** X8. The project name in the header is [options.projectName] unless that
    is missing or empty, then ["API Testing Demo"]; the branch is the
    first of [options.branch], [GITHUB_REF_NAME] and ["main"] that is set
    and not empty. Neither is ever empty. *)
Theorem createSlackMessage_names (env : gmap string string) (r : results)
    (options : gmap string string) :
  let projectName := first_truthy (options !! "projectName") None "API Testing Demo" in
  let branch := first_truthy (options !! "branch") (env !! "GITHUB_REF_NAME") "main" in
  header_text (createSlackMessage env r options)
  = Some (VString (emoji_of r ++ " " ++ projectName ++ " - 測試結果")) /\
  branch_field (createSlackMessage env r options)
  = Some (VString ("*分支:*" ++ nl ++ "`" ++ branch ++ "`")) /\
  projectName <> "" /\ branch <> "".
Proof.
  cbv zeta. split; [| split; [| split]].
  - destruct (createSlackMessage_fields env r options) as (_ & -> & _).
    rewrite text_or_else_default. unfold first_truthy.
    destruct (truthy (options !! "projectName")); reflexivity.
  - unfold createSlackMessage, createSlackMessage_traced.
    destruct (pass_rate r) as [rate divisions].
    assert (Hbranch :
      text (or_else (or_else (options !! "branch") (env !! "GITHUB_REF_NAME")) (Some "main"))
      = first_truthy (options !! "branch") (env !! "GITHUB_REF_NAME") "main").
    { unfold first_truthy, or_else.
      destruct (truthy (options !! "branch")) eqn:Hb; rewrite ?Hb; [reflexivity |].
      destruct (truthy (env !! "GITHUB_REF_NAME")) eqn:Hr; rewrite ?Hr; reflexivity. }
    rewrite Hbranch.
    destruct (truthy (run_url env options)); reflexivity.
  - unfold first_truthy.
    destruct (truthy (options !! "projectName")) eqn:Hp;
      [now apply truthy_text_nonempty | discriminate].
  - unfold first_truthy.
    destruct (truthy (options !! "branch")) eqn:Hb; [now apply truthy_text_nonempty |].
    destruct (truthy (env !! "GITHUB_REF_NAME")) eqn:Hr;
      [now apply truthy_text_nonempty | discriminate].
Qed.

(** X9. An empty [SLACK_WEBHOOK_URL] is as good as none: the call returns
    [false] without a network call. *)
Theorem sendSlackNotification_empty_address (env : gmap string string)
    (message : value) (w : world) :
  env !! "SLACK_WEBHOOK_URL" = Some "" ->
  fst (sendSlackNotification env message w) = Ok false /\
  network_calls (snd (sendSlackNotification env message w)) = [].
Proof.
  intros Hempty.
  rewrite (sendSlackNotification_not_set env message w); [split; reflexivity |].
  rewrite Hempty. reflexivity.
Qed.

Lemma sendSlackNotification_empty_address_witness :
  fst (sendSlackNotification {[ "SLACK_WEBHOOK_URL" := "" ]} VNull
         (answering {| ok := true; status := 200; statusText := "OK" |})) = Ok false.
Proof.
  apply (sendSlackNotification_empty_address {[ "SLACK_WEBHOOK_URL" := "" ]} VNull
           (answering {| ok := true; status := 200; statusText := "OK" |})).
  reflexivity.
Defined.

(** X10. Whatever the call sends goes to the configured address, as a POST
    with content type JSON whose body is the JSON text of the message;
    and the request is the first thing the call does. *)
Theorem sendSlackNotification_destination (env : gmap string string)
    (message : value) (w : world) (url : string) (init : value) :
  In (Fetch url init) (snd (sendSlackNotification env message w)) ->
  env !! "SLACK_WEBHOOK_URL" = Some url /\
  init = post_request message /\
  at_path init ["method"] = Some (VString "POST") /\
  at_path init ["headers"; "Content-Type"] = Some (VString "application/json") /\
  (forall body, JSON_stringify message = Some body ->
                at_path init ["body"] = Some (VString body)) /\
  hd_error (snd (sendSlackNotification env message w)) = Some (Fetch url init).
Proof.
  intros Hin.
  destruct (truthy (env !! "SLACK_WEBHOOK_URL")) eqn:Haddress.
  - apply truthy_set in Haddress as (address & Hurl & Hne).
    rewrite (sendSlackNotification_set env message w address Hurl Hne) in Hin |- *.
    assert (Hsent : url = address /\ init = post_request message).
    { destruct (fetch_reply w address (post_request message)) as [resp | reason];
        [destruct (ok resp) |]; simpl in Hin;
        destruct Hin as [Heq | [Heq | []]]; try discriminate Heq;
        injection Heq as <- <-; split; reflexivity. }
    destruct Hsent as [-> ->].
    split; [exact Hurl |]. split; [reflexivity |].
    split; [reflexivity |]. split; [reflexivity |].
    split.
    + intros body Hbody. unfold post_request. rewrite Hbody. reflexivity.
    + destruct (fetch_reply w address (post_request message)) as [resp | reason];
        [destruct (ok resp) |]; reflexivity.
  - rewrite (sendSlackNotification_not_set env message w Haddress) in Hin.
    simpl in Hin. destruct Hin as [Heq | [Heq | []]]; discriminate Heq.
Qed.

Lemma sendSlackNotification_destination_witness :
  ({[ "SLACK_WEBHOOK_URL" := "https://hooks.example.com/T0" ]} : gmap string string)
    !! "SLACK_WEBHOOK_URL" = Some "https://hooks.example.com/T0".
Proof.
  destruct (sendSlackNotification_destination
              {[ "SLACK_WEBHOOK_URL" := "https://hooks.example.com/T0" ]} VNull
              (answering {| ok := true; status := 200; statusText := "OK" |})
              "https://hooks.example.com/T0" (post_request VNull)) as [Haddress _].
  - vm_compute. left. reflexivity.
  - exact Haddress.
Defined.

(** ** From the report to the status of the message *)

Lemma eqb_self_false_nan (n : float) :
  PrimFloat.eqb n n = false -> Prim2SF n = S754_nan.
Proof.
  rewrite FloatAxioms.eqb_spec. destruct (Prim2SF n) as [s | s | | s m e].
  - discriminate.
  - destruct s; discriminate.
  - reflexivity.
  - unfold SFeqb, SFcompare. rewrite Z.compare_refl, Pos.compare_cont_refl.
    destruct s; discriminate.
Qed.

(** A number that [||] replaces by 0 is not above zero. *)
Lemma falsy_not_positive (n : float) :
  JsNumber.truthy n = false -> PrimFloat.ltb 0 n = false.
Proof.
  unfold JsNumber.truthy. intros Hfalsy.
  destruct (PrimFloat.eqb 0 n) eqn:Hzero.
  - destruct (zero_eqb_cases n Hzero) as [-> | ->]; reflexivity.
  - simpl in Hfalsy. apply eqb_self_false_nan in Hfalsy.
    rewrite FloatAxioms.ltb_spec, Hfalsy. reflexivity.
Qed.

(** X11. The message built from a report reads failure exactly when
    [stats.unexpected] is a number above zero; a report without
    [unexpected], or without [stats], reads success. *)
Theorem report_status_follows_unexpected (data : Report.report) (r : results) :
  results_from_report (Some data) = Some r ->
  status_of r =
  match stats_field data Report.unexpected with
  | Some n => if PrimFloat.ltb 0 n then "failure" else "success"
  | None => "success"
  end.
Proof.
  intros Hr. injection Hr as <-. unfold status_of. cbn [failed].
  destruct (stats_field data Report.unexpected) as [n |]; [| reflexivity].
  unfold or_zero. destruct (JsNumber.truthy n) eqn:Htruthy; [reflexivity |].
  rewrite (falsy_not_positive n Htruthy). reflexivity.
Qed.

Lemma report_status_follows_unexpected_witness :
  status_of {| passed := 239; failed := 0; skipped := 0; duration := 24.4 |} = "success".
Proof.
  apply (report_status_follows_unexpected example_report). reflexivity.
Defined.

(** ** [requestWithRetry] *)

Section RetryLoop.

Context (reply : nat -> Retry.get_outcome) (url : string) (options : value)
        (maxRetries : nat) (delay : float).

Local Abbreviation run := (Retry.loop reply url options maxRetries delay).

Lemma retry_waits_caught (attempt : nat) (error : exn) (t : list Retry.event) :
  Retry.waits (Retry.Get url options :: Retry.caught maxRetries delay attempt error ++ t)
  = ((if (attempt <? maxRetries)%nat
      then [(delay * Retry.pow2 (attempt - 1))%float] else []) ++ Retry.waits t)%list.
Proof.
  unfold Retry.caught. destruct (attempt <? maxRetries)%nat; reflexivity.
Qed.

Lemma retry_gets_caught (attempt : nat) (error : exn) (t : list Retry.event) :
  Retry.gets (Retry.Get url options :: Retry.caught maxRetries delay attempt error ++ t)
  = S (Retry.gets t).
Proof.
  unfold Retry.caught. destruct (attempt <? maxRetries)%nat; reflexivity.
Qed.

(** One failed attempt, then the rest of the loop. *)
Lemma retry_loop_failed (remaining attempt : nat) (lastError : option exn) (error : exn) :
  Retry.attempt_error (reply attempt) = Some error ->
  run (S remaining) attempt lastError =
  (fst (run remaining (S attempt) (Some error)),
   (Retry.Get url options :: Retry.caught maxRetries delay attempt error
    ++ snd (run remaining (S attempt) (Some error)))%list).
Proof using Type.
  intros Herror. cbn [Retry.loop].
  destruct (reply attempt) as [status | message].
  - rewrite Herror.
    destruct (Retry.loop reply url options maxRetries delay remaining (S attempt) (Some error));
      reflexivity.
  - injection Herror as <-.
    destruct (Retry.loop reply url options maxRetries delay remaining (S attempt)
                (Some (Error message))); reflexivity.
Qed.

Lemma retry_loop_succeeded (remaining attempt : nat) (lastError : option exn)
    (status : float) :
  reply attempt = Retry.Responds status ->
  PrimFloat.leb 500 status = false ->
  run (S remaining) attempt lastError
  = (Retry.Returns status attempt, [Retry.Get url options]).
Proof using Type.
  intros Hreply Hstatus. cbn [Retry.loop].
  rewrite Hreply. unfold Retry.attempt_error. rewrite Hstatus. reflexivity.
Qed.

Lemma retry_loop_all_fail (remaining : nat) :
  forall (attempt : nat) (lastError : option exn),
    (attempt + remaining = S maxRetries)%nat ->
    (forall j, (attempt <= j < attempt + remaining)%nat ->
               Retry.attempt_error (reply j) <> None) ->
    fst (run remaining attempt lastError)
    = Retry.Throws (match remaining with
                    | O => lastError
                    | S _ => Retry.attempt_error (reply maxRetries)
                    end) /\
    Retry.gets (snd (run remaining attempt lastError)) = remaining /\
    Retry.waits (snd (run remaining attempt lastError))
    = Retry.backoff delay attempt (remaining - 1).
Proof using Type.
  induction remaining as [| remaining IH]; intros attempt lastError Hsum Hfail.
  - repeat split.
  - destruct (Retry.attempt_error (reply attempt)) as [error |] eqn:Herror;
      [| exfalso; apply (Hfail attempt); [lia | exact Herror]].
    rewrite (retry_loop_failed remaining attempt lastError error Herror).
    cbn [fst snd]. rewrite retry_gets_caught, retry_waits_caught.
    destruct (IH (S attempt) (Some error)) as (Hout & Hgets & Hwaits);
      [lia | intros j Hj; apply Hfail; lia |].
    rewrite Hout, Hgets, Hwaits. destruct remaining as [| remaining'].
    + assert (attempt = maxRetries) as -> by lia.
      rewrite Herror, Nat.ltb_irrefl. repeat split.
    + assert (Hlt : (attempt <? maxRetries)%nat = true) by (apply Nat.ltb_lt; lia).
      rewrite Hlt. repeat split.
      cbn [Retry.backoff Nat.sub app]. rewrite Nat.sub_0_r. reflexivity.
Qed.

Lemma retry_loop_first_success (k : nat) (status : float) (remaining : nat) :
  forall (attempt : nat) (lastError : option exn),
    (attempt + remaining = S maxRetries)%nat ->
    (attempt <= k < attempt + remaining)%nat ->
    (forall j, (attempt <= j < k)%nat -> Retry.attempt_error (reply j) <> None) ->
    reply k = Retry.Responds status ->
    PrimFloat.leb 500 status = false ->
    fst (run remaining attempt lastError) = Retry.Returns status k /\
    Retry.gets (snd (run remaining attempt lastError)) = (k - attempt + 1)%nat /\
    Retry.waits (snd (run remaining attempt lastError))
    = Retry.backoff delay attempt (k - attempt).
Proof using Type.
  induction remaining as [| remaining IH];
    intros attempt lastError Hsum Hk Hfail Hreply Hstatus; [lia |].
  destruct (Nat.eq_dec attempt k) as [-> | Hne].
  - rewrite (retry_loop_succeeded remaining k lastError status Hreply Hstatus).
    cbn [fst snd]. rewrite Nat.sub_diag. repeat split.
  - destruct (Retry.attempt_error (reply attempt)) as [error |] eqn:Herror;
      [| exfalso; apply (Hfail attempt); [lia | exact Herror]].
    rewrite (retry_loop_failed remaining attempt lastError error Herror).
    cbn [fst snd]. rewrite retry_gets_caught, retry_waits_caught.
    destruct (IH (S attempt) (Some error)) as (Hout & Hgets & Hwaits);
      [lia | lia | intros j Hj; apply Hfail; lia | assumption | assumption |].
    rewrite Hout, Hgets, Hwaits.
    assert (Hlt : (attempt <? maxRetries)%nat = true) by (apply Nat.ltb_lt; lia).
    rewrite Hlt. split; [reflexivity |]. split; [lia |].
    replace (k - attempt)%nat with (S (k - S attempt)) by lia.
    reflexivity.
Qed.

End RetryLoop.

Lemma retry_backoff_length (delay : float) (from count : nat) :
  List.length (Retry.backoff delay from count) = count.
Proof.
  revert from. induction count as [| count IH]; intros from; [reflexivity |].
  cbn [Retry.backoff List.length]. now rewrite IH.
Qed.

(** Either every one of the first [n] attempts fails, or there is a
    first one that does not. *)
Lemma retry_first_success_or_none (reply : nat -> Retry.get_outcome) (n : nat) :
  (forall j, (1 <= j <= n)%nat -> Retry.attempt_error (reply j) <> None) \/
  (exists k status,
      (1 <= k <= n)%nat /\
      (forall j, (1 <= j < k)%nat -> Retry.attempt_error (reply j) <> None) /\
      reply k = Retry.Responds status /\ PrimFloat.leb 500 status = false).
Proof.
  induction n as [| n [IHfail | (k & status & Hk & Hbefore & Hreply & Hstatus)]].
  - left. intros j Hj. lia.
  - destruct (Retry.attempt_error (reply (S n))) as [error |] eqn:Herror.
    + left. intros j Hj. destruct (Nat.eq_dec j (S n)) as [-> | Hne].
      * rewrite Herror. discriminate.
      * apply IHfail. lia.
    + right. unfold Retry.attempt_error in Herror.
      destruct (reply (S n)) as [status | message] eqn:Hreply; [| discriminate].
      destruct (PrimFloat.leb 500 status) eqn:Hstatus; [discriminate |].
      exists (S n), status. repeat split; try lia; try assumption.
      intros j Hj. apply IHfail. lia.
  - right. exists k, status. repeat split; try lia; assumption.
Qed.

(** The two cases of the loop, from the first attempt. *)
Lemma requestWithRetry_first_success_at (reply : nat -> Retry.get_outcome)
    (url : string) (options : value) (maxRetries : nat) (delay : float)
    (k : nat) (status : float) :
  (1 <= k <= maxRetries)%nat ->
  (forall j, (1 <= j < k)%nat -> Retry.attempt_error (reply j) <> None) ->
  reply k = Retry.Responds status ->
  PrimFloat.leb 500 status = false ->
  fst (Retry.requestWithRetry reply url options maxRetries delay)
  = Retry.Returns status k /\
  Retry.gets (snd (Retry.requestWithRetry reply url options maxRetries delay)) = k /\
  Retry.waits (snd (Retry.requestWithRetry reply url options maxRetries delay))
  = Retry.backoff delay 1 (k - 1).
Proof.
  intros Hk Hbefore Hreply Hstatus. unfold Retry.requestWithRetry.
  destruct (retry_loop_first_success reply url options maxRetries delay k status
              maxRetries 1 None) as (Hout & Hgets & Hwaits);
    try assumption; try lia.
  rewrite Hout, Hgets, Hwaits. repeat split. lia.
Qed.

Lemma requestWithRetry_exhausted_all (reply : nat -> Retry.get_outcome)
    (url : string) (options : value) (maxRetries : nat) (delay : float) :
  (forall j, (1 <= j <= maxRetries)%nat -> Retry.attempt_error (reply j) <> None) ->
  fst (Retry.requestWithRetry reply url options maxRetries delay)
  = Retry.Throws (match maxRetries with
                  | O => None
                  | S _ => Retry.attempt_error (reply maxRetries)
                  end) /\
  Retry.gets (snd (Retry.requestWithRetry reply url options maxRetries delay))
  = maxRetries /\
  Retry.waits (snd (Retry.requestWithRetry reply url options maxRetries delay))
  = Retry.backoff delay 1 (maxRetries - 1).
Proof.
  intros Hfail. unfold Retry.requestWithRetry.
  apply retry_loop_all_fail; [lia |]. intros j Hj. apply Hfail. lia.
Qed.

(** X12. When the [k]-th attempt is the first that neither is rejected nor
    answers with a status from 500, and [k] is within [maxRetries], the
    helper returns that response with [attempts = k], after exactly [k]
    requests and [k - 1] waits of [delay], [2 * delay], [4 * delay], ... *)
Theorem requestWithRetry_first_success (reply : nat -> Retry.get_outcome)
    (url : string) (options : value) (maxRetries : nat) (delay : float)
    (k : nat) (status : float) :
  (1 <= k <= maxRetries)%nat ->
  (forall j, (1 <= j < k)%nat -> Retry.attempt_error (reply j) <> None) ->
  reply k = Retry.Responds status ->
  PrimFloat.leb 500 status = false ->
  fst (Retry.requestWithRetry reply url options maxRetries delay)
  = Retry.Returns status k /\
  Retry.gets (snd (Retry.requestWithRetry reply url options maxRetries delay)) = k /\
  Retry.waits (snd (Retry.requestWithRetry reply url options maxRetries delay))
  = Retry.backoff delay 1 (k - 1).
Proof.
  intros Hk Hbefore Hreply Hstatus.
  now apply requestWithRetry_first_success_at.
Qed.

Lemma requestWithRetry_first_success_witness :
  fst (Retry.requestWithRetry_default (Retry.flaky 2) "https://example.com/posts/1")
  = Retry.Returns 200 3 /\
  Retry.waits (snd (Retry.requestWithRetry_default (Retry.flaky 2)
                      "https://example.com/posts/1"))
  = [1000%float; 2000%float].
Proof.
  destruct (requestWithRetry_first_success (Retry.flaky 2) "https://example.com/posts/1"
              (VObject []) 3 1000 3 200) as (Hout & _ & Hwaits).
  - lia.
  - intros j Hj. assert (Hcases : j = 1%nat \/ j = 2%nat) by lia.
    destruct Hcases as [-> | ->]; discriminate.
  - reflexivity.
  - reflexivity.
  - split; [exact Hout | exact Hwaits].
Defined.

(** X13. When all [maxRetries] attempts fail, the helper throws the error of
    the last attempt, after exactly [maxRetries] requests and
    [maxRetries - 1] waits: it does not wait after the last failure. With
    [maxRetries = 0] it makes no request and throws [undefined]. *)
Theorem requestWithRetry_exhausted (reply : nat -> Retry.get_outcome)
    (url : string) (options : value) (maxRetries : nat) (delay : float) :
  (forall j, (1 <= j <= maxRetries)%nat -> Retry.attempt_error (reply j) <> None) ->
  fst (Retry.requestWithRetry reply url options maxRetries delay)
  = Retry.Throws (match maxRetries with
                  | O => None
                  | S _ => Retry.attempt_error (reply maxRetries)
                  end) /\
  Retry.gets (snd (Retry.requestWithRetry reply url options maxRetries delay))
  = maxRetries /\
  Retry.waits (snd (Retry.requestWithRetry reply url options maxRetries delay))
  = Retry.backoff delay 1 (maxRetries - 1).
Proof.
  intros Hfail. now apply requestWithRetry_exhausted_all.
Qed.

Lemma requestWithRetry_exhausted_witness :
  fst (Retry.requestWithRetry_default (Retry.flaky 5) "https://example.com/posts/1")
  = Retry.Throws (Some (Error "Server error: 503")) /\
  fst (Retry.requestWithRetry (Retry.flaky 5) "https://example.com/posts/1" VNull 0 1000)
  = Retry.Throws None.
Proof.
  split.
  - apply (requestWithRetry_exhausted (Retry.flaky 5) "https://example.com/posts/1"
             (VObject []) 3 1000).
    intros j Hj. assert (Hcases : j = 1%nat \/ j = 2%nat \/ j = 3%nat) by lia.
    destruct Hcases as [-> | [-> | ->]]; discriminate.
  - apply (requestWithRetry_exhausted (Retry.flaky 5) "https://example.com/posts/1"
             VNull 0 1000).
    intros j Hj. lia.
Defined.

(** X14. Whatever the server does, the helper makes at most [maxRetries]
    requests and waits at most [maxRetries - 1] times; and when it returns,
    [attempts] is the number of requests made and the first attempt that
    succeeded, and the status returned is below 500. *)
Theorem requestWithRetry_bounded (reply : nat -> Retry.get_outcome)
    (url : string) (options : value) (maxRetries : nat) (delay : float) :
  let run := Retry.requestWithRetry reply url options maxRetries delay in
  (Retry.gets (snd run) <= maxRetries)%nat /\
  (List.length (Retry.waits (snd run)) <= maxRetries - 1)%nat /\
  (forall status k,
      fst run = Retry.Returns status k ->
      (1 <= k <= maxRetries)%nat /\ Retry.gets (snd run) = k /\
      reply k = Retry.Responds status /\ PrimFloat.leb 500 status = false /\
      (forall j, (1 <= j < k)%nat -> Retry.attempt_error (reply j) <> None)).
Proof.
  cbv zeta.
  destruct (retry_first_success_or_none reply maxRetries)
    as [Hfail | (k & status & Hk & Hbefore & Hreply & Hstatus)].
  - destruct (requestWithRetry_exhausted_all reply url options maxRetries delay Hfail)
      as (Hout & Hgets & Hwaits).
    rewrite Hout, Hgets, Hwaits, retry_backoff_length.
    split; [lia |]. split; [lia |]. intros status k Hreturns. discriminate Hreturns.
  - destruct (requestWithRetry_first_success_at reply url options maxRetries delay
                k status Hk Hbefore Hreply Hstatus) as (Hout & Hgets & Hwaits).
    rewrite Hout, Hgets, Hwaits, retry_backoff_length.
    split; [lia |]. split; [lia |]. intros status' k' Hreturns.
    injection Hreturns as <- <-. repeat split; try lia; assumption.
Qed.

(** ** The teardown of the load scripts *)

Lemma setup_of_data (s : K6.script) (w : world) (data : value) :
  fst (K6.setup_of s w) = Ok data ->
  data = VObject [("startTime", VNumber (now w))].
Proof.
  intros Hsetup. destruct s; cbn [K6.setup_of] in Hsetup.
  - destruct (load_test_setup_checks w) as (_ & Hthrows & Hreturns).
    destruct (PrimFloat.eqb (http_get_status w _) 200) eqn:Hstatus.
    + rewrite (Hreturns eq_refl) in Hsetup. now injection Hsetup as <-.
    + specialize (Hthrows eq_refl). rewrite Hsetup in Hthrows. discriminate Hthrows.
  - destruct (spike_test_setup_checks w) as (_ & Hthrows & Hreturns).
    destruct (PrimFloat.eqb (http_get_status w _) 200) eqn:Hstatus.
    + rewrite (Hreturns eq_refl) in Hsetup. now injection Hsetup as <-.
    + rewrite (Hthrows eq_refl) in Hsetup. discriminate Hsetup.
  - destruct (stress_test_setup_returns w) as (Hreturns & _).
    rewrite Hreturns in Hsetup. now injection Hsetup as <-.
Qed.

(** X15. Given what [setup] returned when the clock stood at [now w], the
    teardown run when it stands at [t] returns, calls the network not at
    all, and reports [(t - now w) / 1000] seconds (in minutes for the
    stress and the spike test), to one decimal. *)
Theorem teardown_after_setup (s : K6.script) (w : world) (t : float) (data : value) :
  fst (K6.setup_of s w) = Ok data ->
  fst (K6Teardown.teardown_of s data (K6Teardown.at_time t w)) = Ok tt /\
  network_calls (snd (K6Teardown.teardown_of s data (K6Teardown.at_time t w))) = [] /\
  In (ConsoleLog [VString (K6Teardown.elapsed_line s ((t - now w) / 1000)%float)])
     (snd (K6Teardown.teardown_of s data (K6Teardown.at_time t w))).
Proof.
  intros Hsetup. rewrite (setup_of_data s w data Hsetup).
  destruct s; (split; [reflexivity |]; split; [reflexivity |]).
  - right. left. reflexivity.
  - right. right. left. reflexivity.
  - right. right. left. reflexivity.
Qed.

Lemma teardown_after_setup_witness :
  In (ConsoleLog [VString "總執行時間: 3.2 分鐘"])
     (snd (K6Teardown.teardown_of K6.StressTest
             (VObject [("startTime", VNumber 1700000000000)])
             (K6Teardown.at_time 1700000190000 (K6.target_answering 0)))).
Proof.
  destruct (teardown_after_setup K6.StressTest (K6.target_answering 0) 1700000190000
              (VObject [("startTime", VNumber 1700000000000)])) as (_ & _ & Hline).
  - reflexivity.
  - exact Hline.
Defined.

Lemma elapsed_seconds_run (data : value) (w : world) :
  K6Teardown.elapsed_seconds data w =
  match get data "startTime" with
  | Ok startTime => (Ok ((now w - JsToNumber.ToNumber startTime) / 1000)%float, [])
  | Throw e => (Throw e, [])
  end.
Proof.
  unfold K6Teardown.elapsed_seconds, seq, date_now.
  destruct (get data "startTime"); reflexivity.
Qed.

Lemma sub_nan (x : float) : Prim2SF (x - nan) = S754_nan.
Proof. rewrite sub_spec. destruct (Prim2SF x) as [s | s | | s m e]; reflexivity. Qed.

Lemma div_of_nan (x y : float) : Prim2SF x = S754_nan -> Prim2SF (x / y) = S754_nan.
Proof. intros Hx. rewrite div_spec, Hx. reflexivity. Qed.

Lemma toFixed_of_nan (x : float) (f : nat) :
  Prim2SF x = S754_nan -> JsNumber.toFixed x f = "NaN".
Proof. intros Hx. unfold JsNumber.toFixed. rewrite Hx. reflexivity. Qed.

(** X16. Without a [startTime] in [data] the teardown still returns, and the
    time it reports is [NaN]; on [null] or [undefined] data it throws a
    [TypeError] before it logs anything. *)
Theorem teardown_without_start_time (s : K6.script) (data : value) (w : world) :
  (nullish data = true ->
   K6Teardown.teardown_of s data w = (Throw TypeError, [])) /\
  (nullish data = false -> own_field data "startTime" = None ->
   fst (K6Teardown.teardown_of s data w) = Ok tt /\
   In (ConsoleLog [VString (match s with
                            | K6.LoadTest => "總執行時間: NaN 秒"
                            | _ => "總執行時間: NaN 分鐘"
                            end)])
      (snd (K6Teardown.teardown_of s data w))).
Proof.
  split.
  - intros Hnull.
    destruct s; cbn [K6Teardown.teardown_of];
      unfold K6Teardown.load_test.teardown, K6Teardown.spike_test.teardown,
        K6Teardown.stress_test.teardown, seq at 1;
      rewrite elapsed_seconds_run, (get_nullish _ Hnull); reflexivity.
  - intros Hnull Hfield.
    assert (Hnan : Prim2SF ((now w - JsToNumber.ToNumber VUndefined) / 1000) = S754_nan)
      by (apply div_of_nan, sub_nan).
    assert (Hminutes :
      Prim2SF ((now w - JsToNumber.ToNumber VUndefined) / 1000 / 60) = S754_nan)
      by (apply div_of_nan, Hnan).
    destruct s; cbn [K6Teardown.teardown_of];
      unfold K6Teardown.load_test.teardown, K6Teardown.spike_test.teardown,
        K6Teardown.stress_test.teardown, seq, K6.log, console_log;
      rewrite elapsed_seconds_run, (get_own _ Hnull), Hfield;
      cbn [fst snd app];
      rewrite ?(toFixed_of_nan _ 1 Hnan), ?(toFixed_of_nan _ 1 Hminutes);
      (split; [reflexivity |]).
    + right. left. reflexivity.
    + right. right. left. reflexivity.
    + right. right. left. reflexivity.
Qed.

Lemma teardown_without_start_time_witness :
  K6Teardown.teardown_of K6.LoadTest VUndefined (K6.target_answering 200)
  = (Throw TypeError, []) /\
  In (ConsoleLog [VString "總執行時間: NaN 秒"])
     (snd (K6Teardown.teardown_of K6.LoadTest (VObject []) (K6.target_answering 200))).
Proof.
  split.
  - apply (teardown_without_start_time K6.LoadTest VUndefined (K6.target_answering 200)).
    reflexivity.
  - apply (teardown_without_start_time K6.LoadTest (VObject []) (K6.target_answering 200));
      reflexivity.
Defined.

(** ** [parseTestResults] and [main] *)

Lemma parseTestResults_run (files : string -> Main.file) (path : string) (w : world) :
  Main.parseTestResults files path w =
  match files path with
  | Main.Missing => (Ok None, [])
  | Main.Unreadable message =>
      (Ok None, [ConsoleError [VString "無法解析測試結果檔案:"; VString message]])
  | Main.Holds data => (Ok (Some data), [])
  end.
Proof.
  unfold Main.parseTestResults, Main.existsSync, Main.read_json, seq, try_catch.
  destruct (files path) as [| message | data]; reflexivity.
Qed.

Lemma choose_results_no_data (args : list string) (env : gmap string string)
    (files : string -> Main.file) (w : world) :
  Main.no_data args files = true ->
  fst (Main.choose_results args env files w) = Ok None /\
  network_calls (snd (Main.choose_results args env files w)) = [].
Proof.
  unfold Main.no_data, Main.choose_results, Main.existsSync.
  destruct args as [| path rest]; [discriminate |]. cbn [hd].
  destruct (files path) as [| message | [| report]] eqn:Hfile; try discriminate;
    intros _; cbv beta iota; unfold seq; rewrite parseTestResults_run, Hfile;
    split; reflexivity.
Qed.

Lemma choose_results_some (args : list string) (env : gmap string string)
    (files : string -> Main.file) (w : world) :
  Main.no_data args files = false ->
  exists r,
    fst (Main.choose_results args env files w) = Ok (Some r) /\
    network_calls (snd (Main.choose_results args env files w)) = [].
Proof.
  unfold Main.no_data, Main.choose_results, Main.existsSync.
  assert (Hfallback :
    exists r,
      fst (match env !! "TEST_PASSED" with
           | Some _ => ret (Some (Main.results_from_env env))
           | None =>
               console_log [VString "使用預設測試結果（可透過環境變數或檔案傳入實際結果）"] >>>
               ret (Some Main.default_results)
           end w) = Ok (Some r) /\
      network_calls
        (snd (match env !! "TEST_PASSED" with
              | Some _ => ret (Some (Main.results_from_env env))
              | None =>
                  console_log [VString "使用預設測試結果（可透過環境變數或檔案傳入實際結果）"] >>>
                  ret (Some Main.default_results)
              end w)) = []).
  { destruct (env !! "TEST_PASSED"); eexists; split; reflexivity. }
  destruct args as [| path rest]; [intros _; exact Hfallback |]. cbn [hd].
  destruct (files path) as [| message | [| report]] eqn:Hfile; try discriminate;
    intros _; [exact Hfallback |].
  cbv beta iota. unfold seq. rewrite parseTestResults_run, Hfile.
  eexists. split; reflexivity.
Qed.

Lemma sendSlackNotification_returns (env : gmap string string) (message : value)
    (w : world) :
  exists b,
    fst (sendSlackNotification env message w) = Ok b /\
    (List.length (network_calls (snd (sendSlackNotification env message w))) <= 1)%nat.
Proof.
  destruct (truthy (env !! "SLACK_WEBHOOK_URL")) eqn:Haddress.
  - apply truthy_set in Haddress as (url & Hurl & Hne).
    rewrite (sendSlackNotification_set env message w url Hurl Hne).
    destruct (fetch_reply w url (post_request message)) as [r | reason];
      [destruct (ok r) |]; eexists; split; try reflexivity; simpl; lia.
  - rewrite (sendSlackNotification_not_set env message w Haddress).
    eexists; split; [reflexivity | simpl; lia].
Qed.

Lemma main_run (args : list string) (env : gmap string string)
    (files : string -> Main.file) (w : world) :
  Main.main args env files w =
  match Main.choose_results args env files w with
  | (Ok (Some r), t) =>
      match sendSlackNotification env (createSlackMessage env r ∅) w with
      | (Ok _, t') =>
          (Ok tt, (t ++ ConsoleLog [VString "測試結果:"; Main.results_value (Some r)]
                     :: t' ++ [])%list)
      | (Throw e, t') =>
          (Throw e, (t ++ ConsoleLog [VString "測試結果:"; Main.results_value (Some r)]
                       :: t')%list)
      end
  | (Ok None, t) =>
      (Throw TypeError, (t ++ [ConsoleLog [VString "測試結果:"; VUndefined]])%list)
  | (Throw e, t) => (Throw e, t)
  end.
Proof.
  unfold Main.main, seq at 1.
  destruct (Main.choose_results args env files w) as [[[r |] | e] t]; try reflexivity.
  unfold seq, console_log, ret.
  destruct (sendSlackNotification env (createSlackMessage env r ∅) w) as [[b | e] t'];
    reflexivity.
Qed.

Lemma network_calls_app (t1 t2 : list event) :
  network_calls (t1 ++ t2)%list = (network_calls t1 ++ network_calls t2)%list.
Proof. unfold network_calls. apply List.filter_app. Qed.

(** X17. [main] ends in a [TypeError], having sent nothing, exactly when its
    first argument names a file that is there and gives no data (it
    cannot be read or parsed, or holds a falsy value). In every other
    case it returns, whatever becomes of the delivery, after at most one
    network call. *)
Theorem main_outcome (args : list string) (env : gmap string string)
    (files : string -> Main.file) (w : world) :
  (Main.no_data args files = true ->
   fst (Main.main args env files w) = Throw TypeError /\
   network_calls (snd (Main.main args env files w)) = []) /\
  (Main.no_data args files = false ->
   fst (Main.main args env files w) = Ok tt /\
   (List.length (network_calls (snd (Main.main args env files w))) <= 1)%nat).
Proof.
  split; intros Hdata; rewrite main_run.
  - destruct (choose_results_no_data args env files w Hdata) as [Hnone Hquiet].
    destruct (Main.choose_results args env files w) as [r t].
    cbn [fst snd] in Hnone, Hquiet. subst r. cbn [fst snd].
    rewrite network_calls_app, Hquiet. split; reflexivity.
  - destruct (choose_results_some args env files w Hdata) as (r & Hsome & Hquiet).
    destruct (Main.choose_results args env files w) as [chosen t].
    cbn [fst snd] in Hsome, Hquiet. subst chosen.
    destruct (sendSlackNotification_returns env (createSlackMessage env r ∅) w)
      as (b & Hsent & Hcalls).
    destruct (sendSlackNotification env (createSlackMessage env r ∅) w) as [sent t'].
    cbn [fst snd] in Hsent, Hcalls. subst sent. cbn [fst snd].
    split; [reflexivity |].
    rewrite network_calls_app, Hquiet, app_nil_r. exact Hcalls.
Qed.

Lemma main_outcome_witness :
  fst (Main.main ["results.json"] {[ "SLACK_WEBHOOK_URL" := "https://hooks.example.com/T0" ]}
         (Main.one_file "results.json" (Main.Unreadable "Unexpected end of JSON input"))
         (answering {| ok := true; status := 200; statusText := "OK" |}))
  = Throw TypeError /\
  fst (Main.main ["results.json"] {[ "SLACK_WEBHOOK_URL" := "https://hooks.example.com/T0" ]}
         (Main.one_file "results.json" (Main.Holds (Main.Report example_report)))
         (answering {| ok := false; status := 500; statusText := "Server Error" |}))
  = Ok tt.
Proof.
  split.
  - apply (main_outcome ["results.json"]
             {[ "SLACK_WEBHOOK_URL" := "https://hooks.example.com/T0" ]}
             (Main.one_file "results.json" (Main.Unreadable "Unexpected end of JSON input"))
             (answering {| ok := true; status := 200; statusText := "OK" |})).
    reflexivity.
  - apply (main_outcome ["results.json"]
             {[ "SLACK_WEBHOOK_URL" := "https://hooks.example.com/T0" ]}
             (Main.one_file "results.json" (Main.Holds (Main.Report example_report)))
             (answering {| ok := false; status := 500; statusText := "Server Error" |})).
    reflexivity.
Defined.

(** X18. When the first argument names a report file and the webhook address
    is set, the one request [main] makes carries the message built from
    that report alone: the [TEST_*] variables of the environment play no
    part. *)
Theorem main_sends_report (path : string) (rest : list string)
    (env : gmap string string) (files : string -> Main.file) (w : world)
    (report : Report.report) (r : results) (url : string) :
  files path = Main.Holds (Main.Report report) ->
  results_from_report (Some report) = Some r ->
  env !! "SLACK_WEBHOOK_URL" = Some url -> url <> "" ->
  network_calls (snd (Main.main (path :: rest) env files w))
  = [Fetch url (post_request (createSlackMessage env r ∅))].
Proof.
  intros Hfile Hresults Hurl Hne. rewrite main_run.
  assert (Hchosen : Main.choose_results (path :: rest) env files w = (Ok (Some r), [])).
  { unfold Main.choose_results, Main.existsSync. rewrite Hfile. cbn [hd].
    cbv beta iota. unfold seq. rewrite parseTestResults_run, Hfile, Hresults.
    reflexivity. }
  rewrite Hchosen, (sendSlackNotification_set env _ w url Hurl Hne).
  destruct (fetch_reply w url _) as [resp | reason]; [destruct (ok resp) |]; reflexivity.
Qed.

Lemma main_sends_report_witness :
  network_calls
    (snd (Main.main ["results.json"]
            {[ "SLACK_WEBHOOK_URL" := "https://hooks.example.com/T0" ]}
            (Main.one_file "results.json" (Main.Holds (Main.Report example_report)))
            (answering {| ok := true; status := 200; statusText := "OK" |})))
  = [Fetch "https://hooks.example.com/T0"
       (post_request
          (createSlackMessage {[ "SLACK_WEBHOOK_URL" := "https://hooks.example.com/T0" ]}
             {| passed := 239; failed := 0; skipped := 0; duration := 24.4 |} ∅))].
Proof.
  apply (main_sends_report "results.json" []
           {[ "SLACK_WEBHOOK_URL" := "https://hooks.example.com/T0" ]}
           (Main.one_file "results.json" (Main.Holds (Main.Report example_report)))
           (answering {| ok := true; status := 200; statusText := "OK" |})
           example_report).
  - reflexivity.
  - reflexivity.
  - reflexivity.
  - discriminate.
Defined.

(** ** [parseFromOutput] *)

Import JsParse JsRegExp ParseFromOutput.

Lemma substring_prefix (p q : string) : String.substring 0 (String.length p) (p ++ q) = p.
Proof.
  induction p as [| c p IH]; [now destruct q |].
  rewrite append_cons. cbn [String.length String.substring]. now rewrite IH.
Qed.

Lemma taken_app (p q : string) : taken (p ++ q) q = p.
Proof.
  unfold taken. rewrite length_append.
  replace (String.length p + String.length q - String.length q)%nat
    with (String.length p) by lia.
  apply substring_prefix.
Qed.

Lemma contains_cons (w : string) (c : ascii) (s : string) :
  contains w (String c s) = false -> contains w s = false.
Proof.
  unfold contains. cbn [occurrences]. rewrite !Nat.ltb_ge. lia.
Qed.

Lemma contains_prefix (w s : string) :
  String.prefix w s = true -> contains w s = true.
Proof.
  unfold contains. intros H. apply Nat.ltb_lt.
  destruct s; cbn [occurrences]; rewrite H; lia.
Qed.

Lemma contains_suffix (w p s : string) :
  contains w s = true -> contains w (p ++ s) = true.
Proof.
  intros H. induction p as [| c p IH]; [exact H |].
  rewrite append_cons. unfold contains in *. apply Nat.ltb_lt in IH.
  apply Nat.ltb_lt. cbn [occurrences]. lia.
Qed.

(** Every success of the matcher goes through its continuation, on a
    suffix of the input. *)
Lemma star_passes {A : Type} (a : atom) (s : string) (k : string -> option A) (x : A) :
  star a s k = Some x -> exists p s', s = p ++ s' /\ k s' = Some x.
Proof.
  induction s as [| c s IH]; cbn [star]; intros H.
  - exists "", "". split; [reflexivity | exact H].
  - destruct (atom_matches a c).
    + destruct (star a s k) as [found |] eqn:Hstar.
      * destruct (IH H) as (p & s' & -> & Hk).
        exists (String c p), s'. split; [reflexivity | exact Hk].
      * exists "", (String c s). split; [reflexivity | exact H].
    + exists "", (String c s). split; [reflexivity | exact H].
Qed.

Lemma run_passes {A : Type} (r : regex) :
  forall (s : string) (capture : option string)
         (k : string -> option string -> option A) (x : A),
    run r s capture k = Some x ->
    exists p s' capture', s = p ++ s' /\ k s' capture' = Some x.
Proof.
  induction r as [| a | a | a | a | r1 IH1 r2 IH2 | r IH];
    intros s capture k x H; cbn [run] in H.
  - exists "", s, capture. split; [reflexivity | exact H].
  - destruct s as [| c s]; [discriminate |].
    destruct (atom_matches a c); [| discriminate].
    exists (String c ""), s, capture. split; [reflexivity | exact H].
  - destruct s as [| c s]; [discriminate |].
    destruct (atom_matches a c); [| discriminate].
    apply star_passes in H as (p & s' & -> & Hk).
    exists (String c p), s', capture. split; [reflexivity | exact Hk].
  - apply star_passes in H as (p & s' & -> & Hk).
    exists p, s', capture. split; [reflexivity | exact Hk].
  - destruct s as [| c s]; [exists "", "", capture; split; [reflexivity | exact H] |].
    destruct (atom_matches a c).
    + destruct (k s capture) as [found |] eqn:Hk.
      * exists (String c ""), s, capture. split; [reflexivity | congruence].
      * exists "", (String c s), capture. split; [reflexivity | exact H].
    + exists "", (String c s), capture. split; [reflexivity | exact H].
  - apply IH1 in H as (p1 & s1 & capture1 & -> & H).
    apply IH2 in H as (p2 & s2 & capture2 & -> & H).
    exists (p1 ++ p2), s2, capture2. split; [now rewrite append_assoc | exact H].
  - apply IH in H as (p & s' & capture' & -> & H).
    eexists p, s', _. split; [reflexivity | exact H].
Qed.

(** A literal in front of the last continuation. *)
Lemma run_literal (w : string) :
  forall (s : string) (capture : option string),
    run (literal w) s capture (fun _ c => Some c) =
    if String.prefix w s then Some capture else None.
Proof.
  induction w as [| c w IH]; intros s capture.
  - now destruct s.
  - destruct s as [| c' s]; [reflexivity |].
    cbn [literal run atom_matches]. rewrite prefix_cons.
    destruct (Ascii.eqb_spec c' c) as [-> | Hne].
    + rewrite Ascii.eqb_refl. apply IH.
    + destruct (Ascii.eqb_spec c c') as [-> | _]; [contradiction | reflexivity].
Qed.

Lemma run_before_literal (r : regex) (w s : string) (capture : option string)
    (x : option string) :
  run r s capture (fun s' c => run (literal w) s' c (fun _ c' => Some c')) = Some x ->
  contains w s = true.
Proof.
  intros H. apply run_passes in H as (p & s' & capture' & -> & H).
  rewrite run_literal in H.
  destruct (String.prefix w s') eqn:Hprefix; [| discriminate].
  apply contains_suffix, contains_prefix, Hprefix.
Qed.

Lemma exec_found (r : regex) (s : string) (m : option string) :
  exec r s = Some m -> exists p s', s = p ++ s' /\ match_here r s' = Some m.
Proof.
  induction s as [| c s IH]; cbn [exec]; intros H.
  - destruct (match_here r "") eqn:Hhere; [| discriminate].
    exists "", "". split; [reflexivity | congruence].
  - destruct (match_here r (String c s)) eqn:Hhere.
    + exists "", (String c s). split; [reflexivity | congruence].
    + destruct (IH H) as (p & s' & -> & Hm).
      exists (String c p), s'. split; [reflexivity | exact Hm].
Qed.

Lemma exec_count_absent (w s : string) :
  contains w s = false -> exec (Cat (Group (Plus Digit)) (literal w)) s = None.
Proof.
  intros Habsent.
  destruct (exec (Cat (Group (Plus Digit)) (literal w)) s) as [m |] eqn:Hexec;
    [| reflexivity].
  apply exec_found in Hexec as (p & s' & -> & Hm).
  apply (run_before_literal (Group (Plus Digit)) w s' None m) in Hm.
  apply (contains_suffix w p) in Hm. congruence.
Qed.

Lemma exec_time_absent (s : string) :
  contains "s)" s = false -> exec time_pattern s = None.
Proof.
  intros Habsent.
  destruct (exec time_pattern s) as [m |] eqn:Hexec; [| reflexivity].
  apply exec_found in Hexec as (p & s' & -> & Hm).
  destruct s' as [| c s']; [discriminate |].
  unfold match_here, time_pattern in Hm. cbn [run] in Hm.
  destruct (atom_matches (Char "(") c); [| discriminate].
  apply (run_before_literal
           (Group (Cat (Plus Digit) (Cat (Opt (Char ".")) (Star Digit)))) "s)" s' None m)
    in Hm.
  apply (contains_suffix "s)" (p ++ String c "")) in Hm.
  rewrite append_assoc in Hm. change (String c "" ++ s') with (String c s') in Hm.
  congruence.
Qed.

(** X19. A field whose word is not in the output is 0: the counts without
    [ passed], [ failed] or [ skipped] after a space, the duration without
    [s] and a closing parenthesis. *)
Theorem parseFromOutput_absent (output : string) :
  (contains " passed" output = false -> passed (parseFromOutput output) = 0%float) /\
  (contains " failed" output = false -> failed (parseFromOutput output) = 0%float) /\
  (contains " skipped" output = false -> skipped (parseFromOutput output) = 0%float) /\
  (contains "s)" output = false -> duration (parseFromOutput output) = 0%float).
Proof.
  unfold parseFromOutput, passed_pattern, failed_pattern, skipped_pattern.
  cbn [passed failed skipped duration].
  split; [| split; [| split]]; intros Habsent.
  - now rewrite (exec_count_absent " passed" output Habsent).
  - now rewrite (exec_count_absent " failed" output Habsent).
  - now rewrite (exec_count_absent " skipped" output Habsent).
  - now rewrite (exec_time_absent output Habsent).
Qed.

Lemma parseFromOutput_absent_witness :
  passed (parseFromOutput "3 failed (1.5s)") = 0%float /\
  skipped (parseFromOutput "3 failed (1.5s)") = 0%float /\
  duration (parseFromOutput "3 failed") = 0%float.
Proof.
  split; [| split].
  - apply (parseFromOutput_absent "3 failed (1.5s)"). reflexivity.
  - apply (parseFromOutput_absent "3 failed (1.5s)"). reflexivity.
  - apply (parseFromOutput_absent "3 failed"). reflexivity.
Defined.
(** The digits of a count and what follows them. *)
Lemma span_digits_app (ds rest : string) :
  all_digits ds = true ->
  match rest with
  | String c _ => is_digit c = false
  | EmptyString => True
  end ->
  span_digits (ds ++ rest) = (ds, rest).
Proof.
  intros Hds Hrest. induction ds as [| d ds IH].
  - change ("" ++ rest) with rest. destruct rest as [| c rest]; [reflexivity |].
    cbn [span_digits]. now rewrite Hrest.
  - unfold all_digits in Hds. cbn [list_ascii_of_string forallb] in Hds.
    apply andb_prop in Hds as [Hd Hds].
    rewrite append_cons. cbn [span_digits]. rewrite Hd, (IH Hds). reflexivity.
Qed.

Lemma span_digits_split (s : string) :
  s = fst (span_digits s) ++ snd (span_digits s).
Proof.
  induction s as [| c s IH]; [reflexivity |].
  cbn [span_digits]. destruct (is_digit c); [| reflexivity].
  destruct (span_digits s) as [ds after]. cbn [fst snd] in *.
  rewrite append_cons. now rewrite <- IH.
Qed.

(** [\d*] in front of a continuation that fails on every input that
    starts with a digit: only the longest run of digits is given to it. *)
Lemma star_digits {A : Type} (k : string -> option A) :
  (forall d r, is_digit d = true -> k (String d r) = None) ->
  forall s, star Digit s k = k (snd (span_digits s)).
Proof.
  intros Hk. induction s as [| c s IH]; [reflexivity |].
  cbn [star span_digits atom_matches].
  destruct (is_digit c) eqn:Hc; [| reflexivity].
  rewrite IH. destruct (span_digits s) as [ds after]. cbn [snd].
  destruct (k after) eqn:Hafter; [reflexivity |].
  now rewrite (Hk c s Hc).
Qed.

(** [(\d+)] and a word that starts with a character that is no digit,
    at the first character of the input. *)
Lemma match_here_count (sp : ascii) (w s : string) :
  is_digit sp = false ->
  match_here (Cat (Group (Plus Digit)) (literal (String sp w))) s =
  match fst (span_digits s) with
  | EmptyString => None
  | ds => if String.prefix (String sp w) (snd (span_digits s)) then Some (Some ds) else None
  end.
Proof.
  intros Hsp. destruct s as [| c s]; [reflexivity |].
  unfold match_here. cbn [run atom_matches span_digits].
  destruct (is_digit c) eqn:Hc; [| reflexivity].
  rewrite star_digits.
  - pose proof (span_digits_split s) as Hsplit.
    destruct (span_digits s) as [ds after]. cbn [fst snd] in *.
    rewrite (run_literal (String sp w)).
    replace (taken (String c s) after) with (String c ds); [reflexivity |].
    rewrite Hsplit, <- append_cons. symmetry. apply taken_app.
  - intros d r Hd. cbn [literal run atom_matches].
    destruct (Ascii.eqb_spec d sp) as [-> | _]; [congruence | reflexivity].
Qed.

Lemma no_digit_cons (c : ascii) (s : string) :
  no_digit (String c s) = negb (is_digit c) && no_digit s.
Proof. reflexivity. Qed.

(** A word without digits does not start in [u] and end in digits that
    follow [u], unless it is in [u]. *)
Lemma prefix_app_digit (w u : string) (d : ascii) (rest : string) :
  no_digit w = true -> is_digit d = true ->
  String.prefix w (u ++ String d rest) = true -> String.prefix w u = true.
Proof.
  revert u. induction w as [| a w IH]; intros u Hw Hd H; [now destruct u |].
  rewrite no_digit_cons in Hw. apply andb_prop in Hw as [Ha Hw].
  destruct u as [| b u].
  - change ("" ++ String d rest) with (String d rest) in H.
    rewrite prefix_cons in H. apply andb_prop in H as [Had _].
    apply Ascii.eqb_eq in Had. subst a. rewrite Hd in Ha. discriminate.
  - rewrite append_cons, prefix_cons in H. apply andb_prop in H as [Hab H].
    rewrite prefix_cons, Hab. exact (IH u Hw Hd H).
Qed.

Lemma contains_false_prefix (w s : string) :
  contains w s = false -> String.prefix w s = false.
Proof.
  intros H. destruct (String.prefix w s) eqn:Hp; [| reflexivity].
  apply contains_prefix in Hp. congruence.
Qed.

Lemma ends_with_digit_cons (c : ascii) (s : string) :
  s <> "" -> ends_with_digit (String c s) = ends_with_digit s.
Proof. destruct s; [contradiction | reflexivity]. Qed.

Section Count.
Variables (sp : ascii) (w : string).
Hypothesis Hsp : is_digit sp = false.
Hypothesis Hw : no_digit w = true.
Variables (ds tail : string).
Hypothesis Hds : all_digits ds = true.
Hypothesis Hne : ds <> "".

Local Abbreviation word := (String sp w).
Local Abbreviation pattern := (Cat (Group (Plus Digit)) (literal (String sp w))).

(** After digits that start before the count, the word does not follow. *)
Lemma count_not_earlier (u : string) :
  u <> "" -> ends_with_digit u = false -> contains word u = false ->
  String.prefix word (snd (span_digits (u ++ ds ++ word ++ tail))) = false.
Proof.
  induction u as [| a u IH]; intros Hu Hend Hcontains; [contradiction |].
  rewrite append_cons. cbn [span_digits].
  destruct (is_digit a) eqn:Ha.
  - assert (Hu' : u <> "").
    { intros ->. cbn [ends_with_digit] in Hend. congruence. }
    rewrite (ends_with_digit_cons a u Hu') in Hend.
    apply contains_cons in Hcontains.
    specialize (IH Hu' Hend Hcontains).
    destruct (span_digits (u ++ ds ++ word ++ tail)) as [run after].
    exact IH.
  - cbn [snd]. rewrite <- append_cons.
    destruct ds as [| d ds']; [contradiction |].
    destruct (String.prefix word (String a u ++ String d ds' ++ word ++ tail))
      eqn:Hprefix; [| reflexivity].
    apply (prefix_app_digit word (String a u) d (ds' ++ word ++ tail)) in Hprefix.
    + apply contains_prefix in Hprefix. congruence.
    + rewrite no_digit_cons, Hsp, Hw. reflexivity.
    + unfold all_digits in Hds. cbn [list_ascii_of_string forallb] in Hds.
      now apply andb_prop in Hds as [Hd _].
Qed.

Lemma exec_count (pre : string) :
  ends_with_digit pre = false -> contains word pre = false ->
  exec pattern (pre ++ ds ++ word ++ tail) = Some (Some ds).
Proof.
  induction pre as [| c pre IH]; intros Hend Hcontains.
  - change ("" ++ ds ++ word ++ tail) with (ds ++ word ++ tail).
    assert (Hhere : match_here pattern (ds ++ word ++ tail) = Some (Some ds)).
    { rewrite (match_here_count sp w _ Hsp).
      rewrite (span_digits_app ds (word ++ tail) Hds) by (rewrite append_cons; exact Hsp).
      cbn [fst snd]. rewrite prefix_app_self.
      destruct ds; [contradiction | reflexivity]. }
    destruct ds as [| d ds']; [contradiction |].
    rewrite append_cons in *. cbn [exec]. now rewrite Hhere.
  - rewrite append_cons. cbn [exec].
    assert (Hhere : match_here pattern (String c (pre ++ ds ++ word ++ tail)) = None).
    { rewrite (match_here_count sp w _ Hsp). cbn [span_digits].
      destruct (is_digit c) eqn:Hc; [| reflexivity].
      assert (Hpre : pre <> "").
      { intros ->. cbn [ends_with_digit] in Hend. congruence. }
      rewrite (ends_with_digit_cons c pre Hpre) in Hend.
      pose proof (count_not_earlier pre Hpre Hend (contains_cons _ _ _ Hcontains))
        as Hnot.
      destruct (span_digits (pre ++ ds ++ word ++ tail)) as [run after].
      cbn [fst snd] in *. now rewrite Hnot. }
    rewrite Hhere. apply IH.
    + destruct pre as [| c' pre']; [reflexivity |].
      now rewrite ends_with_digit_cons in Hend.
    + exact (contains_cons _ _ _ Hcontains).
Qed.

End Count.

(** X20. When the output has a run of digits right before its first
    [ passed], that is not the end of a longer run, the count of passed
    tests is the number these digits write; the same for [ failed] and
    [ skipped]. Digits elsewhere in the output play no part. *)
Theorem parseFromOutput_counts (pre ds post : string) :
  ds <> "" -> all_digits ds = true -> ends_with_digit pre = false ->
  (contains " passed" pre = false ->
   passed (parseFromOutput (pre ++ ds ++ " passed" ++ post)) = parseInt ds) /\
  (contains " failed" pre = false ->
   failed (parseFromOutput (pre ++ ds ++ " failed" ++ post)) = parseInt ds) /\
  (contains " skipped" pre = false ->
   skipped (parseFromOutput (pre ++ ds ++ " skipped" ++ post)) = parseInt ds).
Proof.
  intros Hne Hds Hend.
  unfold parseFromOutput, passed_pattern, failed_pattern, skipped_pattern.
  cbn [passed failed skipped].
  split; [| split]; intros Hcontains.
  - now rewrite (exec_count " " "passed" eq_refl eq_refl ds post Hds Hne pre Hend Hcontains).
  - now rewrite (exec_count " " "failed" eq_refl eq_refl ds post Hds Hne pre Hend Hcontains).
  - now rewrite (exec_count " " "skipped" eq_refl eq_refl ds post Hds Hne pre Hend Hcontains).
Qed.

Lemma parseFromOutput_counts_witness :
  passed (parseFromOutput example_output) = 239%float /\
  failed (parseFromOutput example_output) = 2%float.
Proof.
  split.
  - apply (parseFromOutput_counts
             ("Running 243 tests using 4 workers" ++ nl ++ "  2 failed" ++ nl ++
              "  2 skipped" ++ nl ++ "  ")
             "239" (" (24.4s)" ++ nl));
      [discriminate | reflexivity | reflexivity | reflexivity].
  - apply (parseFromOutput_counts
             ("Running 243 tests using 4 workers" ++ nl ++ "  ")
             "2" (nl ++ "  2 skipped" ++ nl ++ "  239 passed (24.4s)" ++ nl));
      [discriminate | reflexivity | reflexivity | reflexivity].
Defined.
Lemma all_digits_app (a b : string) :
  all_digits (a ++ b) = all_digits a && all_digits b.
Proof. unfold all_digits. now rewrite list_ascii_app, forallb_app. Qed.

(** [\d*] takes every digit in front of it when the continuation accepts
    what is left. *)
Lemma star_greedy {A : Type} (k : string -> option A) (x rest : string) (v : A) :
  all_digits x = true -> star Digit rest k = Some v ->
  star Digit (x ++ rest) k = Some v.
Proof.
  intros Hx Hrest. induction x as [| c x IH]; [exact Hrest |].
  unfold all_digits in Hx. cbn [list_ascii_of_string forallb] in Hx.
  apply andb_prop in Hx as [Hc Hx].
  rewrite append_cons. cbn [star atom_matches]. now rewrite Hc, (IH Hx).
Qed.

(** [\d+\.?\d*] on digits, an optional dot and digits, before an [s]. *)
Lemma run_number {A : Type} (ds fs rest : string) (dot : bool)
    (capture : option string) (k : string -> option string -> option A) (v : A) :
  ds <> "" -> all_digits ds = true -> all_digits fs = true ->
  k (String "s" rest) capture = Some v ->
  run (Cat (Plus Digit) (Cat (Opt (Char ".")) (Star Digit)))
      (ds ++ (if dot then "." else "") ++ fs ++ String "s" rest) capture k = Some v.
Proof.
  intros Hne Hds Hfs Hk. destruct ds as [| d ds]; [contradiction |].
  change (is_digit d && all_digits ds = true) in Hds.
  apply andb_prop in Hds as [Hd Hds].
  rewrite append_cons. cbn [run atom_matches]. rewrite Hd.
  assert (Htail : star Digit (fs ++ String "s" rest) (fun s' => k s' capture) = Some v).
  { apply star_greedy; [exact Hfs | exact Hk]. }
  destruct dot.
  - apply star_greedy; [exact Hds |].
    change ("." ++ fs ++ String "s" rest) with (String "." (fs ++ String "s" rest)).
    cbn [star atom_matches]. change (is_digit ".") with false. cbv iota.
    change (Ascii.eqb "." ".") with true. cbv iota.
    now rewrite Htail.
  - change ("" ++ fs ++ String "s" rest) with (fs ++ String "s" rest).
    rewrite <- append_assoc.
    apply star_greedy; [rewrite all_digits_app, Hds, Hfs; reflexivity |].
    cbn [star atom_matches]. change (is_digit "s") with false. cbv iota.
    change (Ascii.eqb "s" ".") with false. cbv iota. exact Hk.
Qed.

Lemma run_cat {A : Type} (r1 r2 : regex) (s : string) (capture : option string)
    (k : string -> option string -> option A) :
  run (Cat r1 r2) s capture k = run r1 s capture (fun s' c => run r2 s' c k).
Proof. reflexivity. Qed.

Lemma run_group {A : Type} (r : regex) (s : string) (capture : option string)
    (k : string -> option string -> option A) :
  run (Group r) s capture k = run r s capture (fun s' _ => k s' (Some (taken s s'))).
Proof. reflexivity. Qed.

Lemma run_one {A : Type} (a : atom) (c : ascii) (s : string) (capture : option string)
    (k : string -> option string -> option A) :
  run (One a) (String c s) capture k = if atom_matches a c then k s capture else None.
Proof. reflexivity. Qed.

Lemma match_here_time (ds fs post : string) (dot : bool) :
  ds <> "" -> all_digits ds = true -> all_digits fs = true ->
  match_here time_pattern (String "(" (ds ++ (if dot then "." else "") ++ fs ++ "s)" ++ post))
  = Some (Some (ds ++ (if dot then "." else "") ++ fs)).
Proof.
  intros Hne Hds Hfs. unfold match_here, time_pattern.
  rewrite run_cat, run_one. change (atom_matches (Char "(") "(") with true.
  cbv beta iota. rewrite run_cat, run_group. cbv beta.
  change ("s)" ++ post) with (String "s" (")" ++ post)).
  apply (run_number ds fs (")" ++ post) dot None _ _ Hne Hds Hfs).
  rewrite (run_literal "s)").
  change (String "s" (")" ++ post)) with ("s)" ++ post).
  rewrite prefix_app_self.
  replace (ds ++ (if dot then "." else "") ++ fs ++ "s)" ++ post)
    with ((ds ++ (if dot then "." else "") ++ fs) ++ "s)" ++ post)
    by now rewrite !append_assoc.
  now rewrite taken_app.
Qed.

Lemma exec_time (pre ds fs post : string) (dot : bool) :
  occurs_in "(" pre = false ->
  ds <> "" -> all_digits ds = true -> all_digits fs = true ->
  exec time_pattern (pre ++ "(" ++ ds ++ (if dot then "." else "") ++ fs ++ "s)" ++ post)
  = Some (Some (ds ++ (if dot then "." else "") ++ fs)).
Proof.
  intros Hpre Hne Hds Hfs. induction pre as [| c pre IH].
  - change ("" ++ "(" ++ ds ++ (if dot then "." else "") ++ fs ++ "s)" ++ post)
      with (String "(" (ds ++ (if dot then "." else "") ++ fs ++ "s)" ++ post)).
    cbn [exec]. now rewrite match_here_time.
  - rewrite occurs_in_cons in Hpre. apply orb_false_elim in Hpre as [Hc Hpre].
    rewrite append_cons. cbn [exec].
    assert (Hhere : forall s, match_here time_pattern (String c s) = None).
    { intros s. unfold match_here, time_pattern. rewrite run_cat, run_one.
      cbn [atom_matches].
      destruct (Ascii.eqb_spec c "(") as [-> | _]; [discriminate | reflexivity]. }
    rewrite Hhere. exact (IH Hpre).
Qed.

(** X21. When the first opening parenthesis of the output is followed by
    digits, an optional dot, digits, [s] and a closing parenthesis, the
    duration is what [parseFloat] makes of the text between the
    parenthesis and the [s]. *)
Theorem parseFromOutput_duration (pre ds fs post : string) (dot : bool) :
  occurs_in "(" pre = false ->
  ds <> "" -> all_digits ds = true -> all_digits fs = true ->
  duration (parseFromOutput
              (pre ++ "(" ++ ds ++ (if dot then "." else "") ++ fs ++ "s)" ++ post))
  = parseFloat (ds ++ (if dot then "." else "") ++ fs).
Proof.
  intros Hpre Hne Hds Hfs. unfold parseFromOutput. cbn [duration].
  now rewrite (exec_time pre ds fs post dot Hpre Hne Hds Hfs).
Qed.

Lemma parseFromOutput_duration_witness :
  duration (parseFromOutput example_output) = 24.4%float.
Proof.
  apply (parseFromOutput_duration
           ("Running 243 tests using 4 workers" ++ nl ++ "  2 failed" ++ nl ++
            "  2 skipped" ++ nl ++ "  239 passed ")
           "24" "4" nl true);
    [reflexivity | discriminate | reflexivity | reflexivity].
Defined.

(** ** The iterations of the load, stress and spike scripts *)

Ltac reduce_iteration :=
  cbv beta iota zeta;
  cbn [K6Default.run_checks bind forallb negb andb app].

Ltac run_iteration :=
  unfold K6Default.seq, K6Default.random_id, K6Default.seq, K6Default.math_random,
    K6Default.date_now, K6Default.http, K6Default.trend_add, K6Default.counter_add,
    K6Default.rate_add, K6Default.sleep, K6Default.ret, K6Default.throw,
    K6Default.check;
  reduce_iteration.

(** X22. An iteration of the stress script returns after exactly one request:
    it records the duration of the response and counts the request, marks
    an error exactly when the status is not the expected one (201 for a
    POST, 200 otherwise) or the response took 1000 ms or more, and ends
    with one sleep of half the last number drawn. It draws four or five
    random numbers. *)
Theorem stress_default_one_request (w : K6Default.world) (n : nat) :
  exists (req : K6Default.request) (n' : nat),
    let res := K6Default.respond w req in
    K6Default.stress_test.default w n =
      (Ok tt, S n',
       (K6Default.Http req
          :: K6Default.TrendAdd "request_duration" (K6Default.res_duration res)
          :: K6Default.CounterAdd "request_count" 1
          :: (if (K6Default.res_status res =? K6Default.expected_status req)%float
                 && (K6Default.res_duration res <? 1000)%float
              then [] else [K6Default.RateAdd "errors" 1])
          ++ [K6Default.Sleep (K6Default.random w n' * 0.5)%float])%list) /\
    (n + 3 <= n' <= n + 4)%nat.
Proof.
  unfold K6Default.stress_test.default. run_iteration.
  destruct (K6Default.random w n <? 0.6)%float.
  - run_iteration.
    match goal with
    | |- context [K6Default.respond w ?r] => exists r
    end.
    exists (S (S (S (S n)))). cbv zeta. cbn [K6Default.expected_status].
    split; [| lia].
    destruct (K6Default.res_status _ =? 200)%float,
             (K6Default.res_duration _ <? 1000)%float; reflexivity.
  - run_iteration. destruct (K6Default.random w (S n) <? 0.9)%float.
    + run_iteration.
      match goal with
      | |- context [K6Default.respond w ?r] => exists r
      end.
      exists (S (S (S n))). cbv zeta. cbn [K6Default.expected_status].
      split; [| lia].
      destruct (K6Default.res_status _ =? 201)%float,
               (K6Default.res_duration _ <? 1000)%float; reflexivity.
    + run_iteration.
      match goal with
      | |- context [K6Default.respond w ?r] => exists r
      end.
      exists (S (S (S n))). cbv zeta. cbn [K6Default.expected_status].
      split; [| lia].
      destruct (K6Default.res_status _ =? 200)%float,
               (K6Default.res_duration _ <? 1000)%float; reflexivity.
Qed.

(** X23. An iteration of the spike script draws a number to choose one of its
    five actions. When the number chooses one, the iteration returns
    after exactly one request: it records the duration of the response,
    marks an error exactly when the status is not the expected one (201
    for the POST of a comment, 200 otherwise), and ends with one sleep.
    When the number chooses none, the call of the missing action is a
    [TypeError] before any request. *)
Theorem spike_default_one_request (w : K6Default.world) (n : nat) :
  (exists (req : K6Default.request) (n' : nat),
     let res := K6Default.respond w req in
     K6Default.spike_test.default w n =
       (Ok tt, S n',
        (K6Default.Http req
           :: K6Default.TrendAdd "response_times" (K6Default.res_duration res)
           :: (if (K6Default.res_status res =? K6Default.expected_status req)%float
               then [] else [K6Default.RateAdd "errors" 1])
           ++ [K6Default.Sleep (K6Default.random w n' * 0.3)%float])%list) /\
     (n + 1 <= n' <= n + 2)%nat) \/
  (K6Default.spike_test.default w n = (Throw TypeError, S n, []) /\
   K6Default.item K6Default.spike_test.actions
     (JsMath.floor
        (K6Default.random w n
         * number_of_nat (List.length K6Default.spike_test.actions))) = None).
Proof.
  unfold K6Default.spike_test.default, K6Default.seq, K6Default.math_random,
    K6Default.throw, K6Default.item.
  cbv beta iota.
  destruct (index_of_key _ _) as [i |]; [| right; split; reflexivity].
  do 5 (destruct i as [| i];
        [left; cbn [nth_error K6Default.spike_test.actions]; run_iteration;
         match goal with
         | |- context [K6Default.respond w ?r] => exists r
         end;
         eexists; cbv zeta; cbn [K6Default.expected_status];
         (split;
          [match goal with
           | |- context [(?s =? _)%float] => destruct (s =? _)%float
           end; reflexivity
          | lia]) |]).
  right. destruct i; split; reflexivity.
Qed.









